(** * StepFly: the DAG execution engine, embedded and verified

    A shallow embedding of the scheduler ([stepfly/tools/schedule_tool.py]),
    the PlanDAG loader ([stepfly/tools/incident_tsg_loader.py]), the shared
    memory ([stepfly/utils/memory.py]), the plugin and SQL tools
    ([plugins/base_plugin.py], [stepfly/tools/sql_query_tool.py]) and the
    worker loop ([stepfly/agents/executor.py]).

    Conventions.  A Python [str] is a Rocq [string] whose characters are read
    as the code points U+0000..U+00FF.  A Python list that is mutated in
    place becomes a list that is passed in and returned.  A function that
    can raise returns a [result]; [Raise e] stands for the exception leaving
    the function.  Collaborators that live outside the repository (the LLM
    transport, the JSON codec, the SQL engine, the other tools) are the
    fields of the classes [JsonCodec], [Host] and [Collaborators]. *)

From Stdlib Require Import ZArith Lia Ascii.
From stdpp Require Import base list strings pretty.


(** ** Python strings *)

Definition startswith (s p : string) : bool := String.prefix p s.

Definition endswith (s p : string) : bool :=
  String.prefix (String.rev p) (String.rev s).

(** [s[n:]] *)
Fixpoint drop_str (n : nat) (s : string) : string :=
  match n, s with
  | O, _ => s
  | S _, EmptyString => EmptyString
  | S k, String _ t => drop_str k t
  end.

(** [s[:n]] for [0 <= n] *)
Fixpoint take_str (n : nat) (s : string) : string :=
  match n, s with
  | O, _ => EmptyString
  | S _, EmptyString => EmptyString
  | S k, String c t => String c (take_str k t)
  end.

(** [s[:-n]] for [0 < n]: everything but the last [n] characters. *)
Definition drop_last_str (n : nat) (s : string) : string :=
  take_str (String.length s - n) s.

(** [str.isspace] on one character of the range U+0000..U+00FF. *)
Definition py_isspace (c : ascii) : bool :=
  let n := Ascii.nat_of_ascii c in
  ((9 <=? n) && (n <=? 13)) || ((28 <=? n) && (n <=? 32))
  || (n =? 133) || (n =? 160).

Fixpoint lstrip (s : string) : string :=
  match s with
  | EmptyString => EmptyString
  | String c t => if py_isspace c then lstrip t else s
  end.

(** [s.strip()] *)
Definition strip (s : string) : string :=
  String.rev (lstrip (String.rev (lstrip s))).

(** [str.lower] on one character of the range U+0000..U+00FF. *)
Definition lower_char (c : ascii) : ascii :=
  let n := Ascii.nat_of_ascii c in
  if ((65 <=? n) && (n <=? 90))
     || ((192 <=? n) && (n <=? 222) && negb (n =? 215))
  then Ascii.ascii_of_nat (n + 32) else c.

Fixpoint lower (s : string) : string :=
  match s with
  | EmptyString => EmptyString
  | String c t => String (lower_char c) (lower t)
  end.

(** [s.split(sep)[-1]] for a non-empty [sep]: Python scans from the left and
    cuts at every occurrence that does not overlap the previous one; the
    last piece runs from the end of the last cut to the end of [s].
    [skip] counts the characters of a separator still to be passed, [piece]
    is the text from the last cut on. *)
Fixpoint split_last_go (sep s : string) (skip : nat) (piece : string) : string :=
  match s with
  | EmptyString => piece
  | String _ t =>
      match skip with
      | S k => split_last_go sep t k piece
      | O =>
          if startswith s sep
          then split_last_go sep t (String.length sep - 1)
                 (drop_str (String.length sep) s)
          else split_last_go sep t 0 piece
      end
  end.

Definition split_last (s sep : string) : string := split_last_go sep s 0 s.

(** The line feed, [\n] in the source. *)
Definition newline : string := String (Ascii.ascii_of_nat 10) EmptyString.

(** [sep.join(l)] *)
Fixpoint join (sep : string) (l : list string) : string :=
  match l with
  | [] => ""
  | [x] => x
  | x :: rest => x +:+ sep +:+ join sep rest
  end.

(** ** JSON values, as [json.loads] builds them

    A [dict] keeps its items in insertion order; [int] is the only number
    the engine looks at. *)

#[local] Set Warnings "-register-all".

Inductive json : Type :=
  | JNull
  | JBool (b : bool)
  | JNum (z : Z)
  | JStr (s : string)
  | JArr (l : list json)
  | JObj (items : list (string * json)).

(** [v == s] for a string literal [s]. *)
Definition json_is_str (v : json) (s : string) : bool :=
  match v with
  | JStr t => bool_decide (t = s)
  | _ => false
  end.

(** [d.get(k)] on the items of a dict. *)
Fixpoint dict_get {A : Type} (k : string) (items : list (string * A)) : option A :=
  match items with
  | [] => None
  | (k', v) :: rest => if bool_decide (k' = k) then Some v else dict_get k rest
  end.

(** [d.get(k, default)] *)
Definition dict_get_default {A : Type} (k : string) (default : A)
    (items : list (string * A)) : A :=
  from_option id default (dict_get k items).

(** ** Exceptions and fallible code

    [ValueError] and [KeyError] are raised by the engine with the text the
    source gives them; [ExternalError] is an exception of a collaborator,
    with its text.  [AttributeError], [TypeError] and [UnboundLocalError]
    are raised by the Python runtime: [detail] names the operation that
    failed, the wording of [str(e)] is the runtime's. *)

Inductive exn : Type :=
  | ValueError (msg : string)
  | KeyError (key : string)
  | AttributeError (detail : string)
  | TypeError (detail : string)
  | UnboundLocalError (detail : string)
  | ExternalError (msg : string).

Inductive result (A : Type) : Type :=
  | Ok (a : A)
  | Raise (e : exn).

Arguments Ok {A} a.
Arguments Raise {A} e.

(** Sequencing: an exception skips the rest, so [x <- r ;; k] reads as
    two statements in a row. *)
Definition bind {A B : Type} (r : result A) (k : A -> result B) : result B :=
  match r with
  | Ok a => k a
  | Raise e => Raise e
  end.

Notation "x <- r ;; k" := (bind r (fun x => k))
  (at level 100, r at next level, right associativity).

(** ** The status tables (data model of the scheduler)

    [EdgeInfo] is an item of a node's [input_edges] / [output_edges];
    [Edge] is a row of [Edge_Status]; [Node] is a row of [Node_Status].
    The status of an edge is whatever JSON value was last written to it:
    the loader writes strings, a worker's [set_edge_status] may carry any
    value. *)

Record EdgeInfo : Type := {
  ei_edge : string;
  ei_condition : option string
}.

Record Edge : Type := {
  e_edge : string;
  e_status : json;
  e_condition : string
}.

Record Node : Type := {
  n_node : string;
  n_description : string;
  n_input_edges : list EdgeInfo;
  n_output_edges : list EdgeInfo;
  n_status : string;
  n_result : option string;
  n_executor_id : option string
}.

(** [edge["status"] = new_status] *)
Definition set_edge_status_of (e : Edge) (new_status : json) : Edge :=
  {| e_edge := e_edge e; e_status := new_status; e_condition := e_condition e |}.

(** [node["status"] = s] *)
Definition set_node_status (n : Node) (s : string) : Node :=
  {| n_node := n_node n; n_description := n_description n;
     n_input_edges := n_input_edges n; n_output_edges := n_output_edges n;
     n_status := s; n_result := n_result n; n_executor_id := n_executor_id n |}.

(** [node["result"] = r] *)
Definition set_node_result (n : Node) (r : string) : Node :=
  {| n_node := n_node n; n_description := n_description n;
     n_input_edges := n_input_edges n; n_output_edges := n_output_edges n;
     n_status := n_status n; n_result := Some r; n_executor_id := n_executor_id n |}.

(** [x in names] *)
Definition name_in (x : string) (names : list string) : bool :=
  bool_decide (x ∈ names).

(** ** schedule_tool.py *)

Definition _set_all_output_edges_disabled (node : Node) (edge_status : list Edge)
    : list Edge :=
  let output_edge_names := map ei_edge (n_output_edges node) in
  map (fun edge =>
         if name_in (e_edge edge) output_edge_names
         then set_edge_status_of edge (JStr "disabled")
         else edge)
      edge_status.

Definition _are_all_input_edges_disabled (node : Node) (edge_status : list Edge)
    : result bool :=
  match n_input_edges node with
  | [] =>
      Raise (ValueError ("Node " +:+ n_node node +:+
        " has no input edges defined, cannot check for disabled status."))
  | input_edges =>
      let input_edge_names := map ei_edge input_edges in
      Ok (forallb (fun edge =>
                     negb (name_in (e_edge edge) input_edge_names)
                     || json_is_str (e_status edge) "disabled")
                  edge_status)
  end.

(** The flags the loop of [_should_trigger_node] carries. *)
Record TriggerFlags : Type := {
  any_enabled : bool;
  any_pending : bool
}.

Definition trigger_step (input_edge_names : list string)
    (flags : TriggerFlags) (edge : Edge) : TriggerFlags :=
  if name_in (e_edge edge) input_edge_names then
    {| any_enabled :=
         if json_is_str (e_status edge) "enabled" then true else any_enabled flags;
       any_pending :=
         if json_is_str (e_status edge) "pending" then true else any_pending flags |}
  else flags.

Definition is_end_name (node_name : string) : bool :=
  bool_decide (lower node_name = "end").

(** Returns [(is_triggering, is_end_node)]. *)
Definition _should_trigger_node (node : Node) (edge_status : list Edge)
    : result (bool * bool) :=
  let node_name := n_node node in
  match n_input_edges node with
  | [] =>
      Raise (ValueError ("Node " +:+ node_name +:+
        " has no input edges defined, cannot check for triggering status."))
  | input_edges =>
      let input_edge_names := map ei_edge input_edges in
      let flags :=
        fold_left (trigger_step input_edge_names) edge_status
                  {| any_enabled := false; any_pending := false |} in
      let is_end_node := is_end_name node_name in
      if is_end_node && any_enabled flags then Ok (true, true)
      else if negb (any_pending flags) && any_enabled flags then Ok (true, false)
      else Ok (false, false)
  end.

(** The inner loop of [_update_output_edges]: the first row named
    [edge_name] gets [new_status] and the loop breaks; [None] when the loop
    ends with [edge_found] still false. *)
Fixpoint update_first_edge (edge_name : string) (new_status : json)
    (all_edge_status : list Edge) : option (list Edge) :=
  match all_edge_status with
  | [] => None
  | edge :: rest =>
      if bool_decide (e_edge edge = edge_name)
      then Some (set_edge_status_of edge new_status :: rest)
      else option_map (cons edge) (update_first_edge edge_name new_status rest)
  end.

(** The outer loop, over [set_edge_status.items()]. *)
Fixpoint update_edges_items (all_edge_status : list Edge)
    (items : list (string * json)) : result (list Edge) :=
  match items with
  | [] => Ok all_edge_status
  | (edge_name, new_status) :: rest =>
      match update_first_edge edge_name new_status all_edge_status with
      | Some updated => update_edges_items updated rest
      | None =>
          Raise (ValueError ("Edge '" +:+ edge_name +:+ "' not found in Edge_Status"))
      end
  end.

(** [set_edge_status.items()] exists for a dict only. *)
Definition _update_output_edges (all_edge_status : list Edge)
    (set_edge_status : json) : result (list Edge) :=
  match set_edge_status with
  | JObj items => update_edges_items all_edge_status items
  | _ => Raise (AttributeError "items")
  end.

(** The JSON codec of the Python library: [json.loads] ([None] stands for
    [json.JSONDecodeError]) and [json.dumps]. *)
Class JsonCodec : Type := {
  json_loads : string -> option json;
  json_dumps : json -> string
}.

(** [v[k]] *)
Definition json_index (v : json) (k : string) : result json :=
  match v with
  | JObj items =>
      match dict_get k items with
      | Some x => Ok x
      | None => Raise (KeyError k)
      end
  | _ => Raise (TypeError "subscript")
  end.

(** [v.get(k, default)] *)
Definition json_get (v : json) (k : string) (default : json) : result json :=
  match v with
  | JObj items => Ok (dict_get_default k default items)
  | _ => Raise (AttributeError "get")
  end.

(** The record a worker leaves under [{executor_id}_step_result]
    ([_run_executor]), or the one the monitor builds on a timeout. *)
Record ExecutorResult : Type := {
  er_node_name : string;
  er_executor_id : string;
  er_result : json
}.

(** The verdict the monitor builds for a worker it has terminated. *)
Definition timeout_result (node_name executor_id : string) : ExecutorResult :=
  {| er_node_name := node_name;
     er_executor_id := executor_id;
     er_result := JObj [("status", JStr "failed");
                        ("error", JStr "Executor timed out")] |}.

Section Monitor.
Context `{JsonCodec}.

(** Body of [for node in all_node_status] while a result is processed
    (lines 287-300 of schedule_tool.py). *)
Definition apply_result_to_node (node_name node_status result_text : string)
    (set_edge_status : json) (node : Node) (all_edge_status : list Edge)
    : result (Node * list Edge) :=
  if bool_decide (n_node node = node_name) then
    let node' := set_node_result (set_node_status node node_status) result_text in
    if bool_decide (node_status = "finished") then
      updated <- _update_output_edges all_edge_status set_edge_status ;;
      Ok (node', updated)
    else
      Ok (node', _set_all_output_edges_disabled node' all_edge_status)
  else Ok (node, all_edge_status).

Fixpoint apply_result_to_nodes (node_name node_status result_text : string)
    (set_edge_status : json) (all_node_status : list Node)
    (all_edge_status : list Edge) : result (list Node * list Edge) :=
  match all_node_status with
  | [] => Ok ([], all_edge_status)
  | node :: rest =>
      head <- apply_result_to_node node_name node_status result_text
                set_edge_status node all_edge_status ;;
      let '(node', edges') := head in
      tail <- apply_result_to_nodes node_name node_status result_text
                set_edge_status rest edges' ;;
      let '(rest', edges'') := tail in
      Ok (node' :: rest', edges'')
  end.

(** "Process the result and update node status" (lines 281-300). *)
Definition process_executor_result (executor_result : ExecutorResult)
    (all_node_status : list Node) (all_edge_status : list Edge)
    : result (list Node * list Edge) :=
  let node_name := er_node_name executor_result in
  status <- json_index (er_result executor_result) "status" ;;
  let node_status :=
    if json_is_str status "completed" then "finished" else "failed" in
  set_edge_status <-
    json_get (er_result executor_result) "set_edge_status" (JObj []) ;;
  apply_result_to_nodes node_name node_status
    (json_dumps (er_result executor_result)) set_edge_status
    all_node_status all_edge_status.
End Monitor.

(** What the sweep over the pending nodes carries (lines 312-338):
    the nodes picked for dispatch and whether [end] is among them. *)
Record Sweep : Type := {
  nodes_to_run : list Node;
  is_end_triggered : bool
}.

(** Body of "Monitor edge status and trigger nodes" for one node.
    [running] is [len(self.running_nodes)]. *)
Definition sweep_node (running : nat) (max_executor_number : Z)
    (node : Node) (all_edge_status : list Edge) (sw : Sweep)
    : result (Node * list Edge * Sweep) :=
  if negb (bool_decide (n_status node = "pending")) then
    Ok (node, all_edge_status, sw)
  else
    trigger <- _should_trigger_node node all_edge_status ;;
    let '(is_triggering, is_end_node) := trigger in
    if is_triggering
       && (is_end_node
           || bool_decide (Z.of_nat running + Z.of_nat (length (nodes_to_run sw))
                           < max_executor_number)%Z)
    then
      Ok (node, all_edge_status,
          {| nodes_to_run := nodes_to_run sw ++ [node];
             is_end_triggered :=
               if is_end_node then true else is_end_triggered sw |})
    else
      all_disabled <- _are_all_input_edges_disabled node all_edge_status ;;
      if all_disabled then
        let node' := set_node_status node "skipped" in
        Ok (node', _set_all_output_edges_disabled node' all_edge_status, sw)
      else Ok (node, all_edge_status, sw).

Fixpoint sweep_nodes (running : nat) (max_executor_number : Z)
    (all_node_status : list Node) (all_edge_status : list Edge) (sw : Sweep)
    : result (list Node * list Edge * Sweep) :=
  match all_node_status with
  | [] => Ok ([], all_edge_status, sw)
  | node :: rest =>
      head <- sweep_node running max_executor_number node all_edge_status sw ;;
      let '(node', edges', sw') := head in
      tail <- sweep_nodes running max_executor_number rest edges' sw' ;;
      let '(rest', edges'', sw'') := tail in
      Ok (node' :: rest', edges'', sw'')
  end.

(** ** memory.py

    The MongoDB database of a session, as the collections the engine reads
    and writes: a collection is the list of its documents in insertion
    order, [find_one] returns the first match, [insert_one] appends.  The
    [timestamp] and [summary] fields of a document are written and never
    read by the operations below; they are left out, and so is the
    reference that [add_data] pushes to the owning agent's document. *)

(** A [pandas.DataFrame]: column names and rows. *)
Record DataFrame : Type := {
  df_columns : list string;
  df_rows : list (list json)
}.

(** What the engine stores: JSON values (the status tables and the
    workers' results are JSON too; they keep their record form here) and
    data frames. *)
Inductive payload : Type :=
  | PJson (j : json)
  | PEdges (table : list Edge)
  | PNodes (table : list Node)
  | PExecutorResult (r : ExecutorResult)
  | PFrame (df : DataFrame).

(** Python's [None] as a payload. *)
Definition py_None : payload := PJson JNull.

(** [isinstance(data, pd.DataFrame)] *)
Definition is_dataframe (data : payload) : bool :=
  match data with
  | PFrame _ => true
  | _ => false
  end.

(** A document of [data_collection]. A data frame's document carries no
    [data] field and has [is_df] set. *)
Record DataDoc : Type := {
  d_id : string;
  d_data : option payload;
  d_data_type : string;
  d_agent_id : option string;
  d_description : string;
  d_metadata : list (string * json);
  d_is_df : bool
}.

(** A document of [code_snippets_collection]. *)
Record SnippetDoc : Type := {
  s_id : string;
  s_code : string;
  s_plugin_id : option string;
  s_tsg_name : option string;
  s_parameters : list (string * json);
  s_description : string
}.

(** [uuid_draws] counts the identifiers drawn so far. *)
Record Memory : Type := {
  data_collection : list DataDoc;
  dataframes_collection : list (string * DataFrame);
  code_snippets_collection : list SnippetDoc;
  uuid_draws : nat
}.

(** The host the engine runs on: [uuid4 n] is the text of the [n]-th
    [uuid.uuid4()] of the session, [find_pandas_all] is pymongoarrow reading
    the rows written under a [_memory_id] back into a frame ([None] when it
    raises), [runtime_text e] is [str(e)] for an exception [e] the Python
    runtime raised. *)
Class Host : Type := {
  uuid4 : nat -> string;
  find_pandas_all : list (string * DataFrame) -> string -> option DataFrame;
  runtime_text : exn -> string
}.

(** [str(e)] *)
Definition exn_text `{Host} (e : exn) : string :=
  match e with
  | ValueError msg => msg
  | ExternalError msg => msg
  | KeyError key => "'" +:+ key +:+ "'"
  | _ => runtime_text e
  end.

(** [x or y] for an optional string [x]. *)
Definition str_or (x : option string) (y : string) : string :=
  match x with
  | Some (String c s) => String c s
  | _ => y
  end.

(** The query [{"metadata.key": key}]. Every [metadata.key] the engine
    writes is a string. *)
Definition has_key (key : string) (doc : DataDoc) : bool :=
  match dict_get "key" (d_metadata doc) with
  | Some v => json_is_str v key
  | None => false
  end.

Section MemoryOps.
Context `{Host}.

Definition _add_dataframe (df : DataFrame) (data_type : string)
    (agent_id : option string) (metadata : option (list (string * json)))
    (description : option string) (mem : Memory) : string * Memory :=
  let data_id := uuid4 (uuid_draws mem) in
  let meta_doc :=
    {| d_id := data_id; d_data := None; d_data_type := data_type;
       d_agent_id := agent_id; d_description := str_or description "";
       d_metadata := from_option id [] metadata; d_is_df := true |} in
  (data_id,
   {| data_collection := data_collection mem ++ [meta_doc];
      dataframes_collection := dataframes_collection mem ++ [(data_id, df)];
      code_snippets_collection := code_snippets_collection mem;
      uuid_draws := S (uuid_draws mem) |}).

Definition add_data (data : payload) (data_type : string)
    (agent_id : option string) (metadata : option (list (string * json)))
    (description : option string) (mem : Memory) : string * Memory :=
  match data with
  | PFrame df => _add_dataframe df data_type agent_id metadata description mem
  | _ =>
      let data_id := uuid4 (uuid_draws mem) in
      let data_doc :=
        {| d_id := data_id; d_data := Some data; d_data_type := data_type;
           d_agent_id := agent_id; d_description := str_or description "";
           d_metadata := from_option id [] metadata; d_is_df := false |} in
      (data_id,
       {| data_collection := data_collection mem ++ [data_doc];
          dataframes_collection := dataframes_collection mem;
          code_snippets_collection := code_snippets_collection mem;
          uuid_draws := S (uuid_draws mem) |})
  end.

Definition _get_dataframe (mem : Memory) (data_id : string) : payload :=
  match find_pandas_all (dataframes_collection mem) data_id with
  | Some df => PFrame df
  | None => py_None
  end.

Definition get_data_by_key (mem : Memory) (key : string) : payload :=
  match find (has_key key) (data_collection mem) with
  | Some data_doc =>
      if d_is_df data_doc then _get_dataframe mem (d_id data_doc)
      else from_option id py_None (d_data data_doc)
  | None => py_None
  end.

Definition update_data_by_key (key : string) (data : payload)
    (data_type description : option string) (mem : Memory) : string * Memory :=
  match find (has_key key) (data_collection mem) with
  | Some existing_doc =>
      let existing_data_type := d_data_type existing_doc in
      let existing_description := d_description existing_doc in
      (* delete_many({"metadata.key": key}) *)
      let removed :=
        {| data_collection :=
             filter (fun doc => has_key key doc = false) (data_collection mem);
           dataframes_collection := dataframes_collection mem;
           code_snippets_collection := code_snippets_collection mem;
           uuid_draws := uuid_draws mem |} in
      add_data data (str_or data_type existing_data_type) None
        (Some [("key", JStr key)])
        (Some (str_or description existing_description)) removed
  | None =>
      add_data data (str_or data_type "new_data") None
        (Some [("key", JStr key)])
        (Some (str_or description ("Data with key: " +:+ key))) mem
  end.

Definition store_code_snippet (code : string) (plugin_id tsg_name : option string)
    (parameters : list (string * json)) (description : option string)
    (mem : Memory) : string * Memory :=
  let snippet_id := uuid4 (uuid_draws mem) in
  let snippet_doc :=
    {| s_id := snippet_id; s_code := code; s_plugin_id := plugin_id;
       s_tsg_name := tsg_name; s_parameters := parameters;
       s_description := str_or description "" |} in
  (snippet_id,
   {| data_collection := data_collection mem;
      dataframes_collection := dataframes_collection mem;
      code_snippets_collection := code_snippets_collection mem ++ [snippet_doc];
      uuid_draws := S (uuid_draws mem) |}).

(** [None] when no snippet has this id. *)
Definition get_code_snippet (mem : Memory) (snippet_id : string) : option string :=
  match find (fun doc => bool_decide (s_id doc = snippet_id))
             (code_snippets_collection mem) with
  | Some snippet => Some (s_code snippet)
  | None => None
  end.
End MemoryOps.

(** ** incident_tsg_loader.py: [_load_plandag]

    A node of the PlanDAG file, as [json.load] returns it.  A missing
    [input_edges] or [output_edges] reads as the empty list, a missing
    [edge] as the empty name (both are skipped by the loader's test
    [if edge_name]). *)
Record PlanNode : Type := {
  pn_node : string;
  pn_description : option string;
  pn_input_edges : list EdgeInfo;
  pn_output_edges : list EdgeInfo;
  pn_status : option string
}.

(** [if not s] on a string. *)
Definition is_empty_str (s : string) : bool :=
  match s with
  | EmptyString => true
  | String _ _ => false
  end.

(** The table under construction and the set [all_edges] of names seen. *)
Record EdgeCollector : Type := {
  edge_status : list Edge;
  all_edges : list string
}.

(** Body of both inner loops of "Collect all unique edges". *)
Definition collect_edge (acc : EdgeCollector) (edge_info : EdgeInfo)
    : EdgeCollector :=
  let edge_name := ei_edge edge_info in
  if negb (is_empty_str edge_name) && negb (name_in edge_name (all_edges acc))
  then
    {| all_edges := all_edges acc ++ [edge_name];
       edge_status :=
         edge_status acc
         ++ [{| e_edge := edge_name; e_status := JStr "pending";
                e_condition := from_option id "none" (ei_condition edge_info) |}] |}
  else acc.

(** Body of [for node in plan_dag_nodes]: output edges first, then input
    edges. *)
Definition collect_node (acc : EdgeCollector) (node : PlanNode) : EdgeCollector :=
  fold_left collect_edge (pn_input_edges node)
    (fold_left collect_edge (pn_output_edges node) acc).

Definition collect_edges (plan_dag_nodes : list PlanNode) : EdgeCollector :=
  fold_left collect_node plan_dag_nodes {| edge_status := []; all_edges := [] |}.

Definition is_start (node : PlanNode) : bool :=
  bool_decide (lower (pn_node node) = "start").

(** Body of "Enable all output edges from start node": the first row
    named like the output edge becomes enabled; no row, no change. *)
Definition enable_edge (table : list Edge) (edge_info : EdgeInfo) : list Edge :=
  let edge_name := ei_edge edge_info in
  if is_empty_str edge_name then table
  else from_option id table (update_first_edge edge_name (JStr "enabled") table).

(** [start_node["status"] = "finished"] writes into the first start node
    of [plan_dag_nodes], which the list shares with [start_node]. *)
Fixpoint finish_start (plan_dag_nodes : list PlanNode) : list PlanNode :=
  match plan_dag_nodes with
  | [] => []
  | node :: rest =>
      if is_start node
      then {| pn_node := pn_node node; pn_description := pn_description node;
              pn_input_edges := pn_input_edges node;
              pn_output_edges := pn_output_edges node;
              pn_status := Some "finished" |} :: rest
      else node :: finish_start rest
  end.

(** A row of [Node_Status] made from a node of the plan. *)
Definition node_row (node : PlanNode) : Node :=
  {| n_node := pn_node node;
     n_description := from_option id "" (pn_description node);
     n_input_edges := pn_input_edges node;
     n_output_edges := pn_output_edges node;
     n_status := from_option id "pending" (pn_status node);
     n_result := None;
     n_executor_id := None |}.

(** The two tables [_load_plandag] builds from the nodes of the file. *)
Definition build_tables (plan_dag_nodes : list PlanNode)
    : result (list Edge * list Node) :=
  let collected := edge_status (collect_edges plan_dag_nodes) in
  match find is_start plan_dag_nodes with
  | None =>
      Raise (ValueError
        "No start node found in the PlanDAG. Please ensure a start node is defined.")
  | Some start_node =>
      let enabled := fold_left enable_edge (pn_output_edges start_node) collected in
      Ok (enabled, map node_row (finish_start plan_dag_nodes))
  end.

Definition count_enabled (table : list Edge) : nat :=
  length (filter (fun edge => json_is_str (e_status edge) "enabled" = true) table).

Section Loader.
Context `{Host}.

(** [_load_plandag] from the point where the file has been read:
    [plan_file] is [os.path.basename(plan_dag_path)], [plan_dag_nodes] is
    [plan_dag_data.get("nodes", [])].  Both tables are stored with
    [add_data]; any exception becomes the returned text. *)
Definition _load_plandag (plan_file : string) (plan_dag_nodes : list PlanNode)
    (mem : Memory) : string * Memory :=
  match build_tables plan_dag_nodes with
  | Raise e => ("Error loading PlanDAG: " +:+ exn_text e, mem)
  | Ok (edge_table, node_table) =>
      let mem1 :=
        (add_data (PEdges edge_table) "edge_status" None
           (Some [("key", JStr "Edge_Status")])
           (Some "Current status of all edges in the PlanDAG") mem).2 in
      let mem2 :=
        (add_data (PNodes node_table) "node_status" None
           (Some [("key", JStr "Node_Status")])
           (Some "Node information and execution status") mem1).2 in
      ("PlanDAG Loaded: " +:+ plan_file +:+ newline +:+ newline
         +:+ "Successfully loaded PlanDAG with " +:+ pretty (length plan_dag_nodes)
         +:+ " nodes and " +:+ pretty (length edge_table) +:+ " edges. "
         +:+ pretty (count_enabled edge_table)
         +:+ " edges have been enabled from start node(s). "
         +:+ "Edge_Status and Node_Status are now available in memory.",
       mem2)
  end.
End Loader.

(** ** plugins: the plugin classes and [PluginTool]

    Every plugin class of the repository has the same [execute]: check the
    required parameters in order, normalise the two timestamps, fill the
    template.  A plugin is its identity, the list [required_params] of its
    [execute], and its template as the function
    [self.template.format( **converted_kwargs)]. *)
Record Plugin : Type := {
  plugin_id : string;
  plugin_description : string;
  source_tsg : string;
  language : string;
  required_params : list string;
  template_format : list (string * json) -> result string
}.

(** [repr] of a list of plain names, as an f-string prints it. *)
Definition repr_names (names : list string) : string :=
  "[" +:+ join ", " (map (fun name => "'" +:+ name +:+ "'") names) +:+ "]".

(** [param in kwargs] *)
Definition has_param (param : string) (kwargs : list (string * json)) : bool :=
  name_in param (map fst kwargs).

(** [c in s] for a character [c]. *)
Fixpoint contains_char (c : ascii) (s : string) : bool :=
  match s with
  | EmptyString => false
  | String c' t => bool_decide (c' = c) || contains_char c t
  end.

(** [s.replace('T', ' ').replace('Z', '')] *)
Fixpoint respace_timestamp (s : string) : string :=
  match s with
  | EmptyString => EmptyString
  | String c t =>
      if bool_decide (c = "T"%char) then String " "%char (respace_timestamp t)
      else if bool_decide (c = "Z"%char) then respace_timestamp t
      else String c (respace_timestamp t)
  end.

(** [convert_timestamp]; on a value that is no string the test
    ['T' in iso_timestamp] or the call of [replace] is the runtime's. *)
Definition convert_timestamp (iso_timestamp : json) : result json :=
  match iso_timestamp with
  | JStr s =>
      Ok (JStr (if contains_char "T"%char s then respace_timestamp s else s))
  | JArr l =>
      if existsb (fun x => json_is_str x "T") l
      then Raise (AttributeError "replace") else Ok iso_timestamp
  | JObj items =>
      if has_param "T" items
      then Raise (AttributeError "replace") else Ok iso_timestamp
  | _ => Raise (TypeError "in")
  end.

(** [d[k] = v] on the items of a dict. *)
Fixpoint dict_set {A : Type} (k : string) (v : A) (items : list (string * A))
    : list (string * A) :=
  match items with
  | [] => [(k, v)]
  | (k', v') :: rest =>
      if bool_decide (k' = k) then (k, v) :: rest
      else (k', v') :: dict_set k v rest
  end.

Definition convert_param (param : string) (kwargs : list (string * json))
    : result (list (string * json)) :=
  match dict_get param kwargs with
  | Some v =>
      converted <- convert_timestamp v ;;
      Ok (dict_set param converted kwargs)
  | None => Ok kwargs
  end.

(** [execute(self, **kwargs)] of a plugin class. *)
Definition plugin_execute (plugin : Plugin) (kwargs : list (string * json))
    : result string :=
  match find (fun param => negb (has_param param kwargs)) (required_params plugin) with
  | Some param =>
      Ok ("Missing required parameter: " +:+ param
          +:+ ". You should provide all the params: "
          +:+ repr_names (required_params plugin))
  | None =>
      with_start <- convert_param "start_time" kwargs ;;
      converted_kwargs <- convert_param "end_time" with_start ;;
      template_format plugin converted_kwargs
  end.

(** ** Tools and collaborators *)

(** A turn of a conversation. *)
Record Message : Type := {
  role : string;
  content : string
}.

(** The tools of a worker's registry: a plugin tool, the SQL tool, or a
    tool this development does not look into, given by its [execute] on
    the parameters the worker passes and the store. *)
Inductive Tool : Type :=
  | PluginTool (plugin : Plugin)
  | SQLQueryTool
  | ExternalTool (execute : json -> Memory -> result string * Memory).

(** What lies outside the repository: [call_llm n history] is the text the
    LLM transport returns on the [n]-th call of the worker (or the
    exception it raises); [run_sql_query] is the rest of
    [SQLQueryTool.execute] once the query text is known (sqlite, pandas,
    storing the result; always a text, thanks to the enclosing [try]);
    [sql_untyped_call] is [SQLQueryTool.execute] on a [snippet_id] or
    [query_string] that is no string. *)
Class Collaborators : Type := {
  call_llm : nat -> list Message -> result string;
  run_sql_query : string -> json -> json -> Memory -> string * Memory;
  sql_untyped_call : list (string * json) -> Memory -> string * Memory
}.

(** [if v] *)
Definition truthy (v : json) : bool :=
  match v with
  | JNull => false
  | JBool b => b
  | JNum z => negb (Z.eqb z 0)
  | JStr s => negb (is_empty_str s)
  | JArr l => match l with [] => false | _ => true end
  | JObj items => match items with [] => false | _ => true end
  end.

Definition sql_parameter_names : list string :=
  ["query_string"; "snippet_id"; "database_path"; "result_description"].

Definition stored_id_prefix : string := "SQL query snippet stored with ID: ".

Section Tools.
Context `{Host} `{Collaborators}.

(** [PluginTool.execute( **kwargs)] *)
Definition PluginTool_execute (plugin : Plugin) (kwargs : list (string * json))
    (mem : Memory) : result string * Memory :=
  match plugin_execute plugin kwargs with
  | Raise e => (Raise e, mem)
  | Ok snippet =>
      if startswith snippet "Error:"
         || startswith snippet "Missing required parameter:"
      then (Ok snippet, mem)
      else
        let stored :=
          store_code_snippet snippet (Some (plugin_id plugin))
            (Some (source_tsg plugin)) kwargs
            (Some ("Query/code generated from TSG " +:+ source_tsg plugin)) mem in
        (Ok (stored_id_prefix +:+ stored.1), stored.2)
  end.

(** [SQLQueryTool.execute( **kwargs)]: a keyword outside the four
    parameters is refused at the call; inside, everything is a text. *)
Definition SQLQueryTool_execute (kwargs : list (string * json)) (mem : Memory)
    : result string * Memory :=
  if forallb (fun k => name_in k sql_parameter_names) (map fst kwargs) then
    let query_string := dict_get_default "query_string" JNull kwargs in
    let snippet_id := dict_get_default "snippet_id" JNull kwargs in
    let database_path := dict_get_default "database_path" JNull kwargs in
    let result_description := dict_get_default "result_description" JNull kwargs in
    let run sql_query :=
      let answer := run_sql_query sql_query database_path result_description mem in
      (Ok answer.1, answer.2) in
    let untyped :=
      let answer := sql_untyped_call kwargs mem in (Ok answer.1, answer.2) in
    if truthy snippet_id then
      match snippet_id with
      | JStr id =>
          match get_code_snippet mem id with
          | Some (String c q) => run (String c q)
          | _ =>
              (Ok ("Error: SQL snippet with ID '" +:+ id
                   +:+ "' not found in memory."), mem)
          end
      | _ => untyped
      end
    else if truthy query_string then
      match query_string with
      | JStr q => run q
      | _ => untyped
      end
    else (Ok "Error: Please provide either 'query_string' or 'snippet_id'.", mem)
  else (Raise (TypeError "unexpected keyword argument"), mem).

(** [tool.execute( **parameters)] *)
Definition tool_execute (tool : Tool) (parameters : json) (mem : Memory)
    : result string * Memory :=
  match tool with
  | ExternalTool execute => execute parameters mem
  | PluginTool plugin =>
      match parameters with
      | JObj kwargs => PluginTool_execute plugin kwargs mem
      | _ => (Raise (TypeError "argument after ** must be a mapping"), mem)
      end
  | SQLQueryTool =>
      match parameters with
      | JObj kwargs => SQLQueryTool_execute kwargs mem
      | _ => (Raise (TypeError "argument after ** must be a mapping"), mem)
      end
  end.

(** The lookup of [_execute_action]: the exact name first, then the
    first tool whose name matches when letter case is ignored. *)
Definition find_tool (tools : list (string * Tool)) (action : string)
    : option Tool :=
  match dict_get action tools with
  | Some tool => Some tool
  | None =>
      match find (fun entry => bool_decide (lower entry.1 = lower action)) tools with
      | Some entry => Some entry.2
      | None => None
      end
  end.

(** [Executor._execute_action] for an action that is a string. *)
Definition _execute_action (tools : list (string * Tool)) (action : string)
    (parameters : json) (mem : Memory) : string * Memory :=
  if is_empty_str action
  then ("No action to execute. Continuing with the session.", mem)
  else
    match find_tool tools action with
    | None =>
        ("Error: Tool '" +:+ action +:+ "' not found. Available tools: "
         +:+ join ", " (map fst tools), mem)
    | Some tool =>
        match tool_execute tool parameters mem with
        | (Ok answer, mem') => (answer, mem')
        | (Raise e, mem') =>
            ("Error executing " +:+ action +:+ ": " +:+ exn_text e, mem')
        end
    end.
End Tools.

(** ** executor.py: the worker

    The state of an [Executor] that [execute_step] reads and writes.
    [audit_log] is the conversation history of the agent's document in the
    store: [__init__] registers the agent and nothing removes an agent, so
    [add_agent_context] finds it; the log keeps the messages pushed to it.
    [llm_calls_count] is [token_usage["llm_calls_count"]], one more per
    call of the LLM.  [current_iteration] is the entry of that name in
    [execution_state].  Writing trace files is left out. *)
Record Executor : Type := {
  step_name : string;
  agent_id : string;
  tools : list (string * Tool);
  memory : Memory;
  conversation_history : list Message;
  audit_log : list Message;
  llm_calls_count : nat;
  current_iteration : option Z
}.

Definition with_memory (ex : Executor) (mem : Memory) : Executor :=
  {| step_name := step_name ex; agent_id := agent_id ex; tools := tools ex;
     memory := mem; conversation_history := conversation_history ex;
     audit_log := audit_log ex; llm_calls_count := llm_calls_count ex;
     current_iteration := current_iteration ex |}.

(** [self.conversation_history.append(message)] followed by
    [register_conversation_message]. *)
Definition record_message (ex : Executor) (message : Message) : Executor :=
  {| step_name := step_name ex; agent_id := agent_id ex; tools := tools ex;
     memory := memory ex;
     conversation_history := conversation_history ex ++ [message];
     audit_log := audit_log ex ++ [message];
     llm_calls_count := llm_calls_count ex;
     current_iteration := current_iteration ex |}.

Definition _record_response (ex : Executor) (response : string) : Executor :=
  record_message ex {| role := "assistant"; content := response |}.

Definition _record_observation (ex : Executor) (observation : string) : Executor :=
  record_message ex {| role := "user"; content := "Observation: " +:+ observation |}.

(** [_update_token_usage] after a call of the LLM. *)
Definition count_llm_call (ex : Executor) : Executor :=
  {| step_name := step_name ex; agent_id := agent_id ex; tools := tools ex;
     memory := memory ex; conversation_history := conversation_history ex;
     audit_log := audit_log ex; llm_calls_count := S (llm_calls_count ex);
     current_iteration := current_iteration ex |}.

(** [self.execution_state.update({"current_iteration": current_inter})] *)
Definition enter_iteration (ex : Executor) (current_inter : Z) : Executor :=
  {| step_name := step_name ex; agent_id := agent_id ex; tools := tools ex;
     memory := memory ex; conversation_history := conversation_history ex;
     audit_log := audit_log ex; llm_calls_count := llm_calls_count ex;
     current_iteration := Some current_inter |}.

(** The start of [execute_step]: a fresh [execution_state], the two
    priming messages as the new conversation, both registered. *)
Definition start_step (ex : Executor) (system_prompt context : string) : Executor :=
  let priming :=
    [{| role := "system"; content := system_prompt |};
     {| role := "user";
        content :=
          "# Step: " +:+ step_name ex +:+ newline +:+ newline
          +:+ context +:+ newline +:+ newline
          +:+ "Execute this step and provide a clear result. "
          +:+ "Focus on specific findings and conclusions." |}] in
  {| step_name := step_name ex; agent_id := agent_id ex; tools := tools ex;
     memory := memory ex; conversation_history := priming;
     audit_log := audit_log ex ++ priming;
     llm_calls_count := llm_calls_count ex;
     current_iteration := None |}.

(** The parser's tolerance for a code fence. *)
Definition strip_fence (response : string) : string :=
  let opened :=
    if startswith response "```json" then drop_str 7 response else response in
  if endswith opened "```" then drop_last_str 3 opened else opened.

(** The [finish_step] the worker of the end node gives itself. *)
Definition end_finish_step : json :=
  JObj [("thought", JStr "No further actions required. Ending step execution.");
        ("action", JStr "finish_step");
        ("parameters",
         JObj [("result", JStr "The full TSG execution completed");
               ("status", JStr "completed");
               ("set_edge_status", JObj [])])].

(** The [finish_step] synthesised when the retries are used up. *)
Definition decode_failed_finish_step : json :=
  JObj [("thought", JStr "Failed to decode LLM response after multiple attempts.");
        ("action", JStr "finish_step");
        ("parameters",
         JObj [("result", JStr "LLM response decoding failed");
               ("status", JStr "failed");
               ("set_edge_status", JObj [])])].

(** The follow-up call the loop writes for a plugin action. *)
Definition sql_parameters (step_name snippet_id : string) : json :=
  JObj [("snippet_id", JStr snippet_id);
        ("result_description",
         JStr ("Result of " +:+ step_name +:+ " step execution"))].

Definition sql_follow_up (step_name snippet_id : string) : json :=
  JObj [("thought",
         JStr ("I will execute the SQL query using the plugin with the provided snippet ID: "
               +:+ snippet_id));
        ("action", JStr "sql_query_tool");
        ("parameters", sql_parameters step_name snippet_id)].

(** [len(v)] is defined. *)
Definition sized (v : json) : bool :=
  match v with
  | JStr _ | JArr _ | JObj _ => true
  | _ => false
  end.

(** What a [finish_step] hands to the end of [execute_step]. *)
Record Finish : Type := {
  step_result : json;
  step_status : json;
  set_edge_status : json
}.

(** The record [_run_executor] stores for the monitor. *)
Definition executor_result_record (node_name executor_agent_id : string)
    (verdict : json) : ExecutorResult :=
  {| er_node_name := node_name;
     er_executor_id := executor_agent_id;
     er_result := verdict |}.

Section Worker.
Context `{JsonCodec} `{Host} `{Collaborators}.

(** [for retry in range(max_retry_number)]: [retries] turns of the loop
    are left, [retry_count] decoding failures were counted.  Leaving the
    loop without [break] leaves [json_data] unbound. *)
Fixpoint ask_llm (retries : nat) (retry_count max_retry_number : Z)
    (ex : Executor) : result (json * string * Executor) :=
  match retries with
  | O => Raise (UnboundLocalError "json_data")
  | S retries' =>
      raw <- call_llm (llm_calls_count ex) (conversation_history ex) ;;
      let ex' := count_llm_call ex in
      let response := strip_fence raw in
      match json_loads response with
      | Some json_data => Ok (json_data, response, ex')
      | None =>
          let retry_count' := (retry_count + 1)%Z in
          if bool_decide (max_retry_number <= retry_count')%Z
          then Ok (decode_failed_finish_step,
                   json_dumps decode_failed_finish_step, ex')
          else ask_llm retries' retry_count' max_retry_number ex'
      end
  end.

(** "Get agent's next action": the parsed response, its text, and the
    worker after the calls. *)
Definition next_action (max_retry_number : Z) (ex : Executor)
    : result (json * string * Executor) :=
  if bool_decide (lower (step_name ex) = "end")
  then Ok (end_finish_step, json_dumps end_finish_step, ex)
  else ask_llm (Z.to_nat max_retry_number) 0 max_retry_number ex.

(** The part of the loop body after the observation of a plugin action
    was recorded: the follow-up call of [sql_query_tool]. *)
Definition plugin_follow_up (ex : Executor) (observation : string) : Executor :=
  let snippet_id := strip (split_last observation stored_id_prefix) in
  let announced :=
    _record_response ex (json_dumps (sql_follow_up (step_name ex) snippet_id)) in
  let answer :=
    _execute_action (tools announced) "sql_query_tool"
      (sql_parameters (step_name ex) snippet_id) (memory announced) in
  _record_observation (with_memory announced answer.2) answer.1.

(** One turn of [while current_inter < max_iterations]; [Some] verdict
    stands for [break]. *)
Definition react_iteration (max_retry_number current_inter : Z) (ex : Executor)
    : result (Executor * option Finish) :=
  next <- next_action max_retry_number (enter_iteration ex current_inter) ;;
  let '(json_data, response, asked) := next in
  thought <- json_get json_data "thought" (JStr "") ;;
  action <- json_get json_data "action" (JStr "") ;;
  parameters <- json_get json_data "parameters" (JObj []) ;;
  let answered := _record_response asked response in
  if json_is_str action "finish_step" then
    result_value <- json_get parameters "result" (JStr "Step completed") ;;
    status_value <- json_get parameters "status" (JStr "completed") ;;
    edges_value <- json_get parameters "set_edge_status" (JObj []) ;;
    if sized edges_value
    then Ok (answered,
             Some {| step_result := result_value; step_status := status_value;
                     set_edge_status := edges_value |})
    else Raise (TypeError "len")
  else
    match action with
    | JStr name =>
        let outcome :=
          _execute_action (tools answered) name parameters (memory answered) in
        let observed :=
          _record_observation (with_memory answered outcome.2) outcome.1 in
        if startswith name "plugin_"
        then Ok (plugin_follow_up observed outcome.1, None)
        else Ok (observed, None)
    | JArr (_ :: _) | JObj (_ :: _) => Raise (TypeError "unhashable")
    | _ => Raise (AttributeError "startswith")
    end.

(** The loop. [fuel] is the number of times the test
    [current_inter < max_iterations] can still succeed. *)
Fixpoint react_loop (fuel : nat) (max_retry_number current_inter : Z)
    (ex : Executor) : result (Executor * option Finish) :=
  match fuel with
  | O => Ok (ex, None)
  | S fuel' =>
      turn <- react_iteration max_retry_number current_inter ex ;;
      match turn with
      | (ex', Some verdict) => Ok (ex', Some verdict)
      | (ex', None) =>
          react_loop fuel' max_retry_number (current_inter + 1)%Z ex'
      end
  end.

(** "If no result was found, generate a default result". *)
Definition default_finish (step_name : string) : Finish :=
  {| step_result :=
       JStr ("Step " +:+ step_name
             +:+ " was executed, but no finish_step action was provided.");
     step_status := JStr "failed";
     set_edge_status := JNull |}.

Definition final_output (step_name : string) (finish : option Finish) : json :=
  let chosen :=
    match finish with
    | Some verdict =>
        match step_result verdict with
        | JNull => default_finish step_name
        | _ => verdict
        end
    | None => default_finish step_name
    end in
  JObj [("result", step_result chosen);
        ("status", step_status chosen);
        ("set_edge_status", set_edge_status chosen)].

(** [execute_step]. [system_prompt] is the text of
    [Prompts.step_executor_system_prompt], [max_iterations] the value of
    [executor.max_iterations] in the configuration (10 when absent); the
    counter [current_inter] starts at 1. *)
Definition execute_step (system_prompt context : string)
    (max_retry_number max_iterations : Z) (ex : Executor)
    : result (json * Executor) :=
  let started := start_step ex system_prompt context in
  looped <- react_loop (Z.to_nat (max_iterations - 1)) max_retry_number 1 started ;;
  Ok (final_output (step_name ex) looped.2, looped.1).
End Worker.

(** ** memory.py: reading by identifier *)

Section MemoryReads.
Context `{Host}.

(** [get_data] *)
Definition get_data (mem : Memory) (data_id : string) : payload :=
  match find (fun doc => bool_decide (d_id doc = data_id)) (data_collection mem) with
  | Some data_doc =>
      if d_is_df data_doc then _get_dataframe mem data_id
      else from_option id py_None (d_data data_doc)
  | None => py_None
  end.
End MemoryReads.

(** ** config_loader.py

    The configuration is the value [json.load] read from [config.json],
    or [{}] when the file is missing. *)

(** [s.split(c)] for a separator [c] of one character. *)
Fixpoint split_on (c : ascii) (s : string) : list string :=
  match s with
  | EmptyString => [EmptyString]
  | String a t =>
      if bool_decide (a = c) then EmptyString :: split_on c t
      else
        match split_on c t with
        | piece :: pieces => String a piece :: pieces
        | [] => [String a EmptyString]
        end
  end.

(** The loop [for part in parts: value = value[part]].  [None] stands for
    the [KeyError] (no such key) or [TypeError] (the value is no dict)
    that [get] catches. *)
Fixpoint config_walk (parts : list string) (value : json) : option json :=
  match parts with
  | [] => Some value
  | part :: rest =>
      match value with
      | JObj items =>
          match dict_get part items with
          | Some inner => config_walk rest inner
          | None => None
          end
      | _ => None
      end
  end.

(** [ConfigLoader.get(key_path, default)] *)
Definition ConfigLoader_get (_config : json) (key_path : string) (default : json)
    : json :=
  if negb (truthy _config) then default
  else from_option id default (config_walk (split_on "." key_path) _config).

(** [ConfigLoader.get_section(section_path)] *)
Definition get_section (_config : json) (section_path : string) : json :=
  ConfigLoader_get _config section_path (JObj []).

(** ** incident_tsg_loader.py: [_get_base_tsg_name] *)

Definition _get_base_tsg_name (filename : string) : string :=
  let name :=
    match split_on "." filename with
    | piece :: _ => piece
    | [] => EmptyString
    end in
  if endswith name "_WITH_REFERENCES"
  then drop_last_str (String.length "_WITH_REFERENCES") name
  else if endswith name "_WITH_PLUGIN_REFERENCES"
  then drop_last_str (String.length "_WITH_PLUGIN_REFERENCES") name
  else name.

(** ** Python slices *)

(** Where a bound [i] of a slice falls in a list of length [n]: a negative
    bound counts from the end, and every bound is clipped to the list. *)
Definition slice_bound (n i : Z) : Z :=
  if (i <? 0)%Z then Z.max (i + n) 0 else Z.min i n.

(** [l[start:stop]] *)
Definition py_slice {A : Type} (start stop : Z) (l : list A) : list A :=
  let n := Z.of_nat (length l) in
  let first := slice_bound n start in
  let last := slice_bound n stop in
  take (Z.to_nat (last - first)) (drop (Z.to_nat first) l).

(** ** memory.py: the agents' contexts

    [agents_collection] holds one document per registered agent.  Of a
    document the operations below read the identifier and the
    [conversation_history]; of an entry of the history they read the
    [value].  [created_at], [data_references] and the entries' [timestamp]
    are written and never read; they are left out.  Identifiers are
    unique in the collection: [insert_one] refuses a document whose [_id]
    is in use (the driver's [DuplicateKeyError]). *)
Record ContextEntry : Type := {
  c_key : string;
  c_value : json;
  c_description : string
}.

Record AgentDoc : Type := {
  a_id : string;
  a_name : string;
  a_conversation_history : list ContextEntry
}.

(** [find_one({"_id": agent_id})] *)
Definition find_agent (agents_collection : list AgentDoc) (agent_id : string)
    : option AgentDoc :=
  find (fun agent => bool_decide (a_id agent = agent_id)) agents_collection.

(** [register_agent]; [draws] counts the identifiers drawn so far. *)
Definition register_agent `{Host} (agent_name : string) (agent_id : option string)
    (draws : nat) (agents_collection : list AgentDoc)
    : result (string * nat * list AgentDoc) :=
  let '(new_id, draws') :=
    match agent_id with
    | Some given => (given, draws)
    | None => (uuid4 draws, S draws)
    end in
  match find_agent agents_collection new_id with
  | Some _ => Raise (ExternalError "DuplicateKeyError")
  | None =>
      Ok (new_id, draws',
          agents_collection
          ++ [{| a_id := new_id; a_name := agent_name;
                 a_conversation_history := [] |}])
  end.

(** [update_one({"_id": agent_id}, {"$push": {"conversation_history":
    entry}})]: the first document with the identifier gets the entry. *)
Fixpoint push_context (agent_id : string) (entry : ContextEntry)
    (agents_collection : list AgentDoc) : list AgentDoc :=
  match agents_collection with
  | [] => []
  | agent :: rest =>
      if bool_decide (a_id agent = agent_id)
      then {| a_id := a_id agent; a_name := a_name agent;
              a_conversation_history := a_conversation_history agent ++ [entry] |}
           :: rest
      else agent :: push_context agent_id entry rest
  end.

Definition add_agent_context (agent_id key : string) (value : json)
    (description : option string) (agents_collection : list AgentDoc)
    : result (list AgentDoc) :=
  match find_agent agents_collection agent_id with
  | None => Raise (ValueError ("Agent ID " +:+ agent_id +:+ " not registered"))
  | Some _ =>
      let context_entry :=
        {| c_key := key; c_value := value;
           c_description := str_or description "" |} in
      Ok (push_context agent_id context_entry agents_collection)
  end.

(** The test of [get_agent_context] for a message: a dict with a [role]
    and a [content]. *)
Definition is_message (value : json) : bool :=
  match value with
  | JObj items => has_param "role" items && has_param "content" items
  | _ => false
  end.

(** [l[-limit:]] *)
Definition last_items {A : Type} (limit : Z) (l : list A) : list A :=
  drop (Z.to_nat (slice_bound (Z.of_nat (length l)) (- limit))) l.

(** [if limit: return l[-limit:]] and [return l] otherwise. *)
Definition limited {A : Type} (limit : option Z) (l : list A) : list A :=
  match limit with
  | Some k => if Z.eqb k 0 then l else last_items k l
  | None => l
  end.

(** What [get_agent_context] returns: the messages, or the entries. *)
Inductive ContextView : Type :=
  | Messages (values : list json)
  | Entries (entries : list ContextEntry).

Definition get_agent_context (agents_collection : list AgentDoc) (agent_id : string)
    (limit : option Z) (message_only : bool) : result ContextView :=
  match find_agent agents_collection agent_id with
  | None => Raise (ValueError ("Agent ID " +:+ agent_id +:+ " not registered"))
  | Some agent =>
      let history := a_conversation_history agent in
      if message_only then
        let messages :=
          map c_value (filter (fun entry => is_message (c_value entry) = true) history) in
        Ok (Messages (limited limit messages))
      else Ok (Entries (limited limit history))
  end.

(** [register_conversation_message]: the message, a dict of [role] and
    [content], is pushed under a key made of the time ([timestamp] is the
    clock's [%Y%m%d_%H%M%S]). *)
Definition message_json (message : Message) : json :=
  JObj [("role", JStr (role message)); ("content", JStr (content message))].

Definition register_conversation_message (timestamp agent_id : string)
    (message : Message) (agents_collection : list AgentDoc)
    : result (list AgentDoc) :=
  if is_empty_str agent_id
  then Raise (ExternalError "Agent ID must be set before registering messages")
  else
    add_agent_context agent_id ("message_" +:+ timestamp) (message_json message)
      (Some ("message at " +:+ timestamp)) agents_collection.

(** ** memory.py: sections of a text and search

    What pandas does to a frame is outside the repository:
    [to_string df] is [df.to_string()], [frame_matches df term] is the
    frame the loop over the columns of [search_data] builds (the rows in
    which some column, read as text, matches [term]; [None] when no column
    could be searched), [drop_duplicates] is the method of that name.
    [df.iloc[a:b]] and [df.head(n)] are slices of the rows. *)
Class Pandas : Type := {
  to_string : DataFrame -> string;
  frame_matches : DataFrame -> string -> option DataFrame;
  drop_duplicates : DataFrame -> DataFrame
}.

(** [df.empty]: no row or no column. *)
Definition frame_empty (df : DataFrame) : bool :=
  match df_rows df, df_columns df with
  | _ :: _, _ :: _ => false
  | _, _ => true
  end.

Definition with_rows (df : DataFrame) (rows : list (list json)) : DataFrame :=
  {| df_columns := df_columns df; df_rows := rows |}.

(** The part of [get_data_section] for text: [data] is the text stored
    under [data_id]. *)
Definition text_section (data data_id : string) (start_line num_lines : Z) : string :=
  let lines := split_on (Ascii.ascii_of_nat 10) data in
  let total_lines := Z.of_nat (length lines) in
  if (total_lines <=? start_line)%Z then
    "Error: Start line " +:+ pretty start_line +:+ " exceeds total lines "
    +:+ pretty total_lines
  else
    let end_line := Z.min (start_line + num_lines) total_lines in
    let section := join newline (py_slice start_line end_line lines) in
    "Lines " +:+ pretty (start_line + 1)%Z +:+ "-" +:+ pretty end_line
    +:+ " of " +:+ pretty total_lines +:+ " from data " +:+ data_id +:+ ":"
    +:+ newline +:+ newline +:+ section.

(** The part for a data frame. *)
Definition frame_section `{Pandas} (df : DataFrame) (data_id : string)
    (start_line num_lines : Z) : string :=
  let total_rows := Z.of_nat (length (df_rows df)) in
  if (total_rows <=? start_line)%Z then
    "Error: Start line " +:+ pretty start_line +:+ " exceeds total rows "
    +:+ pretty total_rows
  else
    let end_line := Z.min (start_line + num_lines) total_rows in
    let section := with_rows df (py_slice start_line end_line (df_rows df)) in
    "Rows " +:+ pretty (start_line + 1)%Z +:+ "-" +:+ pretty end_line
    +:+ " of " +:+ pretty total_rows +:+ " from DataFrame " +:+ data_id +:+ ":"
    +:+ newline +:+ newline +:+ to_string section.

(** [needle in s] *)
Fixpoint contains_str (needle s : string) : bool :=
  startswith s needle
  || match s with
     | EmptyString => false
     | String _ t => contains_str needle t
     end.

(** [[(i, line.strip()) for i, line in enumerate(lines) if search_term in
    line]], the count starting at [i]. *)
Fixpoint matching_lines_from (i : nat) (search_term : string) (lines : list string)
    : list (nat * string) :=
  match lines with
  | [] => []
  | line :: rest =>
      if contains_str search_term line
      then (i, strip line) :: matching_lines_from (S i) search_term rest
      else matching_lines_from (S i) search_term rest
  end.

(** The part of [search_data] for text. *)
Definition text_search (data data_id search_term : string) : string :=
  let lines := split_on (Ascii.ascii_of_nat 10) data in
  let matching_lines := matching_lines_from 0 search_term lines in
  match matching_lines with
  | [] => "No matches found for '" +:+ search_term +:+ "' in data " +:+ data_id
  | _ =>
      let listed :=
        fold_left
          (fun result found =>
             result +:+ "Line " +:+ pretty (S found.1) +:+ ": " +:+ found.2
             +:+ newline)
          (take 10 matching_lines)
          ("Found " +:+ pretty (length matching_lines) +:+ " matches for '"
           +:+ search_term +:+ "' in data " +:+ data_id +:+ ":"
           +:+ newline +:+ newline) in
      if 10 <? length matching_lines
      then listed +:+ newline +:+ "... and "
           +:+ pretty (length matching_lines - 10) +:+ " more matches"
      else listed
  end.

(** The part for a data frame. *)
Definition frame_search `{Pandas} (df : DataFrame) (data_id search_term : string)
    : string :=
  let no_matches :=
    "No matches found for '" +:+ search_term +:+ "' in DataFrame " +:+ data_id in
  match frame_matches df search_term with
  | None => no_matches
  | Some found =>
      if frame_empty found then no_matches
      else
          let result_df := drop_duplicates found in
          let matches := length (df_rows result_df) in
          let listed :=
            "Found " +:+ pretty matches +:+ " matches for '" +:+ search_term
            +:+ "' in DataFrame " +:+ data_id +:+ ":" +:+ newline +:+ newline
            +:+ to_string (with_rows result_df (take (Nat.min 10 matches)
                                                     (df_rows result_df))) in
          if 10 <? matches
          then listed +:+ newline +:+ newline +:+ "... and "
               +:+ pretty (matches - 10) +:+ " more matches"
          else listed
  end.

Section MemoryTexts.
Context `{Host} `{Pandas}.

(** [get_data_section].  The frame is read back inside a [try]; what
    pandas could raise there is not modelled ([to_string] is total). *)
Definition get_data_section (mem : Memory) (data_id : string)
    (start_line num_lines : Z) : string :=
  match find (fun doc => bool_decide (d_id doc = data_id)) (data_collection mem) with
  | None => "Error: Data with ID " +:+ data_id +:+ " not found"
  | Some data_doc =>
      if d_is_df data_doc then
        match _get_dataframe mem data_id with
        | PFrame df => frame_section df data_id start_line num_lines
        | _ => "Error: DataFrame with ID " +:+ data_id +:+ " could not be retrieved"
        end
      else
        match d_data data_doc with
        | Some (PJson (JStr data)) => text_section data data_id start_line num_lines
        | _ => "Error: Data with ID " +:+ data_id +:+ " is not text data"
        end
  end.

(** [search_data] *)
Definition search_data (mem : Memory) (data_id search_term : string) : string :=
  match find (fun doc => bool_decide (d_id doc = data_id)) (data_collection mem) with
  | None => "Error: Data with ID " +:+ data_id +:+ " not found"
  | Some data_doc =>
      if d_is_df data_doc then
        match _get_dataframe mem data_id with
        | PFrame df => frame_search df data_id search_term
        | _ => "Error: DataFrame with ID " +:+ data_id +:+ " could not be retrieved"
        end
      else
        match d_data data_doc with
        | Some (PJson (JStr data)) => text_search data data_id search_term
        | _ => "Error: Data with ID " +:+ data_id +:+ " is not text data"
        end
  end.
End MemoryTexts.

(** ** finish_step_tool.py *)

(** [f"{v}"] for a value that can be hashed. *)
Definition py_str_scalar (v : json) : string :=
  match v with
  | JNull => "None"
  | JBool true => "True"
  | JBool false => "False"
  | JNum z => pretty z
  | JStr s => s
  | JArr _ | JObj _ => ""
  end.

(** The loop over [set_edge_status.items()]: [None] when every status is
    valid, otherwise what the first offending item makes the method do.
    A status that is a list or a dict cannot be looked up in the set. *)
Fixpoint first_invalid_status (items : list (string * json)) : option (result string) :=
  match items with
  | [] => None
  | (edge_name, status) :: rest =>
      match status with
      | JArr _ | JObj _ => Some (Raise (TypeError "unhashable"))
      | _ =>
          if json_is_str status "enabled" || json_is_str status "disabled"
          then first_invalid_status rest
          else Some (Ok ("Error: Invalid status '" +:+ py_str_scalar status
                         +:+ "' for edge '" +:+ edge_name
                         +:+ "'. Must be 'enabled' or 'disabled'"))
      end
  end.

(** [FinishStepTool.execute( **kwargs)]: the call needs exactly the two
    parameters [result] and [set_edge_status]. *)
Definition FinishStepTool_execute (kwargs : list (string * json)) : result string :=
  if forallb (fun k => name_in k ["result"; "set_edge_status"]) (map fst kwargs)
     && has_param "result" kwargs && has_param "set_edge_status" kwargs
  then
    match dict_get_default "result" JNull kwargs with
    | JStr (String c r) =>
        let result_text := String c r in
        match dict_get_default "set_edge_status" JNull kwargs with
        | JObj (item :: items) =>
            let set_edge_status := item :: items in
            match first_invalid_status set_edge_status with
            | Some outcome => outcome
            | None =>
                Ok ("Step completion confirmed. Result: "
                    +:+ take_str 100 result_text
                    +:+ (if 100 <? String.length result_text then "..." else "")
                    +:+ ". Edge updates: " +:+ pretty (length set_edge_status)
                    +:+ " edges.")
            end
        | _ => Ok "Error: 'set_edge_status' parameter must be a dictionary"
        end
    | _ => Ok "Error: 'result' parameter must be a non-empty string"
    end
  else Raise (TypeError "execute() arguments").

(** ** schedule_tool.py: a pass of the monitoring loop *)

(** [_is_execution_complete] *)
Definition _is_execution_complete (all_node_status : list Node)
    (all_edge_status : list Edge) : bool :=
  let end_node := find (fun node => is_end_name (n_node node)) all_node_status in
  let end_finished :=
    match end_node with
    | Some node => bool_decide (n_status node = "finished")
    | None => false
    end in
  if end_finished then true
  else
    let any_pending_edges :=
      existsb (fun edge => json_is_str (e_status edge) "pending") all_edge_status in
    let any_unfinished_nodes :=
      existsb (fun node => name_in (n_status node) ["pending"; "running"])
              all_node_status in
    negb any_pending_edges && negb any_unfinished_nodes.

(** An entry of [self.running_nodes]: the identifier of the executor (the
    key of the dict) and the node it runs.  The time it was started and
    its process belong to the host. *)
Record RunningNode : Type := {
  rn_executor_id : string;
  rn_node_name : string
}.

(** What the monitor finds when it looks at the process of a worker: it
    has exited, it is alive and within its time, or it is alive past
    [executor_timeout] (and is terminated on the spot). *)
Inductive ProcessState : Type :=
  | Exited
  | Alive
  | TimedOut.

(** What the sweep keeps of a row: the row, and whether the row is one of
    the objects in [nodes_to_run].  The list [nodes_to_run] holds the rows
    of [all_node_status] themselves, so what the dispatch writes to an
    element of it is written to the table. *)
Fixpoint sweep_marked (running : nat) (max_executor_number : Z)
    (all_node_status : list Node) (all_edge_status : list Edge) (sw : Sweep)
    : result (list (Node * bool) * list Edge * Sweep) :=
  match all_node_status with
  | [] => Ok ([], all_edge_status, sw)
  | node :: rest =>
      head <- sweep_node running max_executor_number node all_edge_status sw ;;
      let '(node', edges', sw') := head in
      let picked :=
        bool_decide (length (nodes_to_run sw) < length (nodes_to_run sw')) in
      tail <- sweep_marked running max_executor_number rest edges' sw' ;;
      let '(rest', edges'', sw'') := tail in
      Ok ((node', picked) :: rest', edges'', sw'')
  end.

(** [node["status"] = "running"] and [node["executor_id"] = executor_id] *)
Definition set_node_running (n : Node) (executor_id : string) : Node :=
  {| n_node := n_node n; n_description := n_description n;
     n_input_edges := n_input_edges n; n_output_edges := n_output_edges n;
     n_status := "running"; n_result := n_result n;
     n_executor_id := Some executor_id |}.

(** [str(uuid.uuid4())] in the scheduler's process. *)
Definition draw_uuid `{Host} (mem : Memory) : string * Memory :=
  (uuid4 (uuid_draws mem),
   {| data_collection := data_collection mem;
      dataframes_collection := dataframes_collection mem;
      code_snippets_collection := code_snippets_collection mem;
      uuid_draws := S (uuid_draws mem) |}).

Section MonitoringPass.
Context `{JsonCodec} `{Host}.

(** "Process the result and update node status" for what the monitor
    read under the worker's key.  [None] stands for [continue]: there is
    nothing to process yet.  The engine stores a worker's result in one
    place, [_run_executor], as the record [PExecutorResult]; a dict stored
    there by other means is read the same way. *)
Definition reap_result (executor_result : payload) (executor_id : string)
    (all_node_status : list Node) (all_edge_status : list Edge)
    : result (option (list Node * list Edge)) :=
  match executor_result with
  | PExecutorResult r =>
      processed <- process_executor_result r all_node_status all_edge_status ;;
      Ok (Some processed)
  | PJson (JObj (item :: items)) =>
      let record := JObj (item :: items) in
      node_name <- json_index record "node_name" ;;
      verdict <- json_index record "result" ;;
      match node_name with
      | JStr name =>
          processed <-
            process_executor_result
              {| er_node_name := name; er_executor_id := executor_id;
                 er_result := verdict |}
              all_node_status all_edge_status ;;
          Ok (Some processed)
      | _ =>
          (* no row has a name equal to a value that is no string *)
          status <- json_index verdict "status" ;;
          set_edge_status <- json_get verdict "set_edge_status" (JObj []) ;;
          Ok (Some (all_node_status, all_edge_status))
      end
  | PJson v => if truthy v then Raise (TypeError "subscript") else Ok None
  | PEdges table =>
      match table with
      | [] => Ok None
      | _ => Raise (TypeError "list indices")
      end
  | PNodes table =>
      match table with
      | [] => Ok None
      | _ => Raise (TypeError "list indices")
      end
  | PFrame _ => Raise (ExternalError "The truth value of a DataFrame is ambiguous.")
  end.

(** Body of [for executor_id in self.running_nodes], for one entry:
    whether the executor is marked for removal, and the tables. *)
Definition reap_executor (watch : string -> ProcessState) (mem : Memory)
    (entry : RunningNode) (all_node_status : list Node)
    (all_edge_status : list Edge) : result (bool * list Node * list Edge) :=
  let executor_id := rn_executor_id entry in
  let executor_result :=
    match watch executor_id with
    | TimedOut => PExecutorResult (timeout_result (rn_node_name entry) executor_id)
    | Exited | Alive => get_data_by_key mem (executor_id +:+ "_step_result")
    end in
  reaped <- reap_result executor_result executor_id all_node_status all_edge_status ;;
  match reaped with
  | None => Ok (false, all_node_status, all_edge_status)
  | Some (nodes', edges') => Ok (true, nodes', edges')
  end.

(** "Get executor results": the identifiers in [nodes_to_pop], and the
    tables. *)
Fixpoint reap_executors (watch : string -> ProcessState) (mem : Memory)
    (running_nodes : list RunningNode) (all_node_status : list Node)
    (all_edge_status : list Edge) : result (list string * list Node * list Edge) :=
  match running_nodes with
  | [] => Ok ([], all_node_status, all_edge_status)
  | entry :: rest =>
      head <- reap_executor watch mem entry all_node_status all_edge_status ;;
      let '(popped, nodes', edges') := head in
      tail <- reap_executors watch mem rest nodes' edges' ;;
      let '(nodes_to_pop, nodes'', edges'') := tail in
      Ok (if popped then rn_executor_id entry :: nodes_to_pop else nodes_to_pop,
          nodes'', edges'')
  end.

(** "Remove completed executors from tracking" *)
Definition pop_executors (nodes_to_pop : list string)
    (running_nodes : list RunningNode) : list RunningNode :=
  filter (fun entry => name_in (rn_executor_id entry) nodes_to_pop = false)
         running_nodes.

(** [for node in nodes_to_run], over the marked rows: the rows, the
    entries added to [self.running_nodes], and the store after the
    identifiers were drawn.  Building the executor's context and starting
    its process are the host's. *)
Fixpoint dispatch_nodes (is_end_triggered : bool) (rows : list (Node * bool))
    (mem : Memory) : list Node * list RunningNode * Memory :=
  match rows with
  | [] => ([], [], mem)
  | (node, picked) :: rest =>
      if picked && negb (is_end_triggered && negb (is_end_name (n_node node)))
      then
        let drawn := draw_uuid mem in
        let node' := set_node_running node drawn.1 in
        let '(rest', started, mem') := dispatch_nodes is_end_triggered rest drawn.2 in
        (node' :: rest',
         {| rn_executor_id := drawn.1; rn_node_name := n_node node |} :: started,
         mem')
      else
        let '(rest', started, mem') := dispatch_nodes is_end_triggered rest mem in
        (node :: rest', started, mem')
  end.

(** [self.running_nodes[executor_id] = {...}]: the entry of a key the
    dict has is replaced where it stands, a new key is added at the end. *)
Fixpoint track_executor (entry : RunningNode) (running_nodes : list RunningNode)
    : list RunningNode :=
  match running_nodes with
  | [] => [entry]
  | tracked :: rest =>
      if String.eqb (rn_executor_id tracked) (rn_executor_id entry)
      then entry :: rest
      else tracked :: track_executor entry rest
  end.

(** [self.running_nodes] once the executors in [started] have been added
    to it, in the order they were started. *)
Definition track_executors (running_nodes : list RunningNode)
    (started : list RunningNode) : list RunningNode :=
  fold_left (fun tracked entry => track_executor entry tracked) started
            running_nodes.

(** What a pass leaves: the tables (also written to the store), the
    running executors, the store, and whether the loop ends. *)
Record PassOutcome : Type := {
  po_nodes : list Node;
  po_edges : list Edge;
  po_running : list RunningNode;
  po_memory : Memory;
  po_complete : bool
}.

(** One turn of [while self.running] in [_monitoring_loop].
    [all_edge_status] and [all_node_status] are the tables the pass has
    read under their keys, [mem] the store as the pass finds it, [watch]
    what the host reports of each worker's process. *)
Definition monitoring_pass (watch : string -> ProcessState)
    (max_executor_number : Z) (running_nodes : list RunningNode)
    (all_node_status : list Node) (all_edge_status : list Edge) (mem : Memory)
    : result PassOutcome :=
  reaped <- reap_executors watch mem running_nodes all_node_status all_edge_status ;;
  let '(nodes_to_pop, reaped_nodes, reaped_edges) := reaped in
  let still_running := pop_executors nodes_to_pop running_nodes in
  swept <- sweep_marked (length still_running) max_executor_number
             reaped_nodes reaped_edges
             {| nodes_to_run := []; is_end_triggered := false |} ;;
  let '(rows, swept_edges, sw) := swept in
  let '(dispatched_nodes, started, mem1) :=
    dispatch_nodes (is_end_triggered sw) rows mem in
  let mem2 :=
    (update_data_by_key "Node_Status" (PNodes dispatched_nodes)
       (Some "node_status") (Some "Updated node status after monitoring loop")
       mem1).2 in
  let mem3 :=
    (update_data_by_key "Edge_Status" (PEdges swept_edges)
       (Some "edge_status") (Some "Updated edge status after monitoring loop")
       mem2).2 in
  Ok {| po_nodes := dispatched_nodes;
        po_edges := swept_edges;
        po_running := track_executors still_running started;
        po_memory := mem3;
        po_complete := _is_execution_complete dispatched_nodes swept_edges |}.
End MonitoringPass.

(** ** base_agent.py: file names *)

(** [s.replace(old, new)] for two characters. *)
Fixpoint replace_char (old new : ascii) (s : string) : string :=
  match s with
  | EmptyString => EmptyString
  | String c t =>
      String (if Ascii.eqb c old then new else c) (replace_char old new t)
  end.

(** The characters of [invalid_chars], in the order of the text: the
    fourth is the double quote, the sixth the backslash. *)
Definition invalid_chars : list ascii :=
  ["<"; ">"; ":"; "034"; "/"; "092"; "|"; "?"; "*"]%char.

(** [_sanitize_filename] *)
Definition _sanitize_filename (filename : string) : string :=
  fold_left (fun name char => replace_char char "_" name) invalid_chars
            filename.

(** * Vocabulary of the statements

    The predicates and closed forms the theorems are written with. *)

(** Some row of [edge_status] is an input edge of [node] with status [s]. *)
Definition some_input_edge_is (node : Node) (edge_status : list Edge)
    (s : string) : Prop :=
  exists edge, edge ∈ edge_status
    /\ e_edge edge ∈ map ei_edge (n_input_edges node)
    /\ e_status edge = JStr s.

(** The eligibility rule of the data model (invariant 8). *)
Definition eligible (node : Node) (edge_status : list Edge) : Prop :=
  ~ some_input_edge_is node edge_status "pending"
  /\ some_input_edge_is node edge_status "enabled".

(** What a successful update leaves in a row: the status the map gives to
    the row's edge, or the row as it was when the map does not name it. *)
Definition updated_row (items : list (string * json)) (edge : Edge) : Edge :=
  match dict_get (e_edge edge) items with
  | Some new_status => set_edge_status_of edge new_status
  | None => edge
  end.

(** Every row of [edge_status] that is an output edge of [node] is
    disabled. *)
Definition outputs_disabled (node : Node) (edge_status : list Edge) : Prop :=
  forall edge, edge ∈ edge_status ->
    e_edge edge ∈ map ei_edge (n_output_edges node) ->
    e_status edge = JStr "disabled".

(** What a failed verdict leaves in a row of [Node_Status]. *)
Definition failed_row (node_name result_text : string) (node : Node) : Node :=
  if bool_decide (n_node node = node_name)
  then set_node_result (set_node_status node "failed") result_text
  else node.

(** How one step of the sweep relates a node before and after, given the
    table the step leaves. *)
Definition swept (edges' : list Edge) (node node' : Node) : Prop :=
  n_node node' = n_node node
  /\ n_output_edges node' = n_output_edges node
  /\ (n_status node' = n_status node \/ n_status node' = "skipped")
  /\ (n_status node = "pending" -> n_status node' = "skipped" ->
      outputs_disabled node edges').

(** The edge items a plan refers to, in the order the loader meets them. *)
Definition referenced_items (plan_dag_nodes : list PlanNode) : list EdgeInfo :=
  concat (map (fun node => pn_output_edges node ++ pn_input_edges node)
              plan_dag_nodes).

(** [name] is the name of an edge some node of the plan refers to. *)
Definition referenced (plan_dag_nodes : list PlanNode) (name : string) : Prop :=
  name ∈ map ei_edge (referenced_items plan_dag_nodes).

(** The state of the collector after the items [seen]. *)
Record collected (seen : list EdgeInfo) (acc : EdgeCollector) : Prop := {
  col_set : all_edges acc = map e_edge (edge_status acc);
  col_nodup : NoDup (all_edges acc);
  col_names : forall name,
    name ∈ all_edges acc <-> name <> "" /\ name ∈ map ei_edge seen;
  col_pending : Forall (fun edge => e_status edge = JStr "pending") (edge_status acc)
}.

(** What enabling the output edges [outputs] leaves in a row. *)
Definition enabled_row (outputs : list EdgeInfo) (edge : Edge) : Edge :=
  if name_in (e_edge edge) (map ei_edge outputs)
  then set_edge_status_of edge (JStr "enabled")
  else edge.

(** The start row of [Node_Status]: the first row named [start]. *)
Definition is_start_row (node : Node) : bool :=
  bool_decide (lower (n_node node) = "start").

(** The worker [ex] after LLM calls that brought its count to [n]. *)
Definition with_llm_calls (ex : Executor) (n : nat) : Executor :=
  {| step_name := step_name ex; agent_id := agent_id ex; tools := tools ex;
     memory := memory ex; conversation_history := conversation_history ex;
     audit_log := audit_log ex; llm_calls_count := n;
     current_iteration := current_iteration ex |}.

(** The verdict of the end node. *)
Definition end_verdict : json :=
  JObj [("result", JStr "The full TSG execution completed");
        ("status", JStr "completed");
        ("set_edge_status", JObj [])].

(** The verdict after the retries were used up. *)
Definition decode_failed_verdict : json :=
  JObj [("result", JStr "LLM response decoding failed");
        ("status", JStr "failed");
        ("set_edge_status", JObj [])].

(** The verdict when the loop ends without a [finish_step]. *)
Definition no_finish_verdict (step_name : string) : json :=
  JObj [("result",
         JStr ("Step " +:+ step_name
               +:+ " was executed, but no finish_step action was provided."));
        ("status", JStr "failed");
        ("set_edge_status", JNull)].

(** The parameter lists of the plugin classes of the repository:
    [plugin_1] to [plugin_7] and [plugin_9], and [plugin_8]. *)
Definition service_window_params : list string :=
  ["start_time"; "end_time"; "region"; "environment"; "service_name"].

Definition window_params : list string :=
  ["start_time"; "end_time"; "region"; "environment"].

Definition repository_params (plugin : Plugin) : Prop :=
  required_params plugin = service_window_params
  \/ required_params plugin = window_params.

(** The text a plugin answers when [param] is missing. *)
Definition missing_parameter_message (plugin : Plugin) (param : string) : string :=
  "Missing required parameter: " +:+ param
  +:+ ". You should provide all the params: "
  +:+ repr_names (required_params plugin).

(** The text [sql_query_tool] answers for an id it does not find. *)
Definition snippet_not_found_message (snippet_id : string) : string :=
  "Error: SQL snippet with ID '" +:+ snippet_id +:+ "' not found in memory.".

(** Identifiers are the texts of [uuid.uuid4()]: 36 characters. *)
Definition snippet_ids_are_uuids (mem : Memory) : Prop :=
  Forall (fun doc => String.length (s_id doc) = 36) (code_snippets_collection mem).

Section WorkerVocabulary.
Context `{JsonCodec} `{Collaborators}.

(** The responses of a whole round of retries do not parse: [turns]
    calls in a row, on the history of [ex], from its call count on. *)
Definition responses_do_not_parse (turns : nat) (ex : Executor) : Prop :=
  forall k, k < turns ->
    exists raw,
      call_llm (llm_calls_count ex + k) (conversation_history ex) = Ok raw
      /\ json_loads (strip_fence raw) = None.

End WorkerVocabulary.

(** * Inputs of the closed examples *)

Definition edge_info (name : string) : EdgeInfo :=
  {| ei_edge := name; ei_condition := Some "none" |}.

Definition edge_row (name status : string) : Edge :=
  {| e_edge := name; e_status := JStr status; e_condition := "none" |}.

Definition plain_node (name : string) (inputs outputs : list string)
    (status : string) : Node :=
  {| n_node := name; n_description := "";
     n_input_edges := map edge_info inputs;
     n_output_edges := map edge_info outputs;
     n_status := status; n_result := None; n_executor_id := None |}.

(** The end node of a diamond: one branch has decided, the other has not. *)
Definition end_of_diamond : Node := plain_node "end" ["eA_E"; "eB_E"] [] "pending".

Definition diamond_half_decided : list Edge :=
  [edge_row "eS_A" "enabled"; edge_row "eS_B" "enabled";
   edge_row "eA_E" "enabled"; edge_row "eB_E" "pending"].

Definition chain_table : list Edge :=
  [edge_row "eS_A" "enabled"; edge_row "eA_B" "pending"; edge_row "eB_E" "pending"].

(** A codec that serialises nothing, for closed examples. *)
Definition silent_codec : JsonCodec :=
  {| json_loads := fun _ => None; json_dumps := fun _ => "" |}.

Definition chain_nodes (status_A status_B : string) : list Node :=
  [plain_node "start" [] ["eS_A"] "finished";
   plain_node "A" ["eS_A"] ["eA_B"] status_A;
   plain_node "B" ["eA_B"] ["eB_E"] status_B;
   plain_node "end" ["eB_E"] [] "pending"].

(** Worker A fails while asking for its output edge to be enabled. *)
Definition failed_verdict_of_A : ExecutorResult :=
  {| er_node_name := "A";
     er_executor_id := "executor-1";
     er_result := JObj [("result", JStr "could not query");
                        ("status", JStr "failed");
                        ("set_edge_status", JObj [("eA_B", JStr "enabled")])] |}.

Definition no_sweep : Sweep := {| nodes_to_run := []; is_end_triggered := false |}.

(** A host that numbers its identifiers and reads no frame back. *)
Definition counting_host : Host :=
  {| uuid4 := fun n => "uuid-" +:+ pretty n;
     find_pandas_all := fun _ _ => None;
     runtime_text := fun _ => "runtime error" |}.

Definition empty_memory : Memory :=
  {| data_collection := []; dataframes_collection := [];
     code_snippets_collection := []; uuid_draws := 0 |}.

Definition plan_node (name : string) (inputs outputs : list string) : PlanNode :=
  {| pn_node := name; pn_description := None;
     pn_input_edges := map edge_info inputs;
     pn_output_edges := map edge_info outputs;
     pn_status := None |}.

(** The plan [start -> A -> B -> end]. *)
Definition chain_plan : list PlanNode :=
  [plan_node "start" [] ["eS_A"];
   plan_node "A" ["eS_A"] ["eA_B"];
   plan_node "B" ["eA_B"] ["eB_E"];
   plan_node "end" ["eB_E"] []].

(** The same plan with the start node left out. *)
Definition headless_plan : list PlanNode :=
  [plan_node "A" [] ["eA_B"];
   plan_node "B" ["eA_B"] ["eB_E"];
   plan_node "end" ["eB_E"] []].

(** A plan whose start node lists an edge without a name. *)
Definition unnamed_edge_plan : list PlanNode :=
  [plan_node "start" [] ["eS_E"; ""];
   plan_node "end" ["eS_E"] []].

(** The store after the chain plan was loaded. *)
Definition loaded_memory : Memory :=
  (@_load_plandag counting_host "chain_plan_dag.json" chain_plan empty_memory).2.

(** An LLM that answers from a script, and an SQL engine that echoes. *)
Definition scripted (script : list string) : Collaborators :=
  {| call_llm := fun n _ =>
       match script !! n with
       | Some response => Ok response
       | None => Raise (ExternalError "no response left")
       end;
     run_sql_query := fun sql_query _ _ mem => ("rows of: " +:+ sql_query, mem);
     sql_untyped_call := fun _ mem => ("untyped call", mem) |}.

(** A codec that knows the texts of [table] and no other. *)
Definition table_codec (table : list (string * json)) : JsonCodec :=
  {| json_loads := fun text => dict_get text table;
     json_dumps := fun _ => "<json>" |}.

Definition worker (name : string) (registry : list (string * Tool)) : Executor :=
  {| step_name := name; agent_id := "executor-1"; tools := registry;
     memory := empty_memory; conversation_history := []; audit_log := [];
     llm_calls_count := 0; current_iteration := None |}.

Definition log_reasoning_tool : Tool :=
  ExternalTool (fun _ mem => (Ok "Reasoning logged", mem)).

Definition plugin_1 : Plugin :=
  {| plugin_id := "plugin_1";
     plugin_description := "service version regression analysis";
     source_tsg := "Distributed_System_Low_Availability";
     language := "sql";
     required_params := service_window_params;
     template_format := fun _ => Ok "SELECT service_version FROM api_gateway_logs" |}.

Definition registry : list (string * Tool) :=
  [("log_reasoning_tool", log_reasoning_tool);
   ("sql_query_tool", SQLQueryTool);
   ("plugin_1_tool", PluginTool plugin_1)].

Definition thinking : json :=
  JObj [("thought", JStr "thinking");
        ("action", JStr "log_reasoning_tool");
        ("parameters", JObj [("reasoning", JStr "still thinking")])].

Definition full_window : list (string * json) :=
  [("start_time", JStr "2024-01-01T00:00:00Z");
   ("end_time", JStr "2024-01-01T01:00:00Z");
   ("region", JStr "eu"); ("environment", JStr "prod");
   ("service_name", JStr "gateway")].

Definition call_plugin (kwargs : list (string * json)) : json :=
  JObj [("thought", JStr "run the query");
        ("action", JStr "plugin_1_tool");
        ("parameters", JObj kwargs)].

(** The responses the examples' LLM can give. *)
Definition phrase_book : JsonCodec :=
  table_codec [("think", thinking);
               ("query", call_plugin full_window);
               ("short query", call_plugin (take 4 full_window))].

(** Worker A at the start of its step. *)
Definition worker_A : Executor := start_step (worker "A" registry) "system" "context".

(** * Vocabulary of the further properties *)

(** How the sweep may change a row of [Edge_Status]: not at all, or to
    [disabled] when the row is an output edge of one of the nodes [owners]
    that is skipped. *)
Definition disabled_by (owners : list Node) (edge edge' : Edge) : Prop :=
  edge' = edge
  \/ (edge' = set_edge_status_of edge (JStr "disabled")
      /\ exists node, node ∈ owners /\ n_status node = "skipped"
           /\ e_edge edge ∈ map ei_edge (n_output_edges node)).

(** What a completed verdict leaves in a row of [Node_Status]. *)
Definition finished_row (node_name result_text : string) (node : Node) : Node :=
  if bool_decide (n_node node = node_name)
  then set_node_result (set_node_status node "finished") result_text
  else node.

(** Every character of [s] satisfies [p]. *)
Fixpoint all_chars (p : ascii -> bool) (s : string) : bool :=
  match s with
  | EmptyString => true
  | String c t => p c && all_chars p t
  end.

(** The characters of [str(uuid.uuid4())]: lower-case hexadecimal digits
    and the dash. *)
Definition uuid_char (c : ascii) : bool :=
  let n := Ascii.nat_of_ascii c in
  ((48 <=? n) && (n <=? 57)) || ((97 <=? n) && (n <=? 102)) || (n =? 45).

(** [s] reads like the text of a UUID: 36 such characters. *)
Definition uuid_text (s : string) : Prop :=
  String.length s = 36 /\ all_chars uuid_char s = true.

(** [s] holds neither the letter [T] nor the letter [Z]: a date
    [2024-01-31] or a time [10:30:00] of an ISO timestamp. *)
Definition plain_stamp (s : string) : Prop :=
  contains_char "T"%char s = false /\ contains_char "Z"%char s = false.

(** The ISO form [dateTtimeZ] and the form the templates are filled
    with. *)
Definition iso_timestamp (date time : string) : string :=
  date +:+ "T" +:+ time +:+ "Z".

Definition sql_timestamp (date time : string) : string :=
  date +:+ " " +:+ time.

(** The verdict [execute_step] makes of the parameters of a
    [finish_step]: what they give for [result], [status] and
    [set_edge_status], with the defaults ["Step completed"], ["completed"]
    and [{}]; a [result] that is [null] counts as no [finish_step]. *)
Definition finish_verdict (step_name : string) (parameters : list (string * json))
    : json :=
  match dict_get_default "result" (JStr "Step completed") parameters with
  | JNull => no_finish_verdict step_name
  | result_value =>
      JObj [("result", result_value);
            ("status", dict_get_default "status" (JStr "completed") parameters);
            ("set_edge_status",
             dict_get_default "set_edge_status" (JObj []) parameters)]
  end.

(** [data_id] names a record of the store that holds the text [data]. *)
Definition holds_text (mem : Memory) (data_id data : string) : Prop :=
  exists data_doc,
    find (fun doc => bool_decide (d_id doc = data_id)) (data_collection mem)
    = Some data_doc
    /\ d_is_df data_doc = false
    /\ d_data data_doc = Some (PJson (JStr data)).

(** The lines of a text, as [split('\n')] gives them. *)
Definition lines_of (data : string) : list string :=
  split_on (Ascii.ascii_of_nat 10) data.

(** The parameters of a [finish_step] as the tool's description asks for
    them: a non-empty text as [result], and as [set_edge_status] a dict
    that is not empty and gives every edge [enabled] or [disabled]. *)
Definition well_formed_finish (result_text : string) (items : list (string * json))
    : Prop :=
  result_text <> ""
  /\ items <> []
  /\ Forall (fun item => item.2 = JStr "enabled" \/ item.2 = JStr "disabled") items.

(** The test of the dispatch for a marked row: the row was picked, and it
    is the end node or the end node was not triggered. *)
Definition is_started (is_end_triggered : bool) (row : Node * bool) : bool :=
  row.2 && negb (is_end_triggered && negb (is_end_name (n_node row.1))).

(** [entry] is a worker the table shows: some row of [table] carries the
    node of the entry, is [running], and has the entry's executor. *)
Definition shown_running (table : list Node) (entry : RunningNode) : Prop :=
  exists row, row ∈ table
    /\ n_node row = rn_node_name entry
    /\ n_status row = "running"
    /\ n_executor_id row = Some (rn_executor_id entry).

(** [executor_id] is a key of [self.running_nodes]. *)
Definition is_tracked (executor_id : string) (running_nodes : list RunningNode)
    : Prop :=
  executor_id ∈ map rn_executor_id running_nodes.

(** * Inputs of the further examples *)

(** The chain's table when the start node has disabled its edge. *)
Definition cut_chain_table : list Edge :=
  [edge_row "eS_A" "disabled"; edge_row "eA_B" "pending"; edge_row "eB_E" "pending"].

(** Worker A completes and enables its output edge. *)
Definition completed_verdict_of_A : ExecutorResult :=
  {| er_node_name := "A";
     er_executor_id := "executor-1";
     er_result := JObj [("result", JStr "queried");
                        ("status", JStr "completed");
                        ("set_edge_status", JObj [("eA_B", JStr "enabled")])] |}.

(** A host whose identifiers read like UUIDs: the number of the draw,
    in twelve digits, after a fixed head. *)
Definition padded_host : Host :=
  {| uuid4 := fun n =>
       let digits := pretty n in
       "00000000-0000-4000-8000-"
       +:+ take_str (12 - String.length digits) "000000000000" +:+ digits;
     find_pandas_all := fun _ _ => None;
     runtime_text := fun _ => "runtime error" |}.

(** The parameters of a [finish_step] that enables the edge to B. *)
Definition finish_parameters : list (string * json) :=
  [("result", JStr "version 2.3 regressed");
   ("status", JStr "completed");
   ("set_edge_status", JObj [("eA_B", JStr "enabled")])].

(** A codec that knows a thought and a [finish_step]. *)
Definition finish_book : JsonCodec :=
  table_codec [("think", thinking);
               ("finish",
                JObj [("thought", JStr "all done");
                      ("action", JStr "finish_step");
                      ("parameters", JObj finish_parameters)])].

(** A configuration with one section. *)
Definition example_config : json :=
  JObj [("executor", JObj [("max_iterations", JNum 10)])].

(** The agents' collection once the executor of node A has registered. *)
Definition registered_agents : list AgentDoc :=
  [{| a_id := "executor-1"; a_name := "executor_A";
      a_conversation_history := [] |}].

(** A text of three lines, and the store that holds it under the first
    identifier of the session. *)
Definition three_lines : string :=
  "alpha" +:+ newline +:+ "beta" +:+ newline +:+ "alphabet".

Definition text_memory : Memory :=
  (@add_data counting_host (PJson (JStr three_lines)) "text" None None None
     empty_memory).2.

(** A pandas that prints nothing and searches no frame. *)
Definition plain_pandas : Pandas :=
  {| to_string := fun _ => "";
     frame_matches := fun _ _ => None;
     drop_duplicates := fun df => df |}.

(** The entry of [self.running_nodes] for the executor of node A. *)
Definition worker_of_A : RunningNode :=
  {| rn_executor_id := "executor-1"; rn_node_name := "A" |}.

(** The store once that executor has left its record. *)
Definition reported_memory : Memory :=
  (@add_data counting_host (PExecutorResult completed_verdict_of_A)
     "executor_result" (Some "executor-1")
     (Some [("key", JStr "executor-1_step_result")])
     (Some "Store execution result for node A") loaded_memory).2.

(** * Verification *)

(** ** Helper facts *)

Lemma json_is_str_true (v : json) (s : string) :
  json_is_str v s = true <-> v = JStr s.
Proof.
  destruct v; simpl; try (split; [discriminate | congruence]).
  rewrite bool_decide_eq_true. split; congruence.
Qed.

Lemma name_in_true (x : string) (names : list string) :
  name_in x names = true <-> x ∈ names.
Proof. unfold name_in. apply bool_decide_eq_true. Qed.

Lemma name_in_false (x : string) (names : list string) :
  name_in x names = false <-> x ∉ names.
Proof. unfold name_in. apply bool_decide_eq_false. Qed.

(** ** The trigger check *)

Lemma trigger_step_enabled names flags edge :
  any_enabled (trigger_step names flags edge)
  = any_enabled flags
    || (name_in (e_edge edge) names && json_is_str (e_status edge) "enabled").
Proof.
  unfold trigger_step. destruct (name_in _ _); simpl; [| by rewrite orb_false_r].
  destruct (json_is_str _ "enabled"); simpl;
    [by rewrite orb_true_r | by rewrite orb_false_r].
Qed.

Lemma trigger_step_pending names flags edge :
  any_pending (trigger_step names flags edge)
  = any_pending flags
    || (name_in (e_edge edge) names && json_is_str (e_status edge) "pending").
Proof.
  unfold trigger_step. destruct (name_in _ _); simpl; [| by rewrite orb_false_r].
  destruct (json_is_str _ "pending"); simpl;
    [by rewrite orb_true_r | by rewrite orb_false_r].
Qed.

(** A flag of the loop that a step raises exactly for the named rows of
    status [watched] ends up raised exactly when it was raised before or
    such a row is in the table. *)
Section TriggerFlag.
Variables (flag : TriggerFlags -> bool) (watched : string) (names : list string).
Hypothesis flag_step : forall flags edge,
  flag (trigger_step names flags edge)
  = flag flags
    || (name_in (e_edge edge) names && json_is_str (e_status edge) watched).

Lemma trigger_fold_flag edge_status flags :
  flag (fold_left (trigger_step names) edge_status flags) = true <->
  flag flags = true
  \/ exists edge, edge ∈ edge_status /\ e_edge edge ∈ names
       /\ e_status edge = JStr watched.
Proof.
  revert flags. induction edge_status as [|edge rest IH]; intros flags; simpl.
  - split; [auto | intros [? | (? & Hin & _)]; [done | inversion Hin]].
  - rewrite IH, flag_step, orb_true_iff, andb_true_iff, name_in_true,
      json_is_str_true.
    split.
    + intros [[? | [? ?]] | (e & Hin & ? & ?)]; [auto | |].
      * right. exists edge. split; [left | done].
      * right. exists e. split; [by right | done].
    + intros [? | (e & Hin & Hen & Hst)]; [auto |].
      apply elem_of_cons in Hin as [-> | Hin]; [left; right; done |].
      right. exists e. done.
Qed.
End TriggerFlag.

Lemma trigger_flags_enabled (node : Node) (edge_status : list Edge) :
  any_enabled (fold_left (trigger_step (map ei_edge (n_input_edges node)))
                 edge_status {| any_enabled := false; any_pending := false |}) = true
  <-> some_input_edge_is node edge_status "enabled".
Proof.
  rewrite (trigger_fold_flag any_enabled "enabled" _ (trigger_step_enabled _)).
  unfold some_input_edge_is. simpl.
  split; [intros [? | ?]; [done | auto] | auto].
Qed.

Lemma trigger_flags_pending (node : Node) (edge_status : list Edge) :
  any_pending (fold_left (trigger_step (map ei_edge (n_input_edges node)))
                 edge_status {| any_enabled := false; any_pending := false |}) = true
  <-> some_input_edge_is node edge_status "pending".
Proof.
  rewrite (trigger_fold_flag any_pending "pending" _ (trigger_step_pending _)).
  unfold some_input_edge_is. simpl.
  split; [intros [? | ?]; [done | auto] | auto].
Qed.

(** C1, as the code has it.  For a node that declares at least one input
    edge, [_should_trigger_node] returns normally; when the node is not
    the end node its first component is true exactly when the node is
    eligible (no input edge pending, at least one enabled); for the end
    node (name [end] in any letter case) it is true exactly when at least
    one input edge is enabled, pending inputs notwithstanding.  The second
    component tells that the end node was triggered. *)
Theorem should_trigger_node_spec (node : Node) (edge_status : list Edge) :
  n_input_edges node <> [] ->
  exists is_triggering : bool,
    _should_trigger_node node edge_status
      = Ok (is_triggering, is_end_name (n_node node) && is_triggering)
    /\ (is_triggering = true <->
        if is_end_name (n_node node)
        then some_input_edge_is node edge_status "enabled"
        else eligible node edge_status).
Proof.
  intros Hin. unfold _should_trigger_node, eligible.
  destruct (n_input_edges node) as [|i rest] eqn:Hi; [done |].
  rewrite <- Hi.
  pose proof (trigger_flags_enabled node edge_status) as He.
  pose proof (trigger_flags_pending node edge_status) as Hp.
  destruct (fold_left _ edge_status _) as [en pe]; simpl in *.
  destruct (is_end_name (n_node node)); simpl.
  - destruct en; simpl.
    + exists true. split; [done |]. split; [intros _; by apply He | done].
    + destruct pe; simpl; exists false; (split; [done |]);
        rewrite <- He; done.
  - destruct pe, en; simpl.
    + exists false. split; [done |]. split; [done |].
      intros [Hnp _]. exfalso. apply Hnp. by apply Hp.
    + exists false. split; [done |]. split; [done |].
      intros [_ Hen]. apply He in Hen. done.
    + exists true. split; [done |]. split; [| done].
      intros _. split; [| by apply He].
      intros Hpe. apply Hp in Hpe. done.
    + exists false. split; [done |]. split; [done |].
      intros [_ Hen]. apply He in Hen. done.
Qed.

(** A node without declared input edges makes the check raise. *)
Lemma should_trigger_node_no_inputs (node : Node) (edge_status : list Edge) :
  n_input_edges node = [] ->
  _should_trigger_node node edge_status
  = Raise (ValueError ("Node " +:+ n_node node +:+
      " has no input edges defined, cannot check for triggering status.")).
Proof. intros Hi. unfold _should_trigger_node. by rewrite Hi. Qed.

Lemma should_trigger_node_spec_witness :
  exists is_triggering : bool,
    _should_trigger_node end_of_diamond diamond_half_decided
      = Ok (is_triggering, is_end_name (n_node end_of_diamond) && is_triggering)
    /\ (is_triggering = true <->
        if is_end_name (n_node end_of_diamond)
        then some_input_edge_is end_of_diamond diamond_half_decided "enabled"
        else eligible end_of_diamond diamond_half_decided).
Proof.
  apply (should_trigger_node_spec end_of_diamond diamond_half_decided).
  simpl. discriminate.
Defined.

(** C1 as stated fails at the end node: the check answers true although
    an input edge of the node is still pending, so the node is not
    eligible. *)
Lemma end_node_triggers_while_pending :
  _should_trigger_node end_of_diamond diamond_half_decided = Ok (true, true)
  /\ ~ eligible end_of_diamond diamond_half_decided.
Proof.
  split; [reflexivity |].
  intros [Hnp _]. apply Hnp.
  exists (edge_row "eB_E" "pending").
  split; [| split; [| reflexivity]].
  - apply list_elem_of_In. simpl. tauto.
  - apply list_elem_of_In. simpl. tauto.
Qed.

(** ** UpdateOutputEdges *)

Lemma map_fixes {A : Type} (f : A -> A) (l : list A) :
  (forall x, x ∈ l -> f x = x) -> map f l = l.
Proof.
  induction l as [|a l IH]; simpl; intros Hf; [done |].
  rewrite Hf by left. f_equal. apply IH. intros x Hx. apply Hf. by right.
Qed.

Lemma update_first_edge_None edge_name new_status all_edge_status :
  update_first_edge edge_name new_status all_edge_status = None
  <-> edge_name ∉ map e_edge all_edge_status.
Proof.
  induction all_edge_status as [|edge rest IH]; simpl.
  - split; [intros _ Hin; inversion Hin | done].
  - case_bool_decide as Heq.
    + split; [done |]. intros Hn. exfalso. apply Hn. subst. left.
    + destruct (update_first_edge edge_name new_status rest); simpl.
      * split; [done |]. intros Hn. exfalso.
        assert (edge_name ∉ map e_edge rest) as Hr by (intros ?; apply Hn; by right).
        apply IH in Hr. done.
      * split; [| done]. intros _ Hin.
        apply elem_of_cons in Hin as [-> | Hin]; [done |].
        destruct IH as [IH _]. by apply IH.
Qed.

Lemma update_first_edge_names edge_name new_status all_edge_status updated :
  update_first_edge edge_name new_status all_edge_status = Some updated ->
  map e_edge updated = map e_edge all_edge_status.
Proof.
  revert updated. induction all_edge_status as [|edge rest IH]; intros updated; simpl.
  - discriminate.
  - case_bool_decide.
    + intros [= <-]. done.
    + destruct (update_first_edge edge_name new_status rest) as [r|]; simpl;
        [| discriminate].
      intros [= <-]. simpl. f_equal. by apply IH.
Qed.

Lemma update_first_edge_unique edge_name new_status all_edge_status :
  NoDup (map e_edge all_edge_status) ->
  edge_name ∈ map e_edge all_edge_status ->
  update_first_edge edge_name new_status all_edge_status
  = Some (map (updated_row [(edge_name, new_status)]) all_edge_status).
Proof.
  induction all_edge_status as [|edge rest IH]; simpl; intros Hnd Hin.
  - inversion Hin.
  - apply NoDup_cons in Hnd as [Hfresh Hnd].
    unfold updated_row at 1. simpl.
    case_bool_decide as Heq.
    + rewrite bool_decide_eq_true_2 by done. f_equal. f_equal.
      symmetry. apply map_fixes. intros e He. unfold updated_row. simpl.
      rewrite bool_decide_eq_false_2; [done |].
      intros ->. apply Hfresh. rewrite Heq.
      apply list_elem_of_fmap. by exists e.
    + rewrite bool_decide_eq_false_2 by congruence.
      apply elem_of_cons in Hin as [-> | Hin]; [done |].
      rewrite IH by done. done.
Qed.

Lemma updated_row_edge items edge : e_edge (updated_row items edge) = e_edge edge.
Proof. unfold updated_row. by destruct (dict_get _ _). Qed.

Lemma updated_row_names items all_edge_status :
  map e_edge (map (updated_row items) all_edge_status) = map e_edge all_edge_status.
Proof.
  rewrite map_map. apply map_ext. intros edge. apply updated_row_edge.
Qed.

Lemma dict_get_fresh {A : Type} (k : string) (items : list (string * A)) :
  k ∉ map fst items -> dict_get k items = None.
Proof.
  induction items as [|[k' v] rest IH]; simpl; intros Hk; [done |].
  rewrite bool_decide_eq_false_2.
  - apply IH. intros ?. apply Hk. by right.
  - intros ->. apply Hk. left.
Qed.

Lemma update_edges_items_present all_edge_status items :
  NoDup (map e_edge all_edge_status) ->
  NoDup (map fst items) ->
  Forall (fun edge_name => edge_name ∈ map e_edge all_edge_status) (map fst items) ->
  update_edges_items all_edge_status items
  = Ok (map (updated_row items) all_edge_status).
Proof.
  revert all_edge_status.
  induction items as [|[edge_name new_status] rest IH];
    intros all_edge_status Hnd Hkeys Hall; simpl.
  - f_equal. symmetry. by apply map_fixes.
  - simpl in Hkeys, Hall.
    apply NoDup_cons in Hkeys as [Hfresh Hkeys].
    apply Forall_cons in Hall as [Hin Hall].
    rewrite update_first_edge_unique by done.
    rewrite IH.
    + f_equal. rewrite map_map. apply map_ext. intros edge.
      unfold updated_row at 2 3. simpl.
      case_bool_decide as Heq.
      * unfold updated_row. simpl.
        rewrite dict_get_fresh; [done |]. simpl. by rewrite <- Heq.
      * unfold updated_row. done.
    + by rewrite updated_row_names.
    + done.
    + by rewrite updated_row_names.
Qed.

Lemma update_edges_items_missing all_edge_status items :
  ~ Forall (fun edge_name => edge_name ∈ map e_edge all_edge_status) (map fst items) ->
  exists edge_name,
    edge_name ∈ map fst items
    /\ (edge_name ∉ map e_edge all_edge_status)
    /\ update_edges_items all_edge_status items
       = Raise (ValueError ("Edge '" +:+ edge_name +:+ "' not found in Edge_Status")).
Proof.
  revert all_edge_status.
  induction items as [|[edge_name new_status] rest IH];
    intros all_edge_status Hall; simpl.
  - exfalso. apply Hall. constructor.
  - destruct (update_first_edge edge_name new_status all_edge_status)
      as [updated|] eqn:Hup.
    + pose proof (update_first_edge_names _ _ _ _ Hup) as Hnames.
      destruct (IH updated) as (k & Hk & Hmiss & Hraise).
      * rewrite Hnames. intros Hrest. apply Hall. simpl.
        apply Forall_cons. split; [| done].
        destruct (decide (edge_name ∈ map e_edge all_edge_status)) as [|Hn]; [done |].
        apply update_first_edge_None with (new_status := new_status) in Hn.
        congruence.
      * exists k. split; [by right |]. split; [by rewrite <- Hnames | done].
    + apply update_first_edge_None in Hup.
      exists edge_name. split; [left | done].
Qed.

(** C7.  [Edge_Status] holds each edge once and [set_edge_status] is a
    dict.  When every edge the dict names is a row of [Edge_Status], the
    update returns the table in which each named row carries the status
    the dict gives it and every other row is as it was; when some named
    edge is not a row of the table, the update raises [ValueError] for
    such an edge. *)
Theorem update_output_edges_spec (all_edge_status : list Edge)
    (items : list (string * json)) :
  NoDup (map e_edge all_edge_status) ->
  NoDup (map fst items) ->
  (Forall (fun edge_name => edge_name ∈ map e_edge all_edge_status) (map fst items) ->
   _update_output_edges all_edge_status (JObj items)
   = Ok (map (updated_row items) all_edge_status))
  /\ (~ Forall (fun edge_name => edge_name ∈ map e_edge all_edge_status)
          (map fst items) ->
      exists edge_name,
        edge_name ∈ map fst items
        /\ (edge_name ∉ map e_edge all_edge_status)
        /\ _update_output_edges all_edge_status (JObj items)
           = Raise (ValueError
                      ("Edge '" +:+ edge_name +:+ "' not found in Edge_Status"))).
Proof.
  intros Hnd Hkeys. split.
  - intros Hall. simpl. by apply update_edges_items_present.
  - intros Hmiss. simpl. by apply update_edges_items_missing.
Qed.

(** The rows of [updated_row], spelled out. *)
Lemma updated_row_status items edge :
  e_status (updated_row items edge)
  = from_option id (e_status edge) (dict_get (e_edge edge) items)
  /\ e_condition (updated_row items edge) = e_condition edge.
Proof. unfold updated_row. by destruct (dict_get _ _). Qed.

Lemma update_output_edges_spec_witness :
  _update_output_edges chain_table (JObj [("eA_B", JStr "enabled")])
  = Ok [edge_row "eS_A" "enabled"; edge_row "eA_B" "enabled";
        edge_row "eB_E" "pending"]
  /\ exists edge_name,
       edge_name ∈ ["eA_B"; "eX_Y"]
       /\ (edge_name ∉ map e_edge chain_table)
       /\ _update_output_edges chain_table
            (JObj [("eA_B", JStr "enabled"); ("eX_Y", JStr "enabled")])
          = Raise (ValueError
                     ("Edge '" +:+ edge_name +:+ "' not found in Edge_Status")).
Proof.
  split.
  - apply (update_output_edges_spec chain_table [("eA_B", JStr "enabled")]).
    + apply (bool_decide_unpack _). vm_compute. exact I.
    + apply (bool_decide_unpack _). vm_compute. exact I.
    + apply (bool_decide_unpack _). vm_compute. exact I.
  - apply (update_output_edges_spec chain_table
             [("eA_B", JStr "enabled"); ("eX_Y", JStr "enabled")]).
    + apply (bool_decide_unpack _). vm_compute. exact I.
    + apply (bool_decide_unpack _). vm_compute. exact I.
    + apply (bool_decide_unpack _). vm_compute. exact I.
Defined.

(** ** Failed and skipped nodes *)

Lemma set_all_disabled_names node edge_status :
  map e_edge (_set_all_output_edges_disabled node edge_status)
  = map e_edge edge_status.
Proof.
  unfold _set_all_output_edges_disabled. rewrite map_map. apply map_ext.
  intros edge. by destruct (name_in _ _).
Qed.

Lemma set_all_disabled_own node node' edge_status :
  n_output_edges node' = n_output_edges node ->
  outputs_disabled node (_set_all_output_edges_disabled node' edge_status).
Proof.
  intros Hout edge Hin Hname.
  unfold _set_all_output_edges_disabled in Hin.
  apply list_elem_of_fmap in Hin as (edge0 & -> & _).
  rewrite Hout in *.
  destruct (name_in (e_edge edge0) _) eqn:Hn; [done |].
  apply name_in_false in Hn. done.
Qed.

Lemma set_all_disabled_keeps node node' edge_status :
  outputs_disabled node edge_status ->
  outputs_disabled node (_set_all_output_edges_disabled node' edge_status).
Proof.
  intros Hdis edge Hin Hname.
  unfold _set_all_output_edges_disabled in Hin.
  apply list_elem_of_fmap in Hin as (edge0 & -> & Hin0).
  destruct (name_in (e_edge edge0) _); [done |].
  by apply Hdis.
Qed.

Lemma apply_failed_result node_name result_text set_edge_status
    all_node_status all_edge_status :
  exists edges',
    apply_result_to_nodes node_name "failed" result_text set_edge_status
      all_node_status all_edge_status
    = Ok (map (failed_row node_name result_text) all_node_status, edges')
    /\ map e_edge edges' = map e_edge all_edge_status
    /\ (forall other, outputs_disabled other all_edge_status ->
                      outputs_disabled other edges')
    /\ (forall node, node ∈ all_node_status -> n_node node = node_name ->
                     outputs_disabled node edges').
Proof.
  revert all_edge_status.
  induction all_node_status as [|node rest IH]; intros all_edge_status; simpl.
  - exists all_edge_status. repeat split; [done |].
    intros node Hin. inversion Hin.
  - unfold apply_result_to_node, failed_row at 1.
    case_bool_decide as Hname; simpl.
    + destruct (IH (_set_all_output_edges_disabled
                      (set_node_result (set_node_status node "failed") result_text)
                      all_edge_status))
        as (edges' & -> & Hnames & Hkeep & Hown).
      simpl. exists edges'. split; [done |].
      split; [by rewrite Hnames, set_all_disabled_names |].
      split.
      * intros other Hother. apply Hkeep. by apply set_all_disabled_keeps.
      * intros node0 Hin Hn0.
        apply elem_of_cons in Hin as [-> | Hin]; [| by apply Hown].
        apply Hkeep. by apply set_all_disabled_own.
    + destruct (IH all_edge_status) as (edges' & -> & Hnames & Hkeep & Hown).
      simpl. exists edges'. split; [done |]. split; [done |]. split; [done |].
      intros node0 Hin Hn0.
      apply elem_of_cons in Hin as [-> | Hin]; [done | by apply Hown].
Qed.

Lemma should_trigger_node_returns node edge_status :
  n_input_edges node <> [] ->
  exists flags, _should_trigger_node node edge_status = Ok flags.
Proof.
  intros Hin. unfold _should_trigger_node.
  destruct (n_input_edges node); [done |].
  destruct (_ && _); [by eexists |].
  destruct (_ && _); by eexists.
Qed.

Lemma are_all_input_edges_disabled_returns node edge_status :
  n_input_edges node <> [] ->
  exists b, _are_all_input_edges_disabled node edge_status = Ok b.
Proof.
  intros Hin. unfold _are_all_input_edges_disabled.
  destruct (n_input_edges node); [done | by eexists].
Qed.

Lemma sweep_node_spec running cap node all_edge_status sw :
  (n_status node = "pending" -> n_input_edges node <> []) ->
  exists node' edges' sw',
    sweep_node running cap node all_edge_status sw = Ok (node', edges', sw')
    /\ map e_edge edges' = map e_edge all_edge_status
    /\ (forall other, outputs_disabled other all_edge_status ->
                      outputs_disabled other edges')
    /\ swept edges' node node'.
Proof.
  intros Hinputs. unfold sweep_node.
  case_bool_decide as Hpending; simpl.
  - destruct (should_trigger_node_returns node all_edge_status (Hinputs Hpending))
      as ([is_triggering is_end_node] & ->). simpl.
    destruct (is_triggering && _).
    + eexists _, _, _. split; [done |]. repeat split; auto. congruence.
    + destruct (are_all_input_edges_disabled_returns node all_edge_status
                  (Hinputs Hpending)) as (all_disabled & ->). simpl.
      destruct all_disabled.
      * eexists _, _, _. split; [done |].
        split; [apply set_all_disabled_names |].
        split; [intros other; apply set_all_disabled_keeps |].
        repeat split; auto. intros _ _. by apply set_all_disabled_own.
      * eexists _, _, _. split; [done |]. repeat split; auto. congruence.
  - eexists _, _, _. split; [done |]. repeat split; auto. congruence.
Qed.

Lemma sweep_nodes_spec running cap all_node_status all_edge_status sw :
  (forall node, node ∈ all_node_status ->
     n_status node = "pending" -> n_input_edges node <> []) ->
  exists nodes' edges' sw',
    sweep_nodes running cap all_node_status all_edge_status sw
    = Ok (nodes', edges', sw')
    /\ map e_edge edges' = map e_edge all_edge_status
    /\ (forall other, outputs_disabled other all_edge_status ->
                      outputs_disabled other edges')
    /\ Forall2 (swept edges') all_node_status nodes'.
Proof.
  revert all_edge_status sw.
  induction all_node_status as [|node rest IH]; intros all_edge_status sw Hin; simpl.
  - eexists _, _, _. split; [done |]. split; [done |]. split; [done |]. constructor.
  - destruct (sweep_node_spec running cap node all_edge_status sw)
      as (node' & edges1 & sw1 & -> & Hnames1 & Hkeep1 & Hswept).
    { apply Hin. left. }
    simpl.
    destruct (IH edges1 sw1) as (rest' & edges2 & sw2 & -> & Hnames2 & Hkeep2 & Hrest).
    { intros n Hn. apply Hin. by right. }
    simpl. eexists _, _, _. split; [done |].
    split; [congruence |]. split; [auto |].
    constructor; [| done].
    destruct Hswept as (? & ? & ? & Hdis). repeat split; auto.
Qed.

(** C2.  (a) A verdict whose status is anything but [completed] makes the
    monitor mark the node failed and leaves every output edge of that node
    disabled in [Edge_Status], whatever the verdict's [set_edge_status]
    holds.  (b) The sweep over the pending nodes returns (given that every
    pending node declares an input edge), and every node it marks skipped
    has all its output edges disabled in the table the sweep leaves. *)
Theorem failed_and_skipped_disable_outputs `{JsonCodec} :
  (forall (executor_result : ExecutorResult) (all_node_status : list Node)
          (all_edge_status : list Edge) (status : json),
      json_index (er_result executor_result) "status" = Ok status ->
      json_is_str status "completed" = false ->
      exists edges',
        process_executor_result executor_result all_node_status all_edge_status
        = Ok (map (failed_row (er_node_name executor_result)
                     (json_dumps (er_result executor_result)))
                  all_node_status,
              edges')
        /\ map e_edge edges' = map e_edge all_edge_status
        /\ forall node, node ∈ all_node_status ->
             n_node node = er_node_name executor_result ->
             outputs_disabled node edges')
  /\ (forall (running : nat) (max_executor_number : Z)
             (all_node_status : list Node) (all_edge_status : list Edge)
             (sw : Sweep),
         (forall node, node ∈ all_node_status ->
            n_status node = "pending" -> n_input_edges node <> []) ->
         exists nodes' edges' sw',
           sweep_nodes running max_executor_number all_node_status
             all_edge_status sw
           = Ok (nodes', edges', sw')
           /\ map e_edge edges' = map e_edge all_edge_status
           /\ Forall2 (swept edges') all_node_status nodes').
Proof.
  split.
  - intros executor_result all_node_status all_edge_status status Hstatus Hfailed.
    unfold process_executor_result. rewrite Hstatus. simpl. rewrite Hfailed.
    destruct (er_result executor_result) as [| | | | |items]; try discriminate.
    simpl.
    destruct (apply_failed_result (er_node_name executor_result)
                (json_dumps (JObj items))
                (dict_get_default "set_edge_status" (JObj []) items)
                all_node_status all_edge_status)
      as (edges' & Hrun & Hnames & _ & Hown).
    exists edges'. done.
  - intros running cap all_node_status all_edge_status sw Hinputs.
    destruct (sweep_nodes_spec running cap all_node_status all_edge_status sw Hinputs)
      as (nodes' & edges' & sw' & Hrun & Hnames & _ & Hswept).
    exists nodes', edges', sw'. done.
Qed.

Lemma failed_and_skipped_disable_outputs_witness :
  (exists edges',
     @process_executor_result silent_codec failed_verdict_of_A
       (chain_nodes "running" "pending") chain_table
     = Ok (map (failed_row "A" "") (chain_nodes "running" "pending"), edges')
     /\ map e_edge edges' = map e_edge chain_table
     /\ forall node, node ∈ chain_nodes "running" "pending" ->
          n_node node = "A" -> outputs_disabled node edges')
  /\ (exists nodes' edges' sw',
        sweep_nodes 0 3 (chain_nodes "failed" "pending")
          [edge_row "eS_A" "enabled"; edge_row "eA_B" "disabled";
           edge_row "eB_E" "pending"] no_sweep
        = Ok (nodes', edges', sw')
        /\ map e_edge edges' = ["eS_A"; "eA_B"; "eB_E"]
        /\ Forall2 (swept edges') (chain_nodes "failed" "pending") nodes').
Proof.
  split.
  - apply (proj1 (@failed_and_skipped_disable_outputs silent_codec)
             failed_verdict_of_A (chain_nodes "running" "pending") chain_table
             (JStr "failed")); reflexivity.
  - apply (proj2 (@failed_and_skipped_disable_outputs silent_codec)
             0 3%Z (chain_nodes "failed" "pending")
             [edge_row "eS_A" "enabled"; edge_row "eA_B" "disabled";
              edge_row "eB_E" "pending"] no_sweep).
    intros node Hin Hpending.
    apply list_elem_of_In in Hin. simpl in Hin.
    destruct Hin as [<- | [<- | [<- | [<- | []]]]]; simpl in *; discriminate.
Defined.

(** The two runs of the example, computed: worker A's edge ends disabled
    although the verdict asked for [enabled]; then the sweep skips B and
    disables B's edge, and in the same pass skips [end]. *)
Example failed_verdict_run :
  @process_executor_result silent_codec failed_verdict_of_A
    (chain_nodes "running" "pending") chain_table
  = Ok (map (failed_row "A" "") (chain_nodes "running" "pending"),
        [edge_row "eS_A" "enabled"; edge_row "eA_B" "disabled";
         edge_row "eB_E" "pending"]).
Proof. reflexivity. Qed.

Example skip_sweep_run :
  sweep_nodes 0 3 (chain_nodes "failed" "pending")
    [edge_row "eS_A" "enabled"; edge_row "eA_B" "disabled";
     edge_row "eB_E" "pending"] no_sweep
  = Ok ([plain_node "start" [] ["eS_A"] "finished";
         plain_node "A" ["eS_A"] ["eA_B"] "failed";
         plain_node "B" ["eA_B"] ["eB_E"] "skipped";
         plain_node "end" ["eB_E"] [] "skipped"],
        [edge_row "eS_A" "enabled"; edge_row "eA_B" "disabled";
         edge_row "eB_E" "disabled"],
        no_sweep).
Proof. reflexivity. Qed.

(** ** Memory: update by key, then get by key *)

Lemma find_app_first {A : Type} (f : A -> bool) (l1 l2 : list A) :
  find f (l1 ++ l2)
  = match find f l1 with
    | Some x => Some x
    | None => find f l2
    end.
Proof.
  induction l1 as [|a l1 IH]; simpl; [done |]. by destruct (f a).
Qed.

Lemma find_filtered_out {A : Type} (f : A -> bool) (l : list A) :
  find f (filter (fun x => f x = false) l) = None.
Proof.
  induction l as [|a l IH]; [done |].
  rewrite filter_cons. case_decide as Hfa; [| done].
  simpl. by rewrite Hfa.
Qed.



Lemma has_key_fresh_doc key data_id data data_type agent_id description is_df :
  has_key key
    {| d_id := data_id; d_data := data; d_data_type := data_type;
       d_agent_id := agent_id; d_description := description;
       d_metadata := [("key", JStr key)]; d_is_df := is_df |} = true.
Proof. unfold has_key. simpl. by apply bool_decide_eq_true. Qed.

Section MemoryLaws.
Context `{Host}.

(** The store after [add_data] of a payload that is no data frame. *)
Lemma add_data_inline data data_type agent_id metadata description mem :
  is_dataframe data = false ->
  add_data data data_type agent_id metadata description mem
  = (uuid4 (uuid_draws mem),
     {| data_collection :=
          data_collection mem
          ++ [{| d_id := uuid4 (uuid_draws mem); d_data := Some data;
                 d_data_type := data_type; d_agent_id := agent_id;
                 d_description := str_or description "";
                 d_metadata := from_option id [] metadata;
                 d_is_df := false |}];
        dataframes_collection := dataframes_collection mem;
        code_snippets_collection := code_snippets_collection mem;
        uuid_draws := S (uuid_draws mem) |}).
Proof. by destruct data. Qed.


(** A data frame written under a key comes back as pymongoarrow reads
    it: the answer is [find_pandas_all]'s, not the stored value. *)
Lemma update_by_key_then_get_frame (key : string) (df : DataFrame)
    (data_type description : option string) (mem : Memory) :
  let mem' := (update_data_by_key key (PFrame df) data_type description mem).2 in
  get_data_by_key mem' key
  = _get_dataframe mem' (uuid4 (uuid_draws mem)).
Proof.
  cbv zeta. unfold update_data_by_key, get_data_by_key.
  destruct (find (has_key key) (data_collection mem)) as [existing|] eqn:Hfind;
    simpl.
  - rewrite find_app_first, find_filtered_out. simpl.
    by rewrite has_key_fresh_doc.
  - rewrite find_app_first, Hfind. simpl. by rewrite has_key_fresh_doc.
Qed.
End MemoryLaws.

(** ** Loading a PlanDAG *)

Lemma is_empty_str_true s : is_empty_str s = true <-> s = "".
Proof. destruct s; simpl; split; congruence. Qed.

Lemma is_empty_str_false s : is_empty_str s = false <-> s <> "".
Proof. destruct s; simpl; split; congruence. Qed.

Lemma collect_edge_collected seen acc edge_info :
  collected seen acc -> collected (seen ++ [edge_info]) (collect_edge acc edge_info).
Proof.
  intros [Hset Hnd Hnames Hpend]. unfold collect_edge.
  destruct (is_empty_str (ei_edge edge_info)) eqn:Hempty; simpl.
  - apply is_empty_str_true in Hempty.
    split; try done. intros name. rewrite Hnames, map_app, elem_of_app. simpl.
    rewrite list_elem_of_singleton. split; [tauto |].
    intros [Hne [? | ->]]; [done | congruence].
  - apply is_empty_str_false in Hempty.
    destruct (name_in (ei_edge edge_info) (all_edges acc)) eqn:Hin; simpl.
    + apply name_in_true in Hin.
      split; try done. intros name. rewrite map_app, elem_of_app. simpl.
      rewrite list_elem_of_singleton, Hnames. split; [tauto |].
      intros [Hne [? | ->]]; [done |]. by apply Hnames.
    + apply name_in_false in Hin. split; simpl.
      * rewrite map_app. simpl. by rewrite Hset.
      * apply NoDup_app. split; [done |]. split; [| apply NoDup_singleton].
        intros x Hx Hx'. apply list_elem_of_singleton in Hx'. by subst.
      * intros name. rewrite !map_app, !elem_of_app. simpl.
        rewrite !list_elem_of_singleton, Hnames. split.
        -- intros [[? ?] | ->]; auto.
        -- intros [Hne [? | ->]]; auto.
      * apply Forall_app. split; [done |]. by constructor.
Qed.

Lemma collect_items_collected seen acc items :
  collected seen acc -> collected (seen ++ items) (fold_left collect_edge items acc).
Proof.
  revert seen acc. induction items as [|item items IH]; intros seen acc Hacc; simpl.
  - by rewrite app_nil_r.
  - replace (seen ++ item :: items) with ((seen ++ [item]) ++ items)
      by (by rewrite <- app_assoc).
    apply IH. by apply collect_edge_collected.
Qed.

Lemma collect_nodes_collected seen acc plan_dag_nodes :
  collected seen acc ->
  collected (seen ++ referenced_items plan_dag_nodes)
            (fold_left collect_node plan_dag_nodes acc).
Proof.
  revert seen acc.
  induction plan_dag_nodes as [|node rest IH]; intros seen acc Hacc; simpl.
  - unfold referenced_items. simpl. by rewrite app_nil_r.
  - unfold referenced_items. simpl. rewrite !app_assoc.
    apply IH. unfold collect_node.
    by do 2 apply collect_items_collected.
Qed.

Lemma collect_edges_collected plan_dag_nodes :
  collected (referenced_items plan_dag_nodes) (collect_edges plan_dag_nodes).
Proof.
  apply (collect_nodes_collected [] _ plan_dag_nodes).
  split; simpl.
  - done.
  - apply NoDup_nil_2.
  - intros name. split; [intros Hin; inversion Hin | intros [_ Hin]; inversion Hin].
  - constructor.
Qed.

Lemma enabled_row_names outputs table :
  map e_edge (map (enabled_row outputs) table) = map e_edge table.
Proof.
  rewrite map_map. apply map_ext. intros edge. unfold enabled_row.
  by destruct (name_in _ _).
Qed.

Lemma enable_edge_row table edge_info :
  NoDup (map e_edge table) ->
  "" ∉ map e_edge table ->
  enable_edge table edge_info = map (enabled_row [edge_info]) table.
Proof.
  intros Hnd Hnonempty. unfold enable_edge.
  assert (forall X : list Edge,
             ei_edge edge_info ∉ map e_edge X ->
             X = map (enabled_row [edge_info]) X) as Hfix.
  { intros X Hmiss. symmetry. apply map_fixes. intros edge Hedge.
    unfold enabled_row. simpl.
    destruct (name_in _ _) eqn:Hn; [| done].
    apply name_in_true, list_elem_of_singleton in Hn.
    exfalso. apply Hmiss. rewrite <- Hn. apply list_elem_of_fmap. by exists edge. }
  destruct (is_empty_str (ei_edge edge_info)) eqn:Hempty.
  - apply is_empty_str_true in Hempty. apply Hfix. by rewrite Hempty.
  - destruct (decide (ei_edge edge_info ∈ map e_edge table)) as [Hin | Hmiss].
    + rewrite update_first_edge_unique by done. simpl.
      apply map_ext. intros edge. unfold updated_row, enabled_row. simpl.
      case_bool_decide as Heq.
      * rewrite (proj2 (name_in_true _ _)); [done |].
        apply list_elem_of_singleton. done.
      * rewrite (proj2 (name_in_false _ _)); [done |].
        rewrite list_elem_of_singleton. congruence.
    + rewrite (proj2 (update_first_edge_None _ _ _) Hmiss). simpl. by apply Hfix.
Qed.

Lemma enable_edges_rows outputs table :
  NoDup (map e_edge table) ->
  "" ∉ map e_edge table ->
  fold_left enable_edge outputs table = map (enabled_row outputs) table.
Proof.
  revert table. induction outputs as [|edge_info rest IH]; intros table Hnd Hne; simpl.
  - symmetry. apply map_fixes. intros edge _. done.
  - rewrite enable_edge_row by done.
    rewrite IH by (by rewrite enabled_row_names).
    rewrite map_map. apply map_ext. intros edge.
    unfold enabled_row at 2 3. simpl.
    destruct (name_in (e_edge edge) [ei_edge edge_info]) eqn:Hhead.
    + apply name_in_true, list_elem_of_singleton in Hhead.
      rewrite (proj2 (name_in_true (e_edge edge) (ei_edge edge_info :: _)))
        by (rewrite Hhead; left).
      unfold enabled_row. simpl. by destruct (name_in _ _).
    + apply name_in_false in Hhead. rewrite list_elem_of_singleton in Hhead.
      unfold enabled_row.
      destruct (name_in (e_edge edge) (map ei_edge rest)) eqn:Hrest.
      * apply name_in_true in Hrest.
        rewrite (proj2 (name_in_true (e_edge edge) (ei_edge edge_info :: _)));
          [done | by right].
      * apply name_in_false in Hrest.
        rewrite (proj2 (name_in_false (e_edge edge) (ei_edge edge_info :: _)));
          [done |].
        intros Hin. apply elem_of_cons in Hin as [? | ?]; done.
Qed.

Lemma collected_no_empty_name seen acc :
  collected seen acc -> "" ∉ map e_edge (edge_status acc).
Proof.
  intros [Hset _ Hnames _]. rewrite <- Hset. intros Hin.
  apply Hnames in Hin as [Hne _]. done.
Qed.

Lemma build_tables_start plan_dag_nodes start_node :
  find is_start plan_dag_nodes = Some start_node ->
  build_tables plan_dag_nodes
  = Ok (map (enabled_row (pn_output_edges start_node))
            (edge_status (collect_edges plan_dag_nodes)),
        map node_row (finish_start plan_dag_nodes)).
Proof.
  intros Hstart. unfold build_tables. rewrite Hstart.
  pose proof (collect_edges_collected plan_dag_nodes) as Hcol.
  rewrite enable_edges_rows; [done | |].
  - rewrite <- (col_set _ _ Hcol). apply (col_nodup _ _ Hcol).
  - by apply (collected_no_empty_name _ _ Hcol).
Qed.

Lemma build_tables_no_start plan_dag_nodes :
  find is_start plan_dag_nodes = None ->
  build_tables plan_dag_nodes
  = Raise (ValueError
      "No start node found in the PlanDAG. Please ensure a start node is defined.").
Proof. intros Hstart. unfold build_tables. by rewrite Hstart. Qed.

Lemma finish_start_row plan_dag_nodes start_node :
  find is_start plan_dag_nodes = Some start_node ->
  exists row,
    find is_start_row (map node_row (finish_start plan_dag_nodes)) = Some row
    /\ n_node row = pn_node start_node
    /\ n_output_edges row = pn_output_edges start_node
    /\ n_status row = "finished".
Proof.
  induction plan_dag_nodes as [|node rest IH]; simpl; [discriminate |].
  destruct (is_start node) eqn:Hnode.
  - intros [= <-]. simpl. unfold is_start_row. simpl.
    unfold is_start in Hnode. rewrite Hnode. by eexists.
  - intros Hrest. simpl. unfold is_start_row at 1. simpl.
    unfold is_start in Hnode. rewrite Hnode. by apply IH.
Qed.

Section LoaderLaws.
Context `{Host}.

(** C8, as the code has it.  Take a plan that has a start node (the
    first node named [start], in any letter case) and a store that holds
    no record under [Edge_Status] or [Node_Status] yet.  After
    [_load_plandag] the record under [Edge_Status] is a table that names
    each edge once; its names are exactly the non-empty edge names some
    node refers to in [input_edges] or [output_edges]; a row is [enabled]
    when it is an output edge of the start node and [pending] otherwise;
    and the start row of [Node_Status] is [finished]. *)
Theorem load_plandag_tables (plan_file : string) (plan_dag_nodes : list PlanNode)
    (mem : Memory) (start_node : PlanNode) :
  find is_start plan_dag_nodes = Some start_node ->
  find (has_key "Edge_Status") (data_collection mem) = None ->
  find (has_key "Node_Status") (data_collection mem) = None ->
  let mem' := (_load_plandag plan_file plan_dag_nodes mem).2 in
  exists (edge_table : list Edge) (node_table : list Node) (start_row : Node),
    get_data_by_key mem' "Edge_Status" = PEdges edge_table
    /\ get_data_by_key mem' "Node_Status" = PNodes node_table
    /\ NoDup (map e_edge edge_table)
    /\ (forall name, name ∈ map e_edge edge_table
                     <-> name <> "" /\ referenced plan_dag_nodes name)
    /\ (forall edge, edge ∈ edge_table ->
          e_status edge
          = if name_in (e_edge edge) (map ei_edge (pn_output_edges start_node))
            then JStr "enabled" else JStr "pending")
    /\ find is_start_row node_table = Some start_row
    /\ n_node start_row = pn_node start_node
    /\ n_status start_row = "finished".
Proof.
  intros Hstart Hno_edges Hno_nodes. cbv zeta.
  unfold _load_plandag. rewrite (build_tables_start _ _ Hstart).
  pose proof (collect_edges_collected plan_dag_nodes) as Hcol.
  destruct (finish_start_row _ _ Hstart) as (row & Hrow & Hname & _ & Hfin).
  eexists _, _, row. simpl.
  split; [| split; [| split; [| split; [| split; [| split; [| split]]]]]].
  - unfold get_data_by_key. simpl.
    rewrite <- app_assoc, find_app_first, Hno_edges. simpl. done.
  - unfold get_data_by_key. simpl.
    rewrite <- app_assoc, find_app_first, Hno_nodes. simpl. done.
  - rewrite enabled_row_names, <- (col_set _ _ Hcol). apply (col_nodup _ _ Hcol).
  - intros name. rewrite enabled_row_names, <- (col_set _ _ Hcol).
    apply (col_names _ _ Hcol).
  - intros edge Hin. apply list_elem_of_fmap in Hin as (edge0 & -> & Hin0).
    unfold enabled_row.
    destruct (name_in (e_edge edge0) _) eqn:Hn; simpl; rewrite Hn; [done |].
    pose proof (col_pending _ _ Hcol) as Hpend.
    rewrite Forall_forall in Hpend. by apply Hpend.
  - done.
  - done.
  - done.
Qed.

(** Without a start node the loader stores nothing and answers with the
    error text. *)
Lemma load_plandag_no_start (plan_file : string) (plan_dag_nodes : list PlanNode)
    (mem : Memory) :
  find is_start plan_dag_nodes = None ->
  _load_plandag plan_file plan_dag_nodes mem
  = ("Error loading PlanDAG: No start node found in the PlanDAG. Please ensure a start node is defined.",
     mem).
Proof.
  intros Hstart. unfold _load_plandag.
  by rewrite (build_tables_no_start _ Hstart).
Qed.
End LoaderLaws.

Lemma load_plandag_tables_witness :
  exists (edge_table : list Edge) (node_table : list Node) (start_row : Node),
    @get_data_by_key counting_host
      (@_load_plandag counting_host "chain_plan_dag.json" chain_plan empty_memory).2
      "Edge_Status" = PEdges edge_table
    /\ @get_data_by_key counting_host
         (@_load_plandag counting_host "chain_plan_dag.json" chain_plan empty_memory).2
         "Node_Status" = PNodes node_table
    /\ NoDup (map e_edge edge_table)
    /\ (forall name, name ∈ map e_edge edge_table
                     <-> name <> "" /\ referenced chain_plan name)
    /\ (forall edge, edge ∈ edge_table ->
          e_status edge
          = if name_in (e_edge edge)
                 (map ei_edge (pn_output_edges (plan_node "start" [] ["eS_A"])))
            then JStr "enabled" else JStr "pending")
    /\ find is_start_row node_table = Some start_row
    /\ n_node start_row = pn_node (plan_node "start" [] ["eS_A"])
    /\ n_status start_row = "finished".
Proof.
  apply (@load_plandag_tables counting_host "chain_plan_dag.json" chain_plan
           empty_memory (plan_node "start" [] ["eS_A"])); reflexivity.
Defined.

Example load_chain_plan :
  @get_data_by_key counting_host
    (@_load_plandag counting_host "chain_plan_dag.json" chain_plan empty_memory).2
    "Edge_Status"
  = PEdges chain_table.
Proof. vm_compute. reflexivity. Qed.

(** C8 as stated fails twice.  A plan without a start node refers to
    edges, yet loading it stores no [Edge_Status] at all; and an edge a
    node refers to without a name is in the union of the referenced edges
    but is no row of the table. *)
Lemma load_plandag_claim_fails :
  (referenced headless_plan "eA_B"
   /\ @get_data_by_key counting_host
        (@_load_plandag counting_host "headless_plan_dag.json" headless_plan
           empty_memory).2 "Edge_Status" = py_None)
  /\ (referenced unnamed_edge_plan ""
      /\ @get_data_by_key counting_host
           (@_load_plandag counting_host "unnamed_plan_dag.json" unnamed_edge_plan
              empty_memory).2 "Edge_Status"
         = PEdges [edge_row "eS_E" "enabled"]).
Proof.
  split; split.
  - apply list_elem_of_In. simpl. tauto.
  - vm_compute. reflexivity.
  - apply list_elem_of_In. simpl. tauto.
  - vm_compute. reflexivity.
Qed.


(** ** The worker *)

Lemma with_llm_calls_same ex : with_llm_calls ex (llm_calls_count ex) = ex.
Proof. by destruct ex. Qed.

Lemma with_llm_calls_counted ex n :
  with_llm_calls (count_llm_call ex) n = with_llm_calls ex n.
Proof. done. Qed.

Section WorkerLaws.
Context `{JsonCodec} `{Host} `{Collaborators}.

(** Asking the LLM changes nothing of the worker but the call count,
    which grows by at most the number of turns. *)
Lemma ask_llm_state retries retry_count max_retry_number ex json_data response asked :
  ask_llm retries retry_count max_retry_number ex = Ok (json_data, response, asked) ->
  asked = with_llm_calls ex (llm_calls_count asked)
  /\ llm_calls_count ex < llm_calls_count asked <= llm_calls_count ex + retries.
Proof.
  revert retry_count ex.
  induction retries as [|retries IH]; intros retry_count ex; simpl; [discriminate |].
  destruct (call_llm _ _) as [raw|e]; simpl; [| discriminate].
  destruct (json_loads (strip_fence raw)) as [parsed|].
  - intros [= <- <- <-]. simpl. split; [done | lia].
  - case_bool_decide.
    + intros [= <- <- <-]. simpl. split; [done | lia].
    + intros Hrec. apply IH in Hrec as [Hstate Hcount].
      simpl in Hcount. split; [| lia].
      rewrite Hstate at 1. apply with_llm_calls_counted.
Qed.

Lemma ask_llm_exhausted retries retry_count max_retry_number ex :
  (Z.of_nat retries + retry_count = max_retry_number)%Z ->
  0 < retries ->
  responses_do_not_parse retries ex ->
  ask_llm retries retry_count max_retry_number ex
  = Ok (decode_failed_finish_step, json_dumps decode_failed_finish_step,
        with_llm_calls ex (llm_calls_count ex + retries)).
Proof.
  revert retry_count ex.
  induction retries as [|retries IH]; intros retry_count ex Hsum Hpos Hfail; [lia |].
  simpl. destruct (Hfail 0) as (raw & Hcall & Hparse); [lia |].
  rewrite Nat.add_0_r in Hcall. rewrite Hcall. simpl. rewrite Hparse.
  case_bool_decide as Hcap.
  - assert (retries = 0) as -> by lia.
    by replace (llm_calls_count ex + 1) with (S (llm_calls_count ex)) by lia.
  - rewrite IH.
    + simpl. do 2 f_equal. unfold with_llm_calls. simpl. f_equal. lia.
    + lia.
    + lia.
    + intros k Hk. destruct (Hfail (S k)) as (raw' & Hcall' & Hparse'); [lia |].
      exists raw'. simpl. split; [| done].
      by replace (S (llm_calls_count ex + k)) with (llm_calls_count ex + S k) by lia.
Qed.

(** The loop run in two parts. *)
Lemma react_loop_split (first rest : nat) max_retry_number current_inter ex :
  react_loop (first + rest) max_retry_number current_inter ex
  = (head <- react_loop first max_retry_number current_inter ex ;;
     match head with
     | (ex', Some verdict) => Ok (ex', Some verdict)
     | (ex', None) =>
         react_loop rest max_retry_number (current_inter + Z.of_nat first)%Z ex'
     end).
Proof.
  revert current_inter ex.
  induction first as [|first IH]; intros current_inter ex.
  - simpl. by rewrite Z.add_0_r.
  - cbn [Nat.add react_loop].
    destruct (react_iteration max_retry_number current_inter ex)
      as [[ex' [verdict|]]|e]; simpl; try done.
    rewrite IH. by replace (current_inter + 1 + Z.of_nat first)%Z
      with (current_inter + Z.of_nat (S first))%Z by lia.
Qed.

Lemma next_action_state max_retry_number ex json_data response asked :
  next_action max_retry_number ex = Ok (json_data, response, asked) ->
  asked = with_llm_calls ex (llm_calls_count asked).
Proof.
  unfold next_action. case_bool_decide.
  - intros [= <- <- <-]. symmetry. apply with_llm_calls_same.
  - intros Hask. by apply ask_llm_state in Hask as [? _].
Qed.

(** What a turn of the loop leaves untouched, and the iteration number
    it writes. *)
Lemma react_iteration_frame max_retry_number current_inter ex ex' finish :
  react_iteration max_retry_number current_inter ex = Ok (ex', finish) ->
  step_name ex' = step_name ex
  /\ tools ex' = tools ex
  /\ current_iteration ex' = Some current_inter.
Proof.
  unfold react_iteration.
  destruct (next_action _ _) as [[[json_data response] asked]|e] eqn:Hnext;
    simpl; [| discriminate].
  apply next_action_state in Hnext. rewrite Hnext. clear Hnext.
  destruct json_data as [| | | | |items]; simpl; try discriminate.
  destruct (json_is_str _ "finish_step").
  - destruct (dict_get_default "parameters" _ items) as [| | | | |ps];
      simpl; try discriminate.
    destruct (sized _); [| discriminate].
    intros [= <- <-]. done.
  - destruct (dict_get_default "action" _ items) as [| | |name|l|o];
      try discriminate.
    + destruct (startswith name "plugin_"); intros [= <- <-]; done.
    + destruct l; discriminate.
    + destruct o; discriminate.
Qed.

Lemma react_loop_step_name fuel max_retry_number current_inter ex ex' finish :
  react_loop fuel max_retry_number current_inter ex = Ok (ex', finish) ->
  step_name ex' = step_name ex.
Proof.
  revert current_inter ex.
  induction fuel as [|fuel IH]; intros current_inter ex; simpl.
  - by intros [= <- <-].
  - destruct (react_iteration _ _ _) as [[mid [verdict|]]|e] eqn:Hturn;
      simpl; [| | discriminate].
    + intros [= <- <-]. by apply react_iteration_frame in Hturn as [? _].
    + intros Hrest. apply IH in Hrest as ->.
      by apply react_iteration_frame in Hturn as [? _].
Qed.

(** C3, as the code has it.  For a worker whose step name is [end] (in
    any letter case), with an iteration cap above 1, [execute_step] adds
    one assistant message to the conversation, makes no LLM call, and
    returns the verdict [{result: "The full TSG execution completed",
    status: "completed", set_edge_status: {}}]. *)
Theorem end_node_shortcut (system_prompt context : string)
    (max_retry_number max_iterations : Z) (ex : Executor) :
  lower (step_name ex) = "end" ->
  (1 < max_iterations)%Z ->
  let finished :=
    _record_response (enter_iteration (start_step ex system_prompt context) 1)
      (json_dumps end_finish_step) in
  execute_step system_prompt context max_retry_number max_iterations ex
  = Ok (end_verdict, finished)
  /\ llm_calls_count finished = llm_calls_count ex.
Proof.
  intros Hend Hcap. cbv zeta. split; [| done].
  unfold execute_step.
  destruct (Z.to_nat (max_iterations - 1)) as [|fuel] eqn:Hfuel; [lia |].
  simpl. unfold react_iteration, next_action. simpl.
  rewrite bool_decide_eq_true_2 by done. done.
Qed.

(** C4, as the code has it.  The worker is not the end node and the
    retry cap is at least 1.  If, in whatever iteration the loop has
    reached without a [finish_step], every response of a full round of
    retries fails to parse, then [execute_step] returns the verdict
    [{result: "LLM response decoding failed", status: "failed",
    set_edge_status: {}}] after exactly that many LLM calls; the verdict
    names no edge, and it is the monitor that, processing it, disables
    every output edge of the node. *)
Theorem decode_failure_verdict (system_prompt context : string)
    (max_retry_number max_iterations : Z) (ex : Executor)
    (passed : nat) (before : Executor) :
  lower (step_name ex) <> "end" ->
  (1 <= max_retry_number)%Z ->
  (Z.of_nat passed < max_iterations - 1)%Z ->
  react_loop passed max_retry_number 1 (start_step ex system_prompt context)
  = Ok (before, None) ->
  responses_do_not_parse (Z.to_nat max_retry_number) before ->
  exists after,
    execute_step system_prompt context max_retry_number max_iterations ex
    = Ok (decode_failed_verdict, after)
    /\ llm_calls_count after
       = llm_calls_count before + Z.to_nat max_retry_number
    /\ conversation_history after
       = conversation_history before
         ++ [{| role := "assistant";
                content := json_dumps decode_failed_finish_step |}]
    /\ forall (node_name executor_id : string) (all_node_status : list Node)
              (all_edge_status : list Edge),
         exists edges',
           process_executor_result
             (executor_result_record node_name executor_id decode_failed_verdict)
             all_node_status all_edge_status
           = Ok (map (failed_row node_name (json_dumps decode_failed_verdict))
                     all_node_status,
                 edges')
           /\ forall node, node ∈ all_node_status -> n_node node = node_name ->
                outputs_disabled node edges'.
Proof.
  intros Hnot_end Hretry Hpassed Hbefore Hfail.
  assert (step_name before = step_name ex) as Hname.
  { by apply react_loop_step_name in Hbefore. }
  unfold execute_step.
  replace (Z.to_nat (max_iterations - 1))
    with (passed + S (Z.to_nat (max_iterations - 1) - S passed)) by lia.
  rewrite react_loop_split, Hbefore. simpl.
  unfold react_iteration, next_action. simpl. rewrite Hname.
  rewrite bool_decide_eq_false_2 by done.
  rewrite (ask_llm_exhausted (Z.to_nat max_retry_number) 0 max_retry_number
             (enter_iteration before (1 + Z.of_nat passed)));
    [| lia | lia | done].
  simpl. eexists. split; [done |]. split; [done |]. split; [done |].
  intros node_name executor_id all_node_status all_edge_status.
  unfold process_executor_result. simpl.
  destruct (apply_failed_result node_name (json_dumps decode_failed_verdict)
              (JObj []) all_node_status all_edge_status)
    as (edges' & Hrun & _ & _ & Hown).
  exists edges'. done.
Qed.



Lemma plugin_action_is_not_finish name :
  startswith name "plugin_" = true -> json_is_str (JStr name) "finish_step" = false.
Proof.
  intros Hprefix. simpl. apply bool_decide_eq_false. intros ->. discriminate.
Qed.

(** C6.  In an iteration whose response selects an action [name] that
    begins with [plugin_], the loop runs the action, records its
    observation, and then, with no further call of the LLM, records the
    synthesised assistant message and dispatches [sql_query_tool] with
    the snippet id cut out of the plugin's observation, recording the SQL
    observation last; the iteration then ends without a verdict. *)
Theorem plugin_action_follow_up (max_retry_number current_inter : Z)
    (ex asked : Executor) (items : list (string * json))
    (response name : string) :
  next_action max_retry_number (enter_iteration ex current_inter)
  = Ok (JObj items, response, asked) ->
  dict_get_default "action" (JStr "") items = JStr name ->
  startswith name "plugin_" = true ->
  let parameters := dict_get_default "parameters" (JObj []) items in
  let outcome := _execute_action (tools ex) name parameters (memory ex) in
  let snippet_id := strip (split_last outcome.1 stored_id_prefix) in
  let sql_outcome :=
    _execute_action (tools ex) "sql_query_tool"
      (sql_parameters (step_name ex) snippet_id) outcome.2 in
  let recorded :=
    [{| role := "assistant"; content := response |};
     {| role := "user"; content := "Observation: " +:+ outcome.1 |};
     {| role := "assistant";
        content := json_dumps (sql_follow_up (step_name ex) snippet_id) |};
     {| role := "user"; content := "Observation: " +:+ sql_outcome.1 |}] in
  exists final,
    react_iteration max_retry_number current_inter ex = Ok (final, None)
    /\ conversation_history final = conversation_history ex ++ recorded
    /\ audit_log final = audit_log ex ++ recorded
    /\ memory final = sql_outcome.2
    /\ llm_calls_count final = llm_calls_count asked.
Proof.
  intros Hnext Haction Hprefix. cbv zeta.
  unfold react_iteration. rewrite Hnext. simpl.
  apply next_action_state in Hnext. rewrite Hnext. clear Hnext.
  rewrite Haction, (plugin_action_is_not_finish _ Hprefix). simpl.
  rewrite Hprefix. eexists. split; [done |].
  unfold plugin_follow_up, _record_observation, _record_response, record_message.
  simpl. rewrite <- !app_assoc. simpl. done.
Qed.

End WorkerLaws.

(** ** A plugin call that misses a parameter *)

Lemma missing_message_facts (plugin : Plugin) (param : string) :
  repository_params plugin ->
  param ∈ required_params plugin ->
  let message := missing_parameter_message plugin param in
  startswith message "Error:" = false
  /\ startswith message "Missing required parameter:" = true
  /\ strip (split_last message stored_id_prefix) = message
  /\ String.length message <> 36
  /\ is_empty_str message = false.
Proof.
  intros Hrepo Hparam. unfold missing_parameter_message.
  destruct Hrepo as [Hparams | Hparams]; rewrite Hparams in *;
    apply list_elem_of_In in Hparam; simpl in Hparam;
    repeat (destruct Hparam as [<- | Hparam]; [by vm_compute |]);
    destruct Hparam.
Qed.

Lemma plugin_execute_missing (plugin : Plugin) (kwargs : list (string * json))
    (param : string) :
  find (fun p => negb (has_param p kwargs)) (required_params plugin) = Some param ->
  plugin_execute plugin kwargs = Ok (missing_parameter_message plugin param)
  /\ param ∈ required_params plugin
  /\ has_param param kwargs = false.
Proof.
  intros Hfind. unfold plugin_execute. rewrite Hfind. split; [done |].
  apply find_some in Hfind as [Hin Hmiss].
  split; [by apply list_elem_of_In |]. by apply negb_true_iff.
Qed.

Lemma get_code_snippet_foreign `{Host} (mem : Memory) (snippet_id : string) :
  snippet_ids_are_uuids mem ->
  String.length snippet_id <> 36 ->
  get_code_snippet mem snippet_id = None.
Proof.
  unfold snippet_ids_are_uuids, get_code_snippet. intros Hids Hlen.
  induction (code_snippets_collection mem) as [|doc rest IH]; simpl; [done |].
  apply Forall_cons in Hids as [Hdoc Hrest].
  rewrite bool_decide_eq_false_2 by congruence. by apply IH.
Qed.

Section MissingParameter.
Context `{JsonCodec} `{Host} `{Collaborators}.

(** A plugin tool called without a required parameter answers with the
    message and stores nothing. *)
Lemma plugin_tool_missing (plugin : Plugin) (kwargs : list (string * json))
    (param : string) (mem : Memory) :
  repository_params plugin ->
  find (fun p => negb (has_param p kwargs)) (required_params plugin) = Some param ->
  tool_execute (PluginTool plugin) (JObj kwargs) mem
  = (Ok (missing_parameter_message plugin param), mem).
Proof.
  intros Hrepo Hfind. simpl. unfold PluginTool_execute.
  destruct (plugin_execute_missing _ _ _ Hfind) as (-> & Hin & _).
  destruct (missing_message_facts plugin param Hrepo Hin) as (_ & -> & _).
  by rewrite orb_true_r.
Qed.

(** [sql_query_tool] given a snippet id that is no identifier of the
    store. *)
Lemma sql_tool_foreign_id (step snippet_id : string) (mem : Memory) :
  snippet_ids_are_uuids mem ->
  String.length snippet_id <> 36 ->
  is_empty_str snippet_id = false ->
  tool_execute SQLQueryTool (sql_parameters step snippet_id) mem
  = (Ok (snippet_not_found_message snippet_id), mem).
Proof.
  intros Hids Hlen Hfull. simpl. unfold SQLQueryTool_execute. simpl.
  rewrite Hfull. simpl. by rewrite get_code_snippet_foreign.
Qed.

(** C10.  The response selects an action that begins with [plugin_] and
    resolves to the tool of a plugin of the repository, and its parameters
    miss a required one of that plugin.  Then the plugin tool answers with
    the missing-parameter message and stores no snippet; the loop still
    dispatches [sql_query_tool], with the whole message as [snippet_id];
    and (identifiers of the store being UUID texts) [sql_query_tool]
    answers that no snippet with this id was found.  The store is left as
    it was. *)
Theorem missing_parameter_follow_up (max_retry_number current_inter : Z)
    (ex asked : Executor) (items kwargs : list (string * json))
    (response name param : string) (plugin : Plugin) :
  next_action max_retry_number (enter_iteration ex current_inter)
  = Ok (JObj items, response, asked) ->
  dict_get_default "action" (JStr "") items = JStr name ->
  startswith name "plugin_" = true ->
  dict_get_default "parameters" (JObj []) items = JObj kwargs ->
  find_tool (tools ex) name = Some (PluginTool plugin) ->
  find_tool (tools ex) "sql_query_tool" = Some SQLQueryTool ->
  repository_params plugin ->
  find (fun p => negb (has_param p kwargs)) (required_params plugin) = Some param ->
  snippet_ids_are_uuids (memory ex) ->
  let message := missing_parameter_message plugin param in
  let recorded :=
    [{| role := "assistant"; content := response |};
     {| role := "user"; content := "Observation: " +:+ message |};
     {| role := "assistant";
        content := json_dumps (sql_follow_up (step_name ex) message) |};
     {| role := "user";
        content := "Observation: " +:+ snippet_not_found_message message |}] in
  _execute_action (tools ex) name (JObj kwargs) (memory ex) = (message, memory ex)
  /\ strip (split_last message stored_id_prefix) = message
  /\ _execute_action (tools ex) "sql_query_tool"
       (sql_parameters (step_name ex) message) (memory ex)
     = (snippet_not_found_message message, memory ex)
  /\ exists final,
       react_iteration max_retry_number current_inter ex = Ok (final, None)
       /\ conversation_history final = conversation_history ex ++ recorded
       /\ memory final = memory ex.
Proof.
  intros Hnext Haction Hprefix Hparams Hplugin Hsql Hrepo Hfind Hids. cbv zeta.
  destruct (plugin_execute_missing _ _ _ Hfind) as (_ & Hin & _).
  destruct (missing_message_facts plugin param Hrepo Hin)
    as (_ & _ & Hcut & Hlen & Hfull).
  assert (is_empty_str name = false) as Hname.
  { destruct name; [discriminate | done]. }
  assert (_execute_action (tools ex) name (JObj kwargs) (memory ex)
          = (missing_parameter_message plugin param, memory ex)) as Hfirst.
  { unfold _execute_action. rewrite Hname, Hplugin.
    by rewrite (plugin_tool_missing plugin kwargs param). }
  assert (_execute_action (tools ex) "sql_query_tool"
            (sql_parameters (step_name ex) (missing_parameter_message plugin param))
            (memory ex)
          = (snippet_not_found_message (missing_parameter_message plugin param),
             memory ex)) as Hsecond.
  { unfold _execute_action. simpl is_empty_str. cbv iota. rewrite Hsql.
    by rewrite sql_tool_foreign_id. }
  split; [done |]. split; [done |]. split; [done |].
  unfold react_iteration. rewrite Hnext. simpl.
  apply next_action_state in Hnext. rewrite Hnext. clear Hnext.
  rewrite Haction, (plugin_action_is_not_finish _ Hprefix), Hparams. simpl.
  rewrite Hprefix, Hfirst. simpl.
  unfold plugin_follow_up. simpl. rewrite Hcut, Hsecond. simpl.
  eexists. split; [done |]. split; [| done].
  unfold _record_observation, _record_response, record_message. simpl.
  rewrite <- !app_assoc. done.
Qed.
End MissingParameter.

(** ** Closed runs of the worker *)

Lemma end_node_shortcut_witness :
  @execute_step silent_codec counting_host (scripted []) "system" "context" 3 10
    (worker "End" registry)
  = Ok (end_verdict,
        _record_response
          (enter_iteration (start_step (worker "End" registry) "system" "context") 1)
          (@json_dumps silent_codec end_finish_step))
  /\ llm_calls_count
       (_record_response
          (enter_iteration (start_step (worker "End" registry) "system" "context") 1)
          (@json_dumps silent_codec end_finish_step))
     = llm_calls_count (worker "End" registry).
Proof.
  apply (@end_node_shortcut silent_codec counting_host (scripted [])
           "system" "context" 3%Z 10%Z (worker "End" registry)).
  - reflexivity.
  - lia.
Defined.

(** C3 as stated fails: the result the end node's verdict carries is not
    the text [terminal]. *)
Lemma end_verdict_is_not_terminal :
  exists verdict ex',
    @execute_step silent_codec counting_host (scripted []) "system" "context" 3 10
      (worker "end" registry) = Ok (verdict, ex')
    /\ json_index verdict "result" = Ok (JStr "The full TSG execution completed")
    /\ json_index verdict "result" <> Ok (JStr "terminal").
Proof.
  eexists _, _. split; [reflexivity |]. split; [reflexivity |]. discriminate.
Qed.

Lemma decode_failure_verdict_witness :
  exists after,
    @execute_step silent_codec counting_host
      (scripted ["not json"; "```json nor this```"; "{"]) "system" "context" 3 10
      (worker "A" registry)
    = Ok (decode_failed_verdict, after)
    /\ llm_calls_count after
       = llm_calls_count (start_step (worker "A" registry) "system" "context")
         + Z.to_nat 3
    /\ conversation_history after
       = conversation_history (start_step (worker "A" registry) "system" "context")
         ++ [{| role := "assistant";
                content := @json_dumps silent_codec decode_failed_finish_step |}]
    /\ forall (node_name executor_id : string) (all_node_status : list Node)
              (all_edge_status : list Edge),
         exists edges',
           @process_executor_result silent_codec
             (executor_result_record node_name executor_id decode_failed_verdict)
             all_node_status all_edge_status
           = Ok (map (failed_row node_name
                        (@json_dumps silent_codec decode_failed_verdict))
                     all_node_status,
                 edges')
           /\ forall node, node ∈ all_node_status -> n_node node = node_name ->
                outputs_disabled node edges'.
Proof.
  apply (@decode_failure_verdict silent_codec counting_host
           (scripted ["not json"; "```json nor this```"; "{"])
           "system" "context" 3%Z 10%Z (worker "A" registry) 0
           (start_step (worker "A" registry) "system" "context")).
  - vm_compute. discriminate.
  - lia.
  - lia.
  - reflexivity.
  - intros k Hk.
    destruct k as [|[|[|k]]]; [| | | lia]; eexists; split; reflexivity.
Defined.

(** C4 as stated fails: the verdict returned after the retries names no
    edge at all, so the output edge of the node is not disabled in it. *)
Lemma decode_failure_names_no_edge :
  exists after,
    @execute_step silent_codec counting_host
      (scripted ["not json"; "```json nor this```"; "{"]) "system" "context" 3 10
      (worker "A" registry)
    = Ok (decode_failed_verdict, after)
    /\ "eA_B" ∈ map ei_edge (n_output_edges (plain_node "A" ["eS_A"] ["eA_B"] "running"))
    /\ json_index decode_failed_verdict "set_edge_status" = Ok (JObj [])
    /\ dict_get "eA_B" ([] : list (string * json)) <> Some (JStr "disabled").
Proof.
  eexists. split; [reflexivity |]. split; [| split; [reflexivity | discriminate]].
  apply list_elem_of_In. simpl. tauto.
Qed.


(** With a cap of 3 the LLM is asked twice: a [finish_step] it would give
    as its third answer is never asked for. *)
Example two_iterations_under_cap_three :
  exists ex',
    @execute_step phrase_book counting_host (scripted ["think"; "think"; "think"])
      "system" "context" 3 3 (worker "A" registry)
    = Ok (no_finish_verdict "A", ex')
    /\ llm_calls_count ex' = 2.
Proof. eexists. split; vm_compute; reflexivity. Qed.

Lemma plugin_action_follow_up_witness :
  let parameters := JObj full_window in
  let outcome :=
    @_execute_action counting_host (scripted ["query"]) (tools worker_A)
      "plugin_1_tool" parameters (memory worker_A) in
  let snippet_id := strip (split_last outcome.1 stored_id_prefix) in
  let sql_outcome :=
    @_execute_action counting_host (scripted ["query"]) (tools worker_A)
      "sql_query_tool" (sql_parameters (step_name worker_A) snippet_id) outcome.2 in
  let recorded :=
    [{| role := "assistant"; content := "query" |};
     {| role := "user"; content := "Observation: " +:+ outcome.1 |};
     {| role := "assistant";
        content := @json_dumps phrase_book
                     (sql_follow_up (step_name worker_A) snippet_id) |};
     {| role := "user"; content := "Observation: " +:+ sql_outcome.1 |}] in
  exists final,
    @react_iteration phrase_book counting_host (scripted ["query"]) 3 1 worker_A
    = Ok (final, None)
    /\ conversation_history final = conversation_history worker_A ++ recorded
    /\ audit_log final = audit_log worker_A ++ recorded
    /\ memory final = sql_outcome.2
    /\ llm_calls_count final
       = llm_calls_count (with_llm_calls (enter_iteration worker_A 1) 1).
Proof.
  apply (@plugin_action_follow_up phrase_book counting_host (scripted ["query"])
           3%Z 1%Z worker_A (with_llm_calls (enter_iteration worker_A 1) 1)
           [("thought", JStr "run the query");
            ("action", JStr "plugin_1_tool");
            ("parameters", JObj full_window)]
           "query" "plugin_1_tool"); reflexivity.
Defined.

(** The observations of that run: the plugin stores its query under the
    first identifier of the session, and the follow-up call runs it. *)
Example plugin_run_observations :
  exists final,
    @react_iteration phrase_book counting_host (scripted ["query"]) 3 1 worker_A
    = Ok (final, None)
    /\ map content (drop 2 (conversation_history final))
       = ["query";
          "Observation: SQL query snippet stored with ID: uuid-0";
          "<json>";
          "Observation: rows of: SELECT service_version FROM api_gateway_logs"].
Proof. eexists. split; vm_compute; reflexivity. Qed.

Lemma missing_parameter_follow_up_witness :
  let message := missing_parameter_message plugin_1 "service_name" in
  let recorded :=
    [{| role := "assistant"; content := "short query" |};
     {| role := "user"; content := "Observation: " +:+ message |};
     {| role := "assistant";
        content := @json_dumps phrase_book
                     (sql_follow_up (step_name worker_A) message) |};
     {| role := "user";
        content := "Observation: " +:+ snippet_not_found_message message |}] in
  @_execute_action counting_host (scripted ["short query"]) (tools worker_A)
    "plugin_1_tool" (JObj (take 4 full_window)) (memory worker_A)
  = (message, memory worker_A)
  /\ strip (split_last message stored_id_prefix) = message
  /\ @_execute_action counting_host (scripted ["short query"]) (tools worker_A)
       "sql_query_tool" (sql_parameters (step_name worker_A) message)
       (memory worker_A)
     = (snippet_not_found_message message, memory worker_A)
  /\ exists final,
       @react_iteration phrase_book counting_host (scripted ["short query"]) 3 1
         worker_A = Ok (final, None)
       /\ conversation_history final = conversation_history worker_A ++ recorded
       /\ memory final = memory worker_A.
Proof.
  apply (@missing_parameter_follow_up phrase_book counting_host
           (scripted ["short query"]) 3%Z 1%Z worker_A
           (with_llm_calls (enter_iteration worker_A 1) 1)
           [("thought", JStr "run the query");
            ("action", JStr "plugin_1_tool");
            ("parameters", JObj (take 4 full_window))]
           (take 4 full_window) "short query" "plugin_1_tool" "service_name"
           plugin_1).
  - reflexivity.
  - reflexivity.
  - reflexivity.
  - reflexivity.
  - reflexivity.
  - reflexivity.
  - left. reflexivity.
  - reflexivity.
  - constructor.
Defined.

Example missing_parameter_observations :
  exists final,
    @react_iteration phrase_book counting_host (scripted ["short query"]) 3 1
      worker_A = Ok (final, None)
    /\ map content (drop 3 (conversation_history final))
       = ["Observation: Missing required parameter: service_name. You should provide all the params: ['start_time', 'end_time', 'region', 'environment', 'service_name']";
          "<json>";
          "Observation: Error: SQL snippet with ID 'Missing required parameter: service_name. You should provide all the params: ['start_time', 'end_time', 'region', 'environment', 'service_name']' not found in memory."].
Proof. eexists. split; vm_compute; reflexivity. Qed.

(** * Further properties of the code *)

(** ** The worker: cost and record keeping *)

Section WorkerRecords.
Context `{JsonCodec} `{Host} `{Collaborators}.

Lemma next_action_calls max_retry_number ex json_data response asked :
  next_action max_retry_number ex = Ok (json_data, response, asked) ->
  asked = with_llm_calls ex (llm_calls_count asked)
  /\ llm_calls_count ex <= llm_calls_count asked
     <= llm_calls_count ex + Z.to_nat max_retry_number.
Proof.
  unfold next_action. case_bool_decide.
  - intros [= <- <- <-]. split; [symmetry; apply with_llm_calls_same | lia].
  - intros Hask. apply ask_llm_state in Hask as [? ?]. split; [done | lia].
Qed.

(** What one turn of the loop does to the records of the worker: it asks
    the LLM at most [max_retry_number] times and appends the same messages
    to the conversation and to the agent's context. *)
Lemma react_iteration_records max_retry_number current_inter ex ex' finish :
  react_iteration max_retry_number current_inter ex = Ok (ex', finish) ->
  llm_calls_count ex <= llm_calls_count ex'
    <= llm_calls_count ex + Z.to_nat max_retry_number
  /\ exists added,
       conversation_history ex' = conversation_history ex ++ added
       /\ audit_log ex' = audit_log ex ++ added.
Proof.
  unfold react_iteration.
  destruct (next_action _ _) as [[[json_data response] asked]|e] eqn:Hnext;
    simpl; [| discriminate].
  apply next_action_calls in Hnext as [Hstate Hcalls]. simpl in Hcalls.
  rewrite Hstate. clear Hstate.
  destruct json_data as [| | | | |items]; simpl; try discriminate.
  destruct (json_is_str _ "finish_step").
  - destruct (dict_get_default "parameters" _ items) as [| | | | |ps];
      simpl; try discriminate.
    destruct (sized _); [| discriminate].
    intros [= <- <-]. simpl. split; [lia |]. by eexists.
  - destruct (dict_get_default "action" _ items) as [| | |name|l|o];
      try discriminate.
    + destruct (startswith name "plugin_"); intros [= <- <-]; simpl.
      * split; [lia |]. eexists. rewrite <- !app_assoc. done.
      * split; [lia |]. eexists. rewrite <- !app_assoc. done.
    + destruct l; discriminate.
    + destruct o; discriminate.
Qed.

Lemma react_loop_records fuel max_retry_number current_inter ex ex' finish :
  react_loop fuel max_retry_number current_inter ex = Ok (ex', finish) ->
  llm_calls_count ex <= llm_calls_count ex'
    <= llm_calls_count ex + fuel * Z.to_nat max_retry_number
  /\ exists added,
       conversation_history ex' = conversation_history ex ++ added
       /\ audit_log ex' = audit_log ex ++ added.
Proof.
  revert current_inter ex.
  induction fuel as [|fuel IH]; intros current_inter ex; simpl.
  - intros [= <- <-]. split; [lia |]. exists []. by rewrite !app_nil_r.
  - destruct (react_iteration _ _ _) as [[mid [verdict|]]|e] eqn:Hturn;
      simpl; [| | discriminate].
    + intros [= <- <-].
      apply react_iteration_records in Hturn as [Hcalls Hadded].
      split; [lia | done].
    + intros Hrest.
      apply react_iteration_records in Hturn as [Hcalls (first & Hconv & Hlog)].
      apply IH in Hrest as [Hcalls' (rest & Hconv' & Hlog')].
      split; [lia |]. exists (first ++ rest).
      rewrite Hconv', Hlog', Hconv, Hlog, <- !app_assoc. done.
Qed.

(** X1.  A step costs at most [(max_iterations - 1) * max_retry_number]
    calls of the LLM: whenever [execute_step] returns, the call count of
    the worker has grown by no more than that. *)
Theorem llm_calls_bounded (system_prompt context : string)
    (max_retry_number max_iterations : Z) (ex ex' : Executor) (verdict : json) :
  execute_step system_prompt context max_retry_number max_iterations ex
  = Ok (verdict, ex') ->
  llm_calls_count ex <= llm_calls_count ex'
  <= llm_calls_count ex
     + Z.to_nat (max_iterations - 1) * Z.to_nat max_retry_number.
Proof.
  unfold execute_step.
  destruct (react_loop _ _ _ _) as [[last finish]|e] eqn:Hloop;
    simpl; [| discriminate].
  intros [= _ <-]. by apply react_loop_records in Hloop as [Hcalls _].
Qed.

(** X2.  The agent's context in the store records the conversation of
    the step, whole and in order: whenever [execute_step] returns, the
    conversation starts with the system prompt and the step's context, and
    the agent's log is the log it had before followed by exactly the
    messages of that conversation. *)
Theorem conversation_is_logged (system_prompt context : string)
    (max_retry_number max_iterations : Z) (ex ex' : Executor) (verdict : json) :
  execute_step system_prompt context max_retry_number max_iterations ex
  = Ok (verdict, ex') ->
  audit_log ex' = audit_log ex ++ conversation_history ex'
  /\ take 2 (conversation_history ex')
     = conversation_history (start_step ex system_prompt context).
Proof.
  unfold execute_step.
  destruct (react_loop _ _ _ _) as [[last finish]|e] eqn:Hloop;
    simpl; [| discriminate].
  intros [= _ <-].
  apply react_loop_records in Hloop as [_ (added & -> & ->)]. simpl.
  split; [by rewrite <- app_assoc | done].
Qed.
End WorkerRecords.

(** ** The sweep over the pending nodes *)

(** The second component of the check tells whether the node triggered
    is the end node. *)
Lemma should_trigger_node_end node edge_status is_triggering is_end_node :
  _should_trigger_node node edge_status = Ok (is_triggering, is_end_node) ->
  is_end_node = is_end_name (n_node node) && is_triggering.
Proof.
  unfold _should_trigger_node. destruct (n_input_edges node); [discriminate |].
  destruct (is_end_name (n_node node)); simpl.
  - destruct (any_enabled _); simpl; [by intros [= <- <-] |].
    rewrite andb_false_r. by intros [= <- <-].
  - destruct (_ && _); by intros [= <- <-].
Qed.

(** One step of the sweep either leaves the picks alone or picks the
    node it looks at; in the second case the node is pending, stays as it
    is, and is the end node or fits under the cap. *)
Lemma sweep_node_pick running cap node all_edge_status sw node' edges' sw' :
  sweep_node running cap node all_edge_status sw = Ok (node', edges', sw') ->
  sw' = sw
  \/ (nodes_to_run sw' = nodes_to_run sw ++ [node]
      /\ node' = node /\ edges' = all_edge_status
      /\ n_status node = "pending"
      /\ ((is_end_name (n_node node) = true /\ is_end_triggered sw' = true)
          \/ (is_end_name (n_node node) = false
              /\ is_end_triggered sw' = is_end_triggered sw
              /\ (Z.of_nat running + Z.of_nat (length (nodes_to_run sw')) <= cap)%Z))).
Proof.
  unfold sweep_node. case_bool_decide as Hpending; simpl.
  - destruct (_should_trigger_node node all_edge_status)
      as [[is_triggering is_end_node]|e] eqn:Htrigger; simpl; [| discriminate].
    destruct (is_triggering && _) eqn:Hpick.
    + intros [= <- <- <-]. right. simpl.
      split; [done |]. split; [done |]. split; [done |]. split; [done |].
      apply andb_true_iff in Hpick as [-> Hcap].
      apply should_trigger_node_end in Htrigger. rewrite andb_true_r in Htrigger.
      destruct is_end_node.
      * left. done.
      * right. split; [done |]. split; [done |]. simpl in Hcap.
        apply bool_decide_eq_true in Hcap. rewrite length_app. simpl. lia.
    + destruct (_are_all_input_edges_disabled node all_edge_status)
        as [all_disabled|e]; simpl; [| discriminate].
      destruct all_disabled; intros [= <- <- <-]; by left.
  - intros [= <- <- <-]. by left.
Qed.

(** X3.  The sweep picks pending rows only and respects the cap on
    concurrent workers: unless the end node is among the nodes it picks,
    the workers already running and the nodes picked together never exceed
    [max_executor_number].  The end node is picked whatever the cap, and
    the sweep reports it in [is_end_triggered]. *)
Theorem sweep_respects_cap (running : nat) (max_executor_number : Z)
    (all_node_status nodes' : list Node) (all_edge_status edges' : list Edge)
    (sw sw' : Sweep) :
  sweep_nodes running max_executor_number all_node_status all_edge_status sw
  = Ok (nodes', edges', sw') ->
  exists picked,
    nodes_to_run sw' = nodes_to_run sw ++ picked
    /\ Forall (fun node => node ∈ all_node_status /\ node ∈ nodes'
                          /\ n_status node = "pending") picked
    /\ (is_end_triggered sw' = true <->
        is_end_triggered sw = true
        \/ Exists (fun node => is_end_name (n_node node) = true) picked)
    /\ (is_end_triggered sw' = false ->
        picked = []
        \/ (Z.of_nat running + Z.of_nat (length (nodes_to_run sw'))
            <= max_executor_number)%Z).
Proof.
  revert nodes' all_edge_status edges' sw sw'.
  induction all_node_status as [|node rest IH];
    intros nodes' all_edge_status edges' sw sw'; simpl.
  - intros [= <- <- <-]. exists []. rewrite app_nil_r.
    split; [done |]. split; [constructor |]. split; [| auto].
    split; [auto |]. intros [? | Hex]; [done | inversion Hex].
  - destruct (sweep_node _ _ node _ _) as [[[node1 edges1] sw1]|e] eqn:Hnode;
      simpl; [| discriminate].
    destruct (sweep_nodes _ _ rest _ _) as [[[rest' edges2] sw2]|e] eqn:Hrest;
      simpl; [| discriminate].
    intros [= <- <- <-].
    apply IH in Hrest as (picked & Hrun & Hpicked & Hend & Hcap).
    assert (Forall (fun n => n ∈ node :: rest /\ n ∈ node1 :: rest'
                             /\ n_status n = "pending") picked) as Hpicked'.
    { eapply Forall_impl; [exact Hpicked |].
      intros n (? & ? & ?). split; [by right |]. split; [by right | done]. }
    apply sweep_node_pick in Hnode
      as [-> | (Hrun1 & -> & _ & Hpending & Hkind)].
    + exists picked. done.
    + exists (node :: picked).
      split; [by rewrite Hrun, Hrun1, <- app_assoc |].
      split.
      { constructor; [| done]. split; [left |]. split; [left | done]. }
      split.
      * rewrite Hend. split.
        -- intros [Hsw1 | Hex]; [| right; by right].
           destruct Hkind as [[Hname _] | (_ & Hsame & _)].
           ++ right. by left.
           ++ left. congruence.
        -- intros [Hsw | Hex].
           ++ destruct Hkind as [[_ ?] | (_ & Hsame & _)]; [by left |].
              left. congruence.
           ++ apply Exists_cons in Hex as [Hname | Hex]; [| by right].
              left. destruct Hkind as [[_ ?] | (Hother & _)]; [done |].
              congruence.
      * intros Hno_end. right.
        assert (is_end_triggered sw1 = false) as Hsw1.
        { destruct (is_end_triggered sw1) eqn:Hflag; [| done].
          assert (is_end_triggered sw2 = true) by (apply Hend; by left).
          congruence. }
        destruct Hkind as [[_ ?] | (_ & _ & Hfit)]; [congruence |].
        destruct (Hcap Hno_end) as [-> | ?]; [| done].
        rewrite app_nil_r in Hrun. by rewrite Hrun.
Qed.

Lemma disabled_by_more owners owners' edge edge' :
  (forall node, node ∈ owners -> node ∈ owners') ->
  disabled_by owners edge edge' -> disabled_by owners' edge edge'.
Proof.
  intros Hsub [-> | (-> & node & Hin & Hskipped & Hout)]; [by left |].
  right. split; [done |]. exists node. auto.
Qed.

Lemma disabled_by_then owners edge edge' edge'' :
  disabled_by owners edge edge' -> disabled_by owners edge' edge'' ->
  disabled_by owners edge edge''.
Proof.
  intros [-> | (-> & Hby)]; [done |].
  intros [-> | (-> & _)]; right; done.
Qed.

Lemma disabled_by_rows owners (table table' table'' : list Edge) :
  Forall2 (disabled_by owners) table table' ->
  Forall2 (disabled_by owners) table' table'' ->
  Forall2 (disabled_by owners) table table''.
Proof.
  intros Hfirst. revert table''.
  induction Hfirst as [|edge edge' rest rest' Hedge _ IH]; intros table'' Hsecond.
  - inversion Hsecond. constructor.
  - inversion Hsecond as [|? edge'' ? rest'' Hedge' Hrest']; subst.
    constructor; [by eapply disabled_by_then | by apply IH].
Qed.

Lemma set_all_disabled_by node edge_status :
  n_status node = "skipped" ->
  Forall2 (disabled_by [node]) edge_status
    (_set_all_output_edges_disabled node edge_status).
Proof.
  intros Hskipped. unfold _set_all_output_edges_disabled.
  induction edge_status as [|edge rest IH]; simpl; constructor; [| done].
  destruct (name_in (e_edge edge) _) eqn:Hname; [| by left].
  right. split; [done |]. exists node. split; [left |]. split; [done |].
  by apply name_in_true.
Qed.

Lemma disabled_by_same owners (table : list Edge) :
  Forall2 (disabled_by owners) table table.
Proof. induction table; constructor; [by left | done]. Qed.

(** X4.  The sweep changes [Edge_Status] in one way only: a row it
    changes becomes [disabled], keeps its name and condition, and is an
    output edge of a node that the table it returns shows as skipped.  No
    row is added, dropped or moved. *)
Theorem sweep_disables_only_skipped (running : nat) (max_executor_number : Z)
    (all_node_status nodes' : list Node) (all_edge_status edges' : list Edge)
    (sw sw' : Sweep) :
  sweep_nodes running max_executor_number all_node_status all_edge_status sw
  = Ok (nodes', edges', sw') ->
  Forall2 (disabled_by nodes') all_edge_status edges'.
Proof.
  revert nodes' all_edge_status edges' sw sw'.
  induction all_node_status as [|node rest IH];
    intros nodes' all_edge_status edges' sw sw'; simpl.
  - intros [= <- <- <-]. apply disabled_by_same.
  - destruct (sweep_node _ _ node _ _) as [[[node1 edges1] sw1]|e] eqn:Hnode;
      simpl; [| discriminate].
    destruct (sweep_nodes _ _ rest _ _) as [[[rest' edges2] sw2]|e] eqn:Hrest;
      simpl; [| discriminate].
    intros [= <- <- <-].
    apply IH in Hrest.
    apply disabled_by_rows with (table' := edges1).
    + unfold sweep_node in Hnode.
      destruct (negb _); simpl in Hnode.
      { injection Hnode as <- <- <-. apply disabled_by_same. }
      destruct (_should_trigger_node node all_edge_status)
        as [[is_triggering is_end_node]|e]; simpl in Hnode; [| discriminate].
      destruct (is_triggering && _).
      { injection Hnode as <- <- <-. apply disabled_by_same. }
      destruct (_are_all_input_edges_disabled node all_edge_status)
        as [all_disabled|e]; simpl in Hnode; [| discriminate].
      destruct all_disabled; injection Hnode as <- <- <-;
        [| apply disabled_by_same].
      eapply Forall2_impl; [by apply set_all_disabled_by |].
      intros edge edge'. apply disabled_by_more.
      intros n Hn. apply list_elem_of_singleton in Hn as ->. left.
    + eapply Forall2_impl; [exact Hrest |].
      intros edge edge'. apply disabled_by_more. intros n Hn. by right.
Qed.

(** ** The monitor: a completed verdict *)

Lemma updated_row_twice items edge :
  updated_row items (updated_row items edge) = updated_row items edge.
Proof.
  unfold updated_row at 2. destruct (dict_get (e_edge edge) items) eqn:Hget.
  - unfold updated_row. simpl. by rewrite Hget.
  - unfold updated_row. by rewrite Hget.
Qed.

Section CompletedVerdict.
Context `{JsonCodec}.

Lemma apply_finished_result node_name result_text items all_node_status
    all_edge_status :
  NoDup (map e_edge all_edge_status) ->
  NoDup (map fst items) ->
  Forall (fun edge_name => edge_name ∈ map e_edge all_edge_status) (map fst items) ->
  apply_result_to_nodes node_name "finished" result_text (JObj items)
    all_node_status all_edge_status
  = Ok (map (finished_row node_name result_text) all_node_status,
        if name_in node_name (map n_node all_node_status)
        then map (updated_row items) all_edge_status
        else all_edge_status).
Proof.
  intros Hnd Hkeys. revert all_edge_status Hnd.
  induction all_node_status as [|node rest IH]; intros all_edge_status Hnd Hall;
    simpl; [done |].
  unfold apply_result_to_node, finished_row at 1.
  case_bool_decide as Hname; simpl.
  - rewrite update_edges_items_present by done. simpl.
    rewrite IH; [| by rewrite updated_row_names | by rewrite updated_row_names].
    simpl. f_equal. f_equal.
    rewrite (proj2 (name_in_true node_name (n_node node :: _)))
      by (rewrite Hname; left).
    destruct (name_in node_name (map n_node rest)); [| done].
    rewrite map_map. apply map_ext. intros edge. apply updated_row_twice.
  - rewrite IH by done. simpl. f_equal. f_equal.
    destruct (name_in node_name (map n_node rest)) eqn:Hrest.
    + apply name_in_true in Hrest.
      by rewrite (proj2 (name_in_true node_name (n_node node :: _))) by (by right).
    + apply name_in_false in Hrest.
      rewrite (proj2 (name_in_false node_name (n_node node :: _))); [done |].
      intros Hin. apply elem_of_cons in Hin as [? | ?]; [congruence | done].
Qed.

Lemma apply_finished_result_missing node_name result_text items all_node_status
    all_edge_status :
  node_name ∈ map n_node all_node_status ->
  ~ Forall (fun edge_name => edge_name ∈ map e_edge all_edge_status) (map fst items) ->
  exists edge_name,
    edge_name ∈ map fst items
    /\ (edge_name ∉ map e_edge all_edge_status)
    /\ apply_result_to_nodes node_name "finished" result_text (JObj items)
         all_node_status all_edge_status
       = Raise (ValueError ("Edge '" +:+ edge_name +:+ "' not found in Edge_Status")).
Proof.
  intros Hnode Hmiss.
  induction all_node_status as [|node rest IH]; simpl; [inversion Hnode |].
  unfold apply_result_to_node.
  case_bool_decide as Hname; simpl.
  - destruct (update_edges_items_missing all_edge_status items Hmiss)
      as (edge_name & Hkey & Habsent & ->).
    exists edge_name. done.
  - simpl in Hnode. apply elem_of_cons in Hnode as [? | Hnode]; [congruence |].
    destruct (IH Hnode) as (edge_name & Hkey & Habsent & ->).
    exists edge_name. done.
Qed.

(** X5.  A verdict with status [completed] whose [set_edge_status] is a
    dict: when every edge the dict names is a row of [Edge_Status], the
    monitor marks the rows of the node finished, stores the verdict's JSON
    text as their result, and writes the dict's statuses to the named
    rows, leaving every other row of both tables as it was; when the node
    is no row of [Node_Status], the edges are not touched either.  When
    the dict names an edge that is no row of the table and the node is in
    [Node_Status], the monitor raises [ValueError] and returns no
    table. *)
Theorem completed_verdict_processing (executor_result : ExecutorResult)
    (verdict edge_items : list (string * json))
    (all_node_status : list Node) (all_edge_status : list Edge) :
  er_result executor_result = JObj verdict ->
  dict_get "status" verdict = Some (JStr "completed") ->
  dict_get_default "set_edge_status" (JObj []) verdict = JObj edge_items ->
  NoDup (map e_edge all_edge_status) ->
  NoDup (map fst edge_items) ->
  let node_name := er_node_name executor_result in
  let named :=
    Forall (fun edge_name => edge_name ∈ map e_edge all_edge_status)
           (map fst edge_items) in
  (named ->
   process_executor_result executor_result all_node_status all_edge_status
   = Ok (map (finished_row node_name (json_dumps (JObj verdict))) all_node_status,
         if name_in node_name (map n_node all_node_status)
         then map (updated_row edge_items) all_edge_status
         else all_edge_status))
  /\ (~ named -> node_name ∈ map n_node all_node_status ->
      exists edge_name,
        edge_name ∈ map fst edge_items
        /\ (edge_name ∉ map e_edge all_edge_status)
        /\ process_executor_result executor_result all_node_status all_edge_status
           = Raise (ValueError
                      ("Edge '" +:+ edge_name +:+ "' not found in Edge_Status"))).
Proof.
  intros Hresult Hstatus Hedges Hnd Hkeys. cbv zeta.
  unfold process_executor_result. rewrite Hresult. simpl.
  rewrite Hstatus. simpl. rewrite Hedges.
  split.
  - intros Hnamed. by apply apply_finished_result.
  - intros Hmiss Hnode. by apply apply_finished_result_missing.
Qed.
End CompletedVerdict.

(** ** The loader: the rows of [Node_Status] *)

Lemma finish_start_rows plan_dag_nodes start_node :
  find is_start plan_dag_nodes = Some start_node ->
  exists before after,
    plan_dag_nodes = before ++ start_node :: after
    /\ Forall (fun node => is_start node = false) before
    /\ map node_row (finish_start plan_dag_nodes)
       = map node_row before
         ++ set_node_status (node_row start_node) "finished" :: map node_row after.
Proof.
  induction plan_dag_nodes as [|node rest IH]; simpl; [discriminate |].
  destruct (is_start node) eqn:Hnode.
  - intros [= <-]. exists [], rest. done.
  - intros Hrest. destruct (IH Hrest) as (before & after & -> & Hbefore & Hrows).
    exists (node :: before), after. simpl. split; [done |].
    split; [by constructor |]. by rewrite Hrows.
Qed.

Section LoaderRows.
Context `{Host}.

(** X6.  [Node_Status] mirrors the plan.  For a plan with a start node,
    loaded into a store that holds no [Node_Status] record yet, the table
    has one row per node of the plan, in the plan's order, each built from
    its node (name, description, edges, the status the file gives or
    [pending], no result, no executor); the one difference is the first
    node named [start], whose row is [finished].  A later node of that
    name is treated like any other node. *)
Theorem load_plandag_node_rows (plan_file : string)
    (plan_dag_nodes : list PlanNode) (mem : Memory) (start_node : PlanNode) :
  find is_start plan_dag_nodes = Some start_node ->
  find (has_key "Node_Status") (data_collection mem) = None ->
  exists before after,
    plan_dag_nodes = before ++ start_node :: after
    /\ Forall (fun node => is_start node = false) before
    /\ get_data_by_key (_load_plandag plan_file plan_dag_nodes mem).2 "Node_Status"
       = PNodes (map node_row before
                 ++ set_node_status (node_row start_node) "finished"
                    :: map node_row after).
Proof.
  intros Hstart Hfresh.
  destruct (finish_start_rows _ _ Hstart) as (before & after & Hplan & Hbefore & Hrows).
  exists before, after. split; [done |]. split; [done |].
  unfold _load_plandag. rewrite (build_tables_start _ _ Hstart). simpl.
  unfold get_data_by_key. simpl.
  rewrite <- app_assoc, find_app_first, Hfresh. simpl. by rewrite Hrows.
Qed.
End LoaderRows.

(** ** Python strings: facts about the helpers *)

Lemma append_cons (a : ascii) (s t : string) :
  String a s +:+ t = String a (s +:+ t).
Proof. reflexivity. Qed.

Lemma append_nil_l (t : string) : "" +:+ t = t.
Proof. reflexivity. Qed.

Lemma append_nil_r (s : string) : s +:+ "" = s.
Proof.
  induction s as [|a s IH]; [done |]. by rewrite append_cons, IH.
Qed.

Lemma append_assoc (s t u : string) : (s +:+ t) +:+ u = s +:+ (t +:+ u).
Proof.
  induction s as [|a s IH]; [done |]. by rewrite !append_cons, IH.
Qed.

Lemma length_append (s t : string) :
  String.length (s +:+ t) = String.length s + String.length t.
Proof.
  induction s as [|a s IH]; [done |]. rewrite append_cons. simpl. by rewrite IH.
Qed.

Lemma rev_app_append (s t : string) : String.rev_app s t = String.rev s +:+ t.
Proof.
  unfold String.rev. revert t.
  induction s as [|a s IH]; intros t; simpl; [done |].
  rewrite (IH (String a t)), (IH (String a "")), append_assoc. done.
Qed.

Lemma rev_cons (a : ascii) (s : string) :
  String.rev (String a s) = String.rev s +:+ String a "".
Proof. unfold String.rev at 1. simpl. apply rev_app_append. Qed.

Lemma rev_append (s t : string) :
  String.rev (s +:+ t) = String.rev t +:+ String.rev s.
Proof.
  induction s as [|a s IH].
  - by rewrite append_nil_l, append_nil_r.
  - by rewrite append_cons, !rev_cons, IH, append_assoc.
Qed.

Lemma rev_rev (s : string) : String.rev (String.rev s) = s.
Proof.
  induction s as [|a s IH]; [done |].
  by rewrite rev_cons, rev_append, IH.
Qed.

Lemma startswith_append (p t : string) : startswith (p +:+ t) p = true.
Proof.
  unfold startswith. induction p as [|a p IH]; [by destruct t |].
  rewrite append_cons. simpl.
  destruct (ascii_dec a a); [done | congruence].
Qed.

Lemma endswith_append (s p : string) : endswith (s +:+ p) p = true.
Proof. unfold endswith. rewrite rev_append. apply startswith_append. Qed.

Lemma drop_str_append (p t : string) : drop_str (String.length p) (p +:+ t) = t.
Proof. induction p as [|a p IH]; [done |]. rewrite append_cons. apply IH. Qed.

Lemma take_str_append (s t : string) : take_str (String.length s) (s +:+ t) = s.
Proof.
  induction s as [|a s IH]; [by destruct t |].
  rewrite append_cons. simpl. by rewrite IH.
Qed.

Lemma drop_last_str_append (s p : string) :
  drop_last_str (String.length p) (s +:+ p) = s.
Proof.
  unfold drop_last_str. rewrite length_append.
  replace (String.length s + String.length p - String.length p)
    with (String.length s) by lia.
  apply take_str_append.
Qed.

(** A response wrapped in the fence is read as the text between the two
    marks. *)
Lemma strip_fence_fenced (body : string) :
  strip_fence ("```json" +:+ body +:+ "```") = body.
Proof.
  unfold strip_fence. rewrite startswith_append.
  change 7 with (String.length "```json"). rewrite drop_str_append.
  rewrite endswith_append. apply (drop_last_str_append body "```").
Qed.

Lemma all_chars_append p (s t : string) :
  all_chars p (s +:+ t) = all_chars p s && all_chars p t.
Proof.
  induction s as [|a s IH]; [done |].
  rewrite append_cons. simpl. by rewrite IH, andb_assoc.
Qed.

Lemma all_chars_rev p (s : string) : all_chars p (String.rev s) = all_chars p s.
Proof.
  induction s as [|a s IH]; [done |].
  rewrite rev_cons, all_chars_append, IH. simpl.
  by rewrite andb_true_r, andb_comm.
Qed.

Lemma uuid_char_no_space c : uuid_char c = true -> py_isspace c = false.
Proof.
  unfold uuid_char, py_isspace. cbv zeta.
  generalize (Ascii.nat_of_ascii c). intros n.
  rewrite !orb_true_iff, !andb_true_iff, !Nat.leb_le, Nat.eqb_eq.
  intros Hn. apply not_true_iff_false.
  rewrite !orb_true_iff, !andb_true_iff, !Nat.leb_le, !Nat.eqb_eq. lia.
Qed.

Lemma lstrip_clean p (s : string) :
  (forall c, p c = true -> py_isspace c = false) ->
  all_chars p s = true -> lstrip s = s.
Proof.
  intros Hp. destruct s as [|c t]; simpl; [done |].
  intros Hall. apply andb_true_iff in Hall as [Hc _].
  by rewrite (Hp c Hc).
Qed.

(** Text made of characters that are no white space is its own
    [strip()]. *)
Lemma strip_clean p (s : string) :
  (forall c, p c = true -> py_isspace c = false) ->
  all_chars p s = true -> strip s = s.
Proof.
  intros Hp Hall. unfold strip.
  rewrite (lstrip_clean p s Hp Hall).
  rewrite (lstrip_clean p (String.rev s) Hp) by (by rewrite all_chars_rev).
  apply rev_rev.
Qed.

Lemma split_last_go_skip sep (passed rest piece : string) :
  split_last_go sep (passed +:+ rest) (String.length passed) piece
  = split_last_go sep rest 0 piece.
Proof.
  induction passed as [|a passed IH]; [done |].
  rewrite append_cons. simpl. apply IH.
Qed.

Lemma split_last_go_clean (a : ascii) (sep' rest piece : string) :
  all_chars (fun c => negb (bool_decide (c = a))) rest = true ->
  split_last_go (String a sep') rest 0 piece = piece.
Proof.
  induction rest as [|c rest IH]; simpl; [done |].
  intros Hall. apply andb_true_iff in Hall as [Hc Hrest].
  apply negb_true_iff, bool_decide_eq_false in Hc.
  unfold startswith. simpl.
  destruct (ascii_dec a c); [congruence | by apply IH].
Qed.

(** [(sep + rest).split(sep)[-1]] is [rest] when the first character of
    [sep] does not occur in [rest]. *)
Lemma split_last_prefixed (a : ascii) (sep' rest : string) :
  all_chars (fun c => negb (bool_decide (c = a))) rest = true ->
  split_last (String a sep' +:+ rest) (String a sep') = rest.
Proof.
  intros Hall. unfold split_last. rewrite append_cons at 1.
  cbn [split_last_go]. rewrite <- append_cons.
  rewrite startswith_append, drop_str_append.
  replace (String.length (String a sep') - 1) with (String.length sep')
    by (simpl; lia).
  rewrite split_last_go_skip. by apply split_last_go_clean.
Qed.

Lemma uuid_text_facts (s : string) :
  uuid_text s ->
  is_empty_str s = false
  /\ strip (split_last (stored_id_prefix +:+ s) stored_id_prefix) = s.
Proof.
  intros [Hlen Hchars]. split; [by destruct s |].
  unfold stored_id_prefix. rewrite split_last_prefixed.
  - by apply (strip_clean uuid_char), Hchars; apply uuid_char_no_space.
  - clear Hlen. induction s as [|c s IH]; [done |]. simpl in *.
    apply andb_true_iff in Hchars as [Hc Hs]. rewrite (IH Hs), andb_true_r.
    apply negb_true_iff, bool_decide_eq_false. intros ->. discriminate.
Qed.

(** ** The worker: answers and plugin calls *)

Section WorkerAnswers.
Context `{JsonCodec} `{Host} `{Collaborators}.

(** X7.  A fenced answer is accepted at the first try.  When the LLM
    wraps its JSON in the fence [```json] ... [```] and the text between
    the marks parses, the worker (not the end node, with at least one
    try) takes the parsed value after this one call, and what it goes on
    to record as the response is the text without the fence. *)
Theorem fenced_answer_is_parsed (max_retry_number : Z) (ex : Executor)
    (body : string) (json_data : json) :
  lower (step_name ex) <> "end" ->
  (0 < max_retry_number)%Z ->
  call_llm (llm_calls_count ex) (conversation_history ex)
  = Ok ("```json" +:+ body +:+ "```") ->
  json_loads body = Some json_data ->
  next_action max_retry_number ex = Ok (json_data, body, count_llm_call ex).
Proof.
  intros Hnot_end Hretry Hcall Hparse. unfold next_action.
  rewrite bool_decide_eq_false_2 by done.
  destruct (Z.to_nat max_retry_number) as [|retries] eqn:Hn; [lia |].
  simpl. rewrite Hcall. simpl. by rewrite strip_fence_fenced, Hparse.
Qed.

Lemma get_code_snippet_stored code plugin_id tsg_name parameters description mem :
  get_code_snippet mem (uuid4 (uuid_draws mem)) = None ->
  get_code_snippet
    (store_code_snippet code plugin_id tsg_name parameters description mem).2
    (uuid4 (uuid_draws mem))
  = Some code.
Proof.
  unfold get_code_snippet, store_code_snippet. simpl.
  rewrite find_app_first.
  destruct (find _ (code_snippets_collection mem)); [discriminate |].
  intros _. simpl. by rewrite bool_decide_eq_true_2.
Qed.

(** X8.  A plugin call that succeeds hands its query to the SQL tool
    unchanged.  The response selects the tool of a plugin; the plugin
    returns a non-empty query (not an error text); the identifier the
    store draws is the text of a UUID and is not yet in use.  Then the
    plugin tool stores the query under that identifier and reports it,
    the loop recovers exactly that identifier from the observation, and
    the follow-up call of [sql_query_tool] runs exactly the query the
    plugin produced, against the default database, with the step's result
    description. *)
Theorem plugin_query_is_run (max_retry_number current_inter : Z)
    (ex asked : Executor) (items kwargs : list (string * json))
    (response name query : string) (plugin : Plugin) :
  next_action max_retry_number (enter_iteration ex current_inter)
  = Ok (JObj items, response, asked) ->
  dict_get_default "action" (JStr "") items = JStr name ->
  startswith name "plugin_" = true ->
  dict_get_default "parameters" (JObj []) items = JObj kwargs ->
  find_tool (tools ex) name = Some (PluginTool plugin) ->
  find_tool (tools ex) "sql_query_tool" = Some SQLQueryTool ->
  plugin_execute plugin kwargs = Ok query ->
  startswith query "Error:" = false ->
  startswith query "Missing required parameter:" = false ->
  is_empty_str query = false ->
  uuid_text (uuid4 (uuid_draws (memory ex))) ->
  get_code_snippet (memory ex) (uuid4 (uuid_draws (memory ex))) = None ->
  let snippet_id := uuid4 (uuid_draws (memory ex)) in
  let stored :=
    (store_code_snippet query (Some (plugin_id plugin)) (Some (source_tsg plugin))
       kwargs (Some ("Query/code generated from TSG " +:+ source_tsg plugin))
       (memory ex)).2 in
  let answer :=
    run_sql_query query JNull
      (JStr ("Result of " +:+ step_name ex +:+ " step execution")) stored in
  let recorded :=
    [{| role := "assistant"; content := response |};
     {| role := "user";
        content := "Observation: " +:+ stored_id_prefix +:+ snippet_id |};
     {| role := "assistant";
        content := json_dumps (sql_follow_up (step_name ex) snippet_id) |};
     {| role := "user"; content := "Observation: " +:+ answer.1 |}] in
  _execute_action (tools ex) name (JObj kwargs) (memory ex)
  = (stored_id_prefix +:+ snippet_id, stored)
  /\ get_code_snippet stored snippet_id = Some query
  /\ _execute_action (tools ex) "sql_query_tool"
       (sql_parameters (step_name ex) snippet_id) stored
     = (answer.1, answer.2)
  /\ exists final,
       react_iteration max_retry_number current_inter ex = Ok (final, None)
       /\ conversation_history final = conversation_history ex ++ recorded
       /\ memory final = answer.2.
Proof.
  intros Hnext Haction Hprefix Hparams Hplugin Hsql Hquery Hno_error Hno_missing
    Hfull Huuid Hfresh. cbv zeta.
  destruct (uuid_text_facts _ Huuid) as [Hid Hcut].
  assert (is_empty_str name = false) as Hname.
  { destruct name; [discriminate | done]. }
  assert (_execute_action (tools ex) name (JObj kwargs) (memory ex)
          = (stored_id_prefix +:+ uuid4 (uuid_draws (memory ex)),
             (store_code_snippet query (Some (plugin_id plugin))
                (Some (source_tsg plugin)) kwargs
                (Some ("Query/code generated from TSG " +:+ source_tsg plugin))
                (memory ex)).2)) as Hfirst.
  { unfold _execute_action. rewrite Hname, Hplugin. simpl.
    unfold PluginTool_execute. by rewrite Hquery, Hno_error, Hno_missing. }
  pose proof (get_code_snippet_stored query (Some (plugin_id plugin))
                (Some (source_tsg plugin)) kwargs
                (Some ("Query/code generated from TSG " +:+ source_tsg plugin))
                (memory ex) Hfresh) as Hstored.
  set (stored := (store_code_snippet query (Some (plugin_id plugin))
                    (Some (source_tsg plugin)) kwargs
                    (Some ("Query/code generated from TSG " +:+ source_tsg plugin))
                    (memory ex)).2) in *.
  assert (_execute_action (tools ex) "sql_query_tool"
            (sql_parameters (step_name ex) (uuid4 (uuid_draws (memory ex)))) stored
          = ((run_sql_query query JNull
                (JStr ("Result of " +:+ step_name ex +:+ " step execution"))
                stored).1,
             (run_sql_query query JNull
                (JStr ("Result of " +:+ step_name ex +:+ " step execution"))
                stored).2)) as Hsecond.
  { unfold _execute_action. simpl is_empty_str. cbv iota. rewrite Hsql.
    simpl. unfold SQLQueryTool_execute. simpl. rewrite Hid. simpl.
    rewrite Hstored. destruct query; [discriminate | done]. }
  split; [done |]. split; [done |]. split; [done |].
  unfold react_iteration. rewrite Hnext. simpl.
  apply next_action_state in Hnext. rewrite Hnext. clear Hnext.
  rewrite Haction, (plugin_action_is_not_finish _ Hprefix), Hparams. simpl.
  rewrite Hprefix, Hfirst. simpl.
  unfold plugin_follow_up. simpl. rewrite Hcut, Hsecond. simpl.
  eexists. split; [done |]. split; [| done].
  unfold _record_observation, _record_response, record_message. simpl.
  rewrite <- !app_assoc. done.
Qed.
End WorkerAnswers.

(** ** Plugins: the timestamps *)

Lemma contains_char_append c (s t : string) :
  contains_char c (s +:+ t) = contains_char c s || contains_char c t.
Proof.
  induction s as [|a s IH]; [done |].
  rewrite append_cons. simpl. by rewrite IH, orb_assoc.
Qed.

Lemma respace_timestamp_append (s t : string) :
  respace_timestamp (s +:+ t) = respace_timestamp s +:+ respace_timestamp t.
Proof.
  induction s as [|a s IH]; [done |].
  rewrite append_cons. simpl. rewrite IH.
  by repeat case_bool_decide.
Qed.

Lemma respace_timestamp_plain (s : string) :
  plain_stamp s -> respace_timestamp s = s.
Proof.
  unfold plain_stamp. induction s as [|a s IH]; simpl; [done |].
  rewrite !orb_false_iff. intros [[HT Hs] [HZ Hs']].
  rewrite HT, HZ, IH; done.
Qed.

Lemma convert_timestamp_iso (date time : string) :
  plain_stamp date -> plain_stamp time ->
  convert_timestamp (JStr (iso_timestamp date time))
  = Ok (JStr (sql_timestamp date time)).
Proof.
  intros Hdate Htime. unfold convert_timestamp, iso_timestamp, sql_timestamp.
  rewrite !contains_char_append. simpl. rewrite orb_true_r.
  rewrite !respace_timestamp_append.
  rewrite (respace_timestamp_plain date Hdate), (respace_timestamp_plain time Htime).
  change (respace_timestamp "T") with " ".
  change (respace_timestamp "Z") with "".
  by rewrite append_nil_r.
Qed.

Lemma dict_get_set_other {A : Type} (k k' : string) (v : A) items :
  k' <> k -> dict_get k' (dict_set k v items) = dict_get k' items.
Proof.
  intros Hother. induction items as [|[k0 v0] rest IH]; simpl.
  - by rewrite bool_decide_eq_false_2.
  - case_bool_decide as Hk; simpl.
    + subst. by rewrite !bool_decide_eq_false_2 by congruence.
    + by rewrite IH.
Qed.

Lemma find_none_of {A : Type} (f : A -> bool) (l : list A) :
  Forall (fun x => f x = false) l -> find f l = None.
Proof.
  induction 1 as [|x l Hx _ IH]; simpl; [done |]. by rewrite Hx.
Qed.

(** X9.  A plugin called with every parameter it requires, and with ISO
    timestamps [dateTtimeZ] for [start_time] and [end_time], fills its
    template with the parameters as given except that the two timestamps
    read [date time]: the [T] becomes a blank and the [Z] is dropped.  The
    result of the call is whatever the template gives for them. *)
Theorem plugin_fills_template (plugin : Plugin) (kwargs : list (string * json))
    (start_date start_clock end_date end_clock : string) :
  Forall (fun param => has_param param kwargs = true) (required_params plugin) ->
  dict_get "start_time" kwargs = Some (JStr (iso_timestamp start_date start_clock)) ->
  dict_get "end_time" kwargs = Some (JStr (iso_timestamp end_date end_clock)) ->
  plain_stamp start_date -> plain_stamp start_clock ->
  plain_stamp end_date -> plain_stamp end_clock ->
  plugin_execute plugin kwargs
  = template_format plugin
      (dict_set "end_time" (JStr (sql_timestamp end_date end_clock))
         (dict_set "start_time" (JStr (sql_timestamp start_date start_clock))
            kwargs)).
Proof.
  intros Hall Hstart Hend Hsd Hsc Hed Hec. unfold plugin_execute.
  rewrite find_none_of.
  - unfold convert_param. rewrite Hstart.
    rewrite convert_timestamp_iso by done. simpl.
    rewrite dict_get_set_other by done. rewrite Hend.
    rewrite convert_timestamp_iso by done. done.
  - eapply Forall_impl; [exact Hall |]. intros param ->. done.
Qed.

(** ** The worker: [finish_step] *)

Section WorkerFinish.
Context `{JsonCodec} `{Host} `{Collaborators}.

(** X10.  [finish_step] ends the step at once and runs no tool.  In
    whatever iteration under the cap the response selects [finish_step]
    with a dict of parameters (whose [set_edge_status] has a length),
    [execute_step] records the response, executes nothing (the store is
    as it was, no observation is recorded) and returns the verdict made
    of the parameters, unchecked: [result], [status] and [set_edge_status]
    as given, ["Step completed"], ["completed"] and [{}] where they are
    missing, and the no-finish verdict when [result] is [null]. *)
Theorem finish_step_verdict (system_prompt context : string)
    (max_retry_number max_iterations : Z) (ex : Executor) (passed : nat)
    (before asked : Executor) (items parameters : list (string * json))
    (response : string) :
  (Z.of_nat passed < max_iterations - 1)%Z ->
  react_loop passed max_retry_number 1 (start_step ex system_prompt context)
  = Ok (before, None) ->
  next_action max_retry_number (enter_iteration before (1 + Z.of_nat passed))
  = Ok (JObj items, response, asked) ->
  dict_get_default "action" (JStr "") items = JStr "finish_step" ->
  dict_get_default "parameters" (JObj []) items = JObj parameters ->
  sized (dict_get_default "set_edge_status" (JObj []) parameters) = true ->
  exists final,
    execute_step system_prompt context max_retry_number max_iterations ex
    = Ok (finish_verdict (step_name ex) parameters, final)
    /\ conversation_history final
       = conversation_history before
         ++ [{| role := "assistant"; content := response |}]
    /\ memory final = memory before
    /\ llm_calls_count final = llm_calls_count asked.
Proof.
  intros Hpassed Hbefore Hnext Haction Hparams Hsized.
  unfold execute_step.
  replace (Z.to_nat (max_iterations - 1))
    with (passed + S (Z.to_nat (max_iterations - 1) - S passed)) by lia.
  rewrite react_loop_split, Hbefore. simpl.
  unfold react_iteration. rewrite Hnext. simpl.
  apply next_action_state in Hnext. rewrite Hnext. clear Hnext.
  rewrite Haction, Hparams. simpl. rewrite Hsized. simpl.
  assert (forall finish_step_name,
            final_output finish_step_name
              (Some {| step_result :=
                         dict_get_default "result" (JStr "Step completed") parameters;
                       step_status :=
                         dict_get_default "status" (JStr "completed") parameters;
                       set_edge_status :=
                         dict_get_default "set_edge_status" (JObj []) parameters |})
            = finish_verdict finish_step_name parameters) as ->.
  { intros finish_step_name. unfold final_output, finish_verdict. simpl.
    by destruct (dict_get_default "result" _ parameters). }
  eexists. split; [reflexivity | done].
Qed.
End WorkerFinish.

(** ** Memory: identifiers and keys *)

Lemma find_app_fresh {A : Type} (f : A -> bool) (l : list A) (x : A) :
  find f (l ++ [x])
  = match find f l with
    | Some y => Some y
    | None => if f x then Some x else None
    end.
Proof. rewrite find_app_first. simpl. done. Qed.

Lemma find_filter_other {A : Type} (f g : A -> bool) (l : list A) :
  (forall x, f x = true -> g x = false) ->
  find f (filter (fun x => g x = false) l) = find f l.
Proof.
  intros Hfg. induction l as [|a l IH]; [done |].
  rewrite filter_cons. case_decide as Hg; simpl.
  - by rewrite IH.
  - destruct (f a) eqn:Hf; [| done]. apply Hfg in Hf. congruence.
Qed.

Lemma has_key_one key key' doc :
  has_key key' doc = true -> key' <> key -> has_key key doc = false.
Proof.
  unfold has_key. destruct (dict_get "key" (d_metadata doc)) as [v|]; [| done].
  intros Hv Hother. apply json_is_str_true in Hv as ->. simpl.
  by apply bool_decide_eq_false.
Qed.

Section MemoryIdentifiers.
Context `{Host}.

(** X11.  What is stored comes back under its identifier.  For a
    payload that is no data frame, and an identifier drawn that is not yet
    in use: [get_data] with the identifier [add_data] returned gives the
    payload, and every other identifier reads as before. *)
Theorem add_data_then_get_data (data : payload) (data_type : string)
    (agent_id : option string) (metadata : option (list (string * json)))
    (description : option string) (mem : Memory) :
  is_dataframe data = false ->
  find (fun doc => bool_decide (d_id doc = uuid4 (uuid_draws mem)))
       (data_collection mem) = None ->
  let stored := add_data data data_type agent_id metadata description mem in
  get_data stored.2 stored.1 = data
  /\ forall other, other <> stored.1 -> get_data stored.2 other = get_data mem other.
Proof.
  intros Hinline Hfresh. cbv zeta. rewrite add_data_inline by done. simpl.
  unfold get_data. simpl. split.
  - rewrite find_app_fresh, Hfresh. simpl. by rewrite bool_decide_eq_true_2.
  - intros other Hother. rewrite find_app_fresh. clear Hfresh.
    destruct (find _ (data_collection mem)) as [doc|]; [done |].
    simpl. by rewrite bool_decide_eq_false_2 by congruence.
Qed.

(** X12.  The same for code snippets: the identifier
    [store_code_snippet] returns reads the code just stored, every other
    identifier reads as before, and the data of the store is not
    touched. *)
Theorem store_code_snippet_then_get (code : string)
    (plugin_id tsg_name : option string) (parameters : list (string * json))
    (description : option string) (mem : Memory) :
  get_code_snippet mem (uuid4 (uuid_draws mem)) = None ->
  let stored := store_code_snippet code plugin_id tsg_name parameters description mem in
  get_code_snippet stored.2 stored.1 = Some code
  /\ (forall other, other <> stored.1 ->
        get_code_snippet stored.2 other = get_code_snippet mem other)
  /\ data_collection stored.2 = data_collection mem
  /\ dataframes_collection stored.2 = dataframes_collection mem.
Proof.
  intros Hfresh. cbv zeta. split; [by apply get_code_snippet_stored |].
  split; [| done]. intros other Hother. clear Hfresh. simpl in Hother.
  unfold get_code_snippet, store_code_snippet. simpl.
  rewrite find_app_fresh.
  destruct (find _ (code_snippets_collection mem)) as [doc|]; [done |].
  simpl. by rewrite bool_decide_eq_false_2 by congruence.
Qed.

(** X13.  [add_data] never replaces.  After [add_data] of a payload that
    is no data frame, a key that was in the store before still reads what
    it read before, even when the new record carries the same key; a key
    that was not in the store reads the new payload when the new record
    carries it, and nothing otherwise. *)
Theorem add_data_keeps_keys (data : payload) (data_type : string)
    (agent_id : option string) (metadata : list (string * json))
    (description : option string) (mem : Memory) (key : string) :
  is_dataframe data = false ->
  get_data_by_key
    (add_data data data_type agent_id (Some metadata) description mem).2 key
  = match find (has_key key) (data_collection mem) with
    | Some _ => get_data_by_key mem key
    | None =>
        match dict_get "key" metadata with
        | Some (JStr key') => if bool_decide (key' = key) then data else py_None
        | _ => py_None
        end
    end.
Proof.
  intros Hinline. rewrite add_data_inline by done.
  unfold get_data_by_key. simpl. rewrite find_app_fresh.
  destruct (find (has_key key) (data_collection mem)) as [doc|]; [done |].
  unfold has_key. simpl.
  destruct (dict_get "key" metadata) as [[| | |key'| |]|]; simpl; try done.
  by case_bool_decide.
Qed.

(** After [update_data_by_key], what the key and the other keys read. *)
Lemma get_after_update (key : string) (data : payload)
    (data_type description : option string) (mem : Memory) :
  is_dataframe data = false ->
  get_data_by_key (update_data_by_key key data data_type description mem).2 key
  = data.
Proof.
  intros Hinline. unfold update_data_by_key, get_data_by_key.
  destruct (find (has_key key) (data_collection mem)) as [existing|] eqn:Hfind;
    rewrite add_data_inline by done; simpl; rewrite find_app_first.
  - rewrite find_filtered_out. simpl. by rewrite has_key_fresh_doc.
  - rewrite Hfind. simpl. by rewrite has_key_fresh_doc.
Qed.

Lemma get_after_update_other (key other : string) (data : payload)
    (data_type description : option string) (mem : Memory) :
  is_dataframe data = false ->
  other <> key ->
  get_data_by_key (update_data_by_key key data data_type description mem).2 other
  = get_data_by_key mem other.
Proof.
  intros Hinline Hother. unfold update_data_by_key.
  destruct (find (has_key key) (data_collection mem)) as [existing|];
    rewrite add_data_inline by done; unfold get_data_by_key; simpl;
    rewrite find_app_fresh.
  - rewrite find_filter_other
      by (intros doc Hdoc; by apply (has_key_one key other)).
    destruct (find (has_key other) (data_collection mem)) as [doc|]; [done |].
    rewrite (has_key_one other key); [done | apply has_key_fresh_doc | done].
  - destruct (find (has_key other) (data_collection mem)) as [doc|]; [done |].
    rewrite (has_key_one other key); [done | apply has_key_fresh_doc | done].
Qed.

(** X14.  Updating one key leaves the others alone: after
    [update_data_by_key key] with a payload that is no data frame, every
    other key reads what it read before. *)
Theorem update_by_key_keeps_other_keys (key other : string) (data : payload)
    (data_type description : option string) (mem : Memory) :
  is_dataframe data = false ->
  other <> key ->
  get_data_by_key (update_data_by_key key data data_type description mem).2 other
  = get_data_by_key mem other.
Proof. apply get_after_update_other. Qed.
End MemoryIdentifiers.

(** ** The configuration *)

Lemma split_on_plain c (s : string) :
  contains_char c s = false -> split_on c s = [s].
Proof.
  induction s as [|a s IH]; simpl; [done |].
  rewrite orb_false_iff. intros [Ha Hs]. rewrite Ha, (IH Hs). done.
Qed.

Lemma split_on_cons c (s : string) :
  exists piece pieces, split_on c s = piece :: pieces.
Proof.
  induction s as [|a s (piece & pieces & IH)]; simpl; [by eexists _, _ |].
  case_bool_decide; [by eexists _, _ |]. rewrite IH. by eexists _, _.
Qed.

(** [(s + c + t).split(c)] is [s.split(c) + t.split(c)]. *)
Lemma split_on_append c (s t : string) :
  split_on c (s +:+ String c t) = split_on c s ++ split_on c t.
Proof.
  induction s as [|a s IH].
  - rewrite append_nil_l. simpl. by rewrite bool_decide_eq_true_2.
  - rewrite append_cons. simpl. case_bool_decide; [by rewrite IH |].
    rewrite IH. by destruct (split_on_cons c s) as (piece & pieces & ->).
Qed.

Lemma config_walk_app (first rest : list string) (value : json) :
  config_walk (first ++ rest) value
  = match config_walk first value with
    | Some inner => config_walk rest inner
    | None => None
    end.
Proof.
  revert value. induction first as [|part first IH]; intros value; simpl; [done |].
  destruct value as [| | | | |items]; try done.
  by destruct (dict_get part items).
Qed.

(** X15.  The two ways the code reads a setting agree.  Reading a
    section with [get_section] and then a key of it with the dict's
    [get(key, default)] gives what [get] gives for the dotted path
    [section.key], whenever the section read is a dict (as it is when the
    section is missing: [get_section] then returns [{}]) and the key holds
    no dot.  In particular a setting whose section is missing reads as its
    default either way. *)
Theorem config_section_then_key (_config : json) (section_path key : string)
    (default : json) (section : list (string * json)) :
  contains_char "." key = false ->
  get_section _config section_path = JObj section ->
  json_get (get_section _config section_path) key default
  = Ok (ConfigLoader_get _config (section_path +:+ "." +:+ key) default).
Proof.
  intros Hkey Hsection. rewrite Hsection. simpl. f_equal.
  revert Hsection. unfold get_section, ConfigLoader_get.
  destruct (truthy _config); simpl.
  - change ("." +:+ key) with (String "." key).
    rewrite split_on_append, config_walk_app, (split_on_plain _ _ Hkey).
    destruct (config_walk (split_on "." section_path) _config) as [inner|]; simpl.
    + intros ->. unfold dict_get_default. by destruct (dict_get key section).
    + by intros [= <-].
  - by intros [= <-].
Qed.

(** ** The name of a TSG *)

Lemma split_on_head c (s t : string) :
  contains_char c s = false ->
  split_on c (s +:+ String c t) = s :: split_on c t.
Proof.
  intros Hs. by rewrite split_on_append, (split_on_plain _ _ Hs).
Qed.

Lemma endswith_plugin_references (stem : string) :
  endswith (stem +:+ "_WITH_PLUGIN_REFERENCES") "_WITH_REFERENCES" = false.
Proof.
  unfold endswith, startswith. rewrite rev_append.
  change (String.rev "_WITH_PLUGIN_REFERENCES") with "SECNEREFER_NIGULP_HTIW_".
  change (String.rev "_WITH_REFERENCES") with "SECNEREFER_HTIW_".
  rewrite !append_cons. reflexivity.
Qed.

(** X16.  The ways of naming a TSG file lead to the same TSG.  For a
    stem without a dot and any extension, the files
    [stem_WITH_REFERENCES.ext] and [stem_WITH_PLUGIN_REFERENCES.ext] have
    the base name [stem]; so has the plain file [stem.ext] when its stem
    does not itself end in one of the two suffixes. *)
Theorem base_tsg_name_of_references (stem ext : string) :
  contains_char "." stem = false ->
  _get_base_tsg_name (stem +:+ "_WITH_REFERENCES" +:+ "." +:+ ext) = stem
  /\ _get_base_tsg_name (stem +:+ "_WITH_PLUGIN_REFERENCES" +:+ "." +:+ ext) = stem
  /\ (endswith stem "_WITH_REFERENCES" = false ->
      endswith stem "_WITH_PLUGIN_REFERENCES" = false ->
      _get_base_tsg_name (stem +:+ "." +:+ ext) = stem).
Proof.
  intros Hstem. unfold _get_base_tsg_name.
  split; [| split].
  - rewrite <- append_assoc. change ("." +:+ ext) with (String "." ext).
    rewrite split_on_head
      by (rewrite contains_char_append, Hstem; reflexivity).
    rewrite endswith_append. apply drop_last_str_append.
  - rewrite <- append_assoc. change ("." +:+ ext) with (String "." ext).
    rewrite split_on_head
      by (rewrite contains_char_append, Hstem; reflexivity).
    rewrite endswith_plugin_references, endswith_append.
    apply drop_last_str_append.
  - intros Hplain Hplugin. change ("." +:+ ext) with (String "." ext).
    rewrite split_on_head by done. by rewrite Hplain, Hplugin.
Qed.

(** ** The agents' contexts *)

Lemma find_agent_push agents_collection agent_id entry agent :
  find_agent agents_collection agent_id = Some agent ->
  find_agent (push_context agent_id entry agents_collection) agent_id
  = Some {| a_id := a_id agent; a_name := a_name agent;
            a_conversation_history := a_conversation_history agent ++ [entry] |}.
Proof.
  unfold find_agent.
  induction agents_collection as [|doc rest IH]; simpl; [discriminate |].
  case_bool_decide as Hid; simpl.
  - intros [= <-]. by rewrite bool_decide_eq_true_2.
  - intros Hrest. rewrite bool_decide_eq_false_2 by done. by apply IH.
Qed.

Lemma find_agent_push_other agents_collection agent_id entry other :
  other <> agent_id ->
  find_agent (push_context agent_id entry agents_collection) other
  = find_agent agents_collection other.
Proof.
  intros Hother. unfold find_agent.
  induction agents_collection as [|doc rest IH]; simpl; [done |].
  case_bool_decide as Hid; simpl.
  - by rewrite !bool_decide_eq_false_2 by congruence.
  - by rewrite IH.
Qed.

(** X17.  A message registered for an agent is read back.  For an agent
    that is registered, [register_conversation_message] succeeds, the
    messages [get_agent_context] returns for the agent (no limit,
    [message_only]) are those it returned before followed by the new
    message, and the context of every other agent is what it was.  For an
    identifier that is not registered the call raises [ValueError] with
    the text [Agent ID ... not registered]. *)
Theorem conversation_message_round_trip (timestamp agent_id : string)
    (message : Message) (agents_collection : list AgentDoc) :
  agent_id <> "" ->
  (forall agent, find_agent agents_collection agent_id = Some agent ->
     exists agents' old,
       register_conversation_message timestamp agent_id message agents_collection
       = Ok agents'
       /\ get_agent_context agents_collection agent_id None true = Ok (Messages old)
       /\ get_agent_context agents' agent_id None true
          = Ok (Messages (old ++ [message_json message]))
       /\ forall other limit message_only, other <> agent_id ->
            get_agent_context agents' other limit message_only
            = get_agent_context agents_collection other limit message_only)
  /\ (find_agent agents_collection agent_id = None ->
      register_conversation_message timestamp agent_id message agents_collection
      = Raise (ValueError ("Agent ID " +:+ agent_id +:+ " not registered"))).
Proof.
  intros Hid. apply is_empty_str_false in Hid.
  unfold register_conversation_message, add_agent_context. rewrite Hid.
  split.
  - intros agent Hagent. rewrite Hagent. eexists _, _.
    split; [done |]. unfold get_agent_context.
    rewrite Hagent, (find_agent_push _ _ _ _ Hagent). simpl.
    split; [done |]. split.
    + rewrite filter_app, map_app. do 2 f_equal.
    + intros other limit message_only Hother.
      by rewrite find_agent_push_other.
  - by intros ->.
Qed.

Lemma limited_nil {A : Type} (limit : option Z) : limited limit (@nil A) = [].
Proof.
  destruct limit as [k|]; simpl; [| done].
  destruct (Z.eqb k 0); [done |]. unfold last_items. by rewrite drop_nil.
Qed.

Section AgentRegistry.
Context `{Host}.

(** X18.  An agent that [register_agent] has registered has a context,
    and it is empty; the contexts of the other agents are what they were.
    The identifier is then in use: registering it again is refused.  A
    first message registered for the agent is the whole of the messages
    read back. *)
Theorem register_agent_then_context (agent_name : string)
    (agent_id : option string) (draws : nat) (agents_collection : list AgentDoc)
    (new_id : string) (draws' : nat) (agents' : list AgentDoc) :
  register_agent agent_name agent_id draws agents_collection
  = Ok (new_id, draws', agents') ->
  (forall limit,
     get_agent_context agents' new_id limit true = Ok (Messages [])
     /\ get_agent_context agents' new_id limit false = Ok (Entries []))
  /\ (forall other limit message_only, other <> new_id ->
        get_agent_context agents' other limit message_only
        = get_agent_context agents_collection other limit message_only)
  /\ (forall other_name further,
        register_agent other_name (Some new_id) further agents'
        = Raise (ExternalError "DuplicateKeyError"))
  /\ (forall timestamp message, new_id <> "" ->
        exists agents'',
          register_conversation_message timestamp new_id message agents'
          = Ok agents''
          /\ get_agent_context agents'' new_id None true
             = Ok (Messages [message_json message])).
Proof.
  unfold register_agent.
  destruct (match agent_id with
            | Some given => (given, draws)
            | None => (uuid4 draws, S draws)
            end) as [chosen drawn].
  destruct (find_agent agents_collection chosen) eqn:Hfree; [discriminate |].
  intros [= <- <- <-].
  set (doc := {| a_id := chosen; a_name := agent_name;
                 a_conversation_history := [] |}).
  assert (find_agent (agents_collection ++ [doc]) chosen = Some doc) as Hdoc.
  { unfold find_agent in *. rewrite find_app_fresh, Hfree. simpl.
    by rewrite bool_decide_eq_true_2. }
  split; [| split; [| split]].
  - intros limit. unfold get_agent_context. rewrite Hdoc. simpl.
    by rewrite !limited_nil.
  - intros other limit message_only Hother. unfold get_agent_context.
    assert (find_agent (agents_collection ++ [doc]) other
            = find_agent agents_collection other) as ->; [| done].
    unfold find_agent. rewrite find_app_fresh. simpl.
    rewrite bool_decide_eq_false_2 by congruence. by destruct (find _ _).
  - intros other_name further. by rewrite Hdoc.
  - intros timestamp message Hid. apply is_empty_str_false in Hid.
    unfold register_conversation_message, add_agent_context.
    rewrite Hid, Hdoc. eexists. split; [done |].
    unfold get_agent_context. by rewrite (find_agent_push _ _ _ _ Hdoc).
Qed.
End AgentRegistry.

(** ** File names *)

Lemma replace_char_length old new s :
  String.length (replace_char old new s) = String.length s.
Proof. induction s as [|c t IH]; simpl; [done | by rewrite IH]. Qed.

Lemma replace_char_absent old new s :
  contains_char old s = false -> replace_char old new s = s.
Proof.
  induction s as [|c t IH]; simpl; [done |].
  intros [Hc Ht]%orb_false_iff. apply bool_decide_eq_false in Hc.
  rewrite (proj2 (Ascii.eqb_neq c old)) by done. by rewrite IH.
Qed.

Lemma replace_char_gone old new s :
  new <> old -> contains_char old (replace_char old new s) = false.
Proof.
  intros Hnew. induction s as [|c t IH]; simpl; [done |].
  rewrite IH, orb_false_r.
  destruct (Ascii.eqb_spec c old); by apply bool_decide_eq_false.
Qed.

Lemma replace_char_keeps_out old new c s :
  new <> c -> contains_char c s = false ->
  contains_char c (replace_char old new s) = false.
Proof.
  intros Hnew. induction s as [|c' t IH]; simpl; [done |].
  intros [Hc Ht]%orb_false_iff. rewrite (IH Ht), orb_false_r.
  apply bool_decide_eq_false in Hc. apply bool_decide_eq_false.
  by destruct (Ascii.eqb c' old).
Qed.

Lemma replace_chars_length new olds s :
  String.length (fold_left (fun name char => replace_char char new name) olds s)
  = String.length s.
Proof.
  revert s. induction olds as [|old rest IH]; intros s; simpl; [done |].
  by rewrite IH, replace_char_length.
Qed.

Lemma replace_chars_keep_out new olds c s :
  new <> c -> contains_char c s = false ->
  contains_char c (fold_left (fun name char => replace_char char new name) olds s)
  = false.
Proof.
  intros Hnew. revert s. induction olds as [|old rest IH]; intros s Hs; simpl;
    [done |].
  apply IH. by apply replace_char_keeps_out.
Qed.

Lemma replace_chars_gone new olds c s :
  new ∉ olds -> c ∈ olds ->
  contains_char c (fold_left (fun name char => replace_char char new name) olds s)
  = false.
Proof.
  revert s. induction olds as [|old rest IH]; intros s Hnew Hc; simpl.
  - by apply elem_of_nil in Hc.
  - apply not_elem_of_cons in Hnew as [Hold Hrest].
    destruct (decide (c = old)) as [-> | Hother].
    + apply replace_chars_keep_out; [done |]. by apply replace_char_gone.
    + apply IH; [done |]. by apply elem_of_cons in Hc as [? | ?].
Qed.

Lemma replace_chars_absent new olds s :
  (forall c, c ∈ olds -> contains_char c s = false) ->
  fold_left (fun name char => replace_char char new name) olds s = s.
Proof.
  revert s. induction olds as [|old rest IH]; intros s Hs; simpl; [done |].
  rewrite replace_char_absent by (apply Hs, list_elem_of_here).
  apply IH. intros c Hc. by apply Hs, list_elem_of_further.
Qed.

(** X19.  [_sanitize_filename] returns a name as long as the one it is
    given, in which none of the nine characters of [invalid_chars] is
    left; a name that has none of them is returned as it is. *)
Theorem sanitize_filename_clean (filename : string) :
  String.length (_sanitize_filename filename) = String.length filename
  /\ (forall c, c ∈ invalid_chars ->
        contains_char c (_sanitize_filename filename) = false)
  /\ ((forall c, c ∈ invalid_chars -> contains_char c filename = false) ->
      _sanitize_filename filename = filename).
Proof.
  unfold _sanitize_filename. split; [apply replace_chars_length |]. split.
  - intros c Hc. apply replace_chars_gone; [| done].
    unfold invalid_chars. rewrite !not_elem_of_cons. repeat split; try done.
    apply not_elem_of_nil.
  - apply replace_chars_absent.
Qed.

(** ** Sections of a text and search *)

(** ['\n'.join(s.split('\n'))] is [s]. *)
Lemma join_lines_of (data : string) : join newline (lines_of data) = data.
Proof.
  unfold lines_of. induction data as [|a data IH]; [done |].
  cbn [split_on].
  destruct (split_on_cons (Ascii.ascii_of_nat 10) data) as (piece & pieces & Hsplit).
  rewrite Hsplit in *. case_bool_decide as Ha.
  - change (join newline ("" :: piece :: pieces))
      with ("" +:+ newline +:+ join newline (piece :: pieces)).
    rewrite IH, append_nil_l. subst a. reflexivity.
  - destruct pieces as [|next pieces].
    + simpl in *. by rewrite IH.
    + change (join newline (String a piece :: next :: pieces))
        with (String a piece +:+ newline +:+ join newline (next :: pieces)).
      change (join newline (piece :: next :: pieces))
        with (piece +:+ newline +:+ join newline (next :: pieces)) in IH.
      by rewrite append_cons, IH.
Qed.

Lemma py_slice_window {A : Type} (l : list A) (start count : Z) :
  (0 <= start)%Z -> (0 <= count)%Z ->
  py_slice start (Z.min (start + count) (Z.of_nat (length l))) l
  = take (Z.to_nat count) (drop (Z.to_nat start) l).
Proof.
  intros Hstart Hcount. unfold py_slice, slice_bound. cbv zeta.
  rewrite (proj2 (Z.ltb_ge start 0)) by lia.
  rewrite (proj2 (Z.ltb_ge (Z.min _ _) 0)) by lia.
  destruct (decide (Z.of_nat (length l) <= start)%Z) as [Hout | Hin].
  - rewrite !drop_ge by lia. by rewrite !take_nil.
  - rewrite (Z.min_l start) by lia.
    destruct (decide (start + count <= Z.of_nat (length l))%Z).
    + f_equal. lia.
    + rewrite !take_ge; [done | |]; rewrite length_drop; lia.
Qed.

Section TextSections.
Context `{Host} `{Pandas}.

(** X20.  Reading a section of a stored text.  For a start line inside
    the text and a count that is not negative, [get_data_section] answers
    with a header and the lines [start_line] to [start_line + num_lines]
    (at most to the end), joined as they were; from line 0 with a count
    that covers the text it gives back the text itself, character for
    character; and for a start line at or beyond the number of lines it
    answers with the error text. *)
Theorem get_data_section_text (mem : Memory) (data_id data : string)
    (start_line num_lines : Z) :
  holds_text mem data_id data ->
  let total_lines := Z.of_nat (length (lines_of data)) in
  let header (last : Z) :=
    "Lines " +:+ pretty (start_line + 1)%Z +:+ "-" +:+ pretty last
    +:+ " of " +:+ pretty total_lines +:+ " from data " +:+ data_id +:+ ":"
    +:+ newline +:+ newline in
  ((0 <= start_line < total_lines)%Z -> (0 <= num_lines)%Z ->
   get_data_section mem data_id start_line num_lines
   = header (Z.min (start_line + num_lines) total_lines)
     +:+ join newline
           (take (Z.to_nat num_lines) (drop (Z.to_nat start_line) (lines_of data))))
  /\ (start_line = 0%Z -> (total_lines <= num_lines)%Z ->
      get_data_section mem data_id start_line num_lines
      = header total_lines +:+ data)
  /\ ((total_lines <= start_line)%Z ->
      get_data_section mem data_id start_line num_lines
      = "Error: Start line " +:+ pretty start_line +:+ " exceeds total lines "
        +:+ pretty total_lines).
Proof.
  intros (data_doc & Hfind & Hinline & Hdata). cbv zeta.
  unfold get_data_section. rewrite Hfind, Hinline, Hdata.
  unfold text_section. fold (lines_of data).
  assert (0 < Z.of_nat (length (lines_of data)))%Z as Hsome.
  { unfold lines_of.
    destruct (split_on_cons (Ascii.ascii_of_nat 10) data) as (? & ? & ->).
    simpl. lia. }
  split; [| split].
  - intros Hstart Hcount.
    rewrite (proj2 (Z.leb_gt _ _)) by lia.
    rewrite py_slice_window by lia.
    by rewrite !append_assoc.
  - intros -> Hall.
    rewrite (proj2 (Z.leb_gt _ _)) by lia.
    rewrite py_slice_window by lia.
    rewrite Z.min_r by lia. change (Z.to_nat 0) with 0. rewrite drop_0.
    rewrite take_ge by lia. rewrite join_lines_of.
    by rewrite !append_assoc.
  - intros Hout. by rewrite (proj2 (Z.leb_le _ _)) by lia.
Qed.
End TextSections.

Lemma startswith_nil (s : string) : startswith s "" = true.
Proof. by destruct s. Qed.

(** A term without a line feed starts a text exactly when it starts the
    first line of the text. *)
Lemma startswith_first_line (term s piece : string) (pieces : list string) :
  contains_char (Ascii.ascii_of_nat 10) term = false ->
  split_on (Ascii.ascii_of_nat 10) s = piece :: pieces ->
  startswith s term = startswith piece term.
Proof.
  revert term piece pieces.
  induction s as [|a s IH]; intros term piece pieces Hterm; simpl.
  - by intros [= <- <-].
  - destruct (split_on_cons (Ascii.ascii_of_nat 10) s) as (p & ps & Hsplit).
    rewrite Hsplit.
    destruct term as [|b term]; [intros _; by rewrite !startswith_nil |].
    simpl in Hterm. apply orb_false_iff in Hterm as [Hb Hterm].
    apply bool_decide_eq_false in Hb.
    case_bool_decide as Ha; intros [= <- <-]; unfold startswith; simpl.
    + destruct (ascii_dec b a); [congruence | done].
    + destruct (ascii_dec b a); [| done]. by apply (IH term p ps).
Qed.

(** A term without a line feed occurs in a text exactly when it occurs
    in one of its lines. *)
Lemma contains_str_lines (term data : string) :
  contains_char (Ascii.ascii_of_nat 10) term = false ->
  contains_str term data = existsb (contains_str term) (lines_of data).
Proof.
  intros Hterm. unfold lines_of.
  induction data as [|a data IH]; [simpl; by rewrite !orb_false_r |].
  cbn [contains_str].
  destruct (split_on_cons (Ascii.ascii_of_nat 10) (String a data))
    as (piece & pieces & Hsplit).
  rewrite (startswith_first_line term _ piece pieces Hterm Hsplit).
  rewrite IH. clear IH. revert Hsplit. cbn [split_on].
  destruct (split_on_cons (Ascii.ascii_of_nat 10) data) as (p & ps & ->).
  case_bool_decide; intros [= <- <-].
  - cbn [existsb contains_str]. by rewrite orb_false_r.
  - cbn [existsb contains_str]. by rewrite orb_assoc.
Qed.

Lemma matching_lines_count (i : nat) (term : string) (lines : list string) :
  length (matching_lines_from i term lines)
  = length (filter (fun line => contains_str term line = true) lines).
Proof.
  revert i. induction lines as [|line rest IH]; intros i; simpl; [done |].
  rewrite filter_cons. destruct (contains_str term line) eqn:Hline.
  - rewrite decide_True by done. simpl. by rewrite IH.
  - rewrite decide_False by done. apply IH.
Qed.

Lemma filter_existsb {A : Type} (f : A -> bool) (l : list A) :
  existsb f l = false <-> filter (fun x => f x = true) l = [].
Proof.
  induction l as [|a l IH]; simpl; [done |].
  rewrite filter_cons. case_decide as Hfa.
  - rewrite Hfa. simpl. split; discriminate.
  - apply not_true_is_false in Hfa. rewrite Hfa. simpl. done.
Qed.

(** A loop that only appends to its text keeps what the text began
    with. *)
Lemma fold_left_appends {A : Type} (piece : A -> string) (l : list A)
    (init : string) :
  exists rest, fold_left (fun text x => text +:+ piece x) l init = init +:+ rest.
Proof.
  revert init. induction l as [|x l IH]; intros init; simpl.
  - exists "". by rewrite append_nil_r.
  - destruct (IH (init +:+ piece x)) as (rest & ->).
    exists (piece x +:+ rest). by rewrite append_assoc.
Qed.

Section TextSearch.
Context `{Host} `{Pandas}.

(** X21.  Searching a stored text finds a term exactly when the text
    holds it.  For a search term without a line feed: when the term does
    not occur in the text, [search_data] answers [No matches found ...];
    when it occurs, the answer begins [Found n matches ...], where [n] is
    the number of lines of the text that hold the term, and [n] is at
    least 1. *)
Theorem search_data_text (mem : Memory) (data_id data search_term : string) :
  holds_text mem data_id data ->
  contains_char (Ascii.ascii_of_nat 10) search_term = false ->
  let found :=
    filter (fun line => contains_str search_term line = true) (lines_of data) in
  (contains_str search_term data = false ->
   search_data mem data_id search_term
   = "No matches found for '" +:+ search_term +:+ "' in data " +:+ data_id)
  /\ (contains_str search_term data = true ->
      0 < length found
      /\ exists listing,
           search_data mem data_id search_term
           = "Found " +:+ pretty (length found) +:+ " matches for '"
             +:+ search_term +:+ "' in data " +:+ data_id +:+ ":"
             +:+ newline +:+ newline +:+ listing).
Proof.
  intros (data_doc & Hfind & Hinline & Hdata) Hterm. cbv zeta.
  unfold search_data. rewrite Hfind, Hinline, Hdata.
  unfold text_search. fold (lines_of data).
  pose proof (matching_lines_count 0 search_term (lines_of data)) as Hcount.
  rewrite (contains_str_lines _ _ Hterm).
  split.
  - intros Hnone. apply filter_existsb in Hnone. rewrite Hnone in Hcount.
    by destruct (matching_lines_from 0 search_term (lines_of data)).
  - intros Hsome.
    assert (0 < length (filter (fun line => contains_str search_term line = true)
                          (lines_of data))) as Hpos.
    { destruct (filter _ (lines_of data)) eqn:Hfilter; [| simpl; lia].
      apply filter_existsb in Hfilter. congruence. }
    split; [done |]. rewrite <- Hcount in *.
    destruct (matching_lines_from 0 search_term (lines_of data))
      as [|first others] eqn:Hlines; [simpl in Hpos; lia |].
    rewrite <- Hlines. clear Hlines.
    set (matching_lines := matching_lines_from 0 search_term (lines_of data)).
    destruct (fold_left_appends
                (fun found : nat * string =>
                   "Line " +:+ pretty (S found.1) +:+ ": " +:+ found.2 +:+ newline)
                (take 10 matching_lines)
                ("Found " +:+ pretty (length matching_lines) +:+ " matches for '"
                 +:+ search_term +:+ "' in data " +:+ data_id +:+ ":"
                 +:+ newline +:+ newline))
      as (rest & Hlisted).
    rewrite Hlisted.
    destruct (10 <? length matching_lines).
    + eexists. by rewrite !append_assoc.
    + eexists. by rewrite !append_assoc.
Qed.
End TextSearch.

(** ** The tool [finish_step] *)

Lemma first_invalid_status_none items :
  first_invalid_status items = None
  <-> Forall (fun item => item.2 = JStr "enabled" \/ item.2 = JStr "disabled") items.
Proof.
  induction items as [|[edge_name status] rest IH]; simpl.
  - split; [constructor | done].
  - rewrite Forall_cons. simpl. rewrite <- IH.
    destruct status as [| | |s| |]; simpl;
      try (split; [discriminate | intros [[? | ?] _]; discriminate]).
    destruct (decide (s = "enabled")) as [-> | Henabled];
      [simpl; split; [auto | tauto] |].
    destruct (decide (s = "disabled")) as [-> | Hdisabled];
      [simpl; split; [auto | tauto] |].
    rewrite !bool_decide_eq_false_2 by done. simpl.
    split; [discriminate |]. intros [[[= ?] | [= ?]] _]; done.
Qed.

Lemma first_invalid_status_some items outcome :
  first_invalid_status items = Some outcome ->
  (exists e, outcome = Raise e)
  \/ (exists text, outcome = Ok text /\ startswith text "Error:" = true).
Proof.
  induction items as [|[edge_name status] rest IH]; simpl; [discriminate |].
  destruct status as [| |z|s| |]; simpl.
  - intros [= <-]. right. eexists. split; reflexivity.
  - intros [= <-]. right. eexists. split; reflexivity.
  - intros [= <-]. right. eexists. split; reflexivity.
  - destruct (_ || _); [done |].
    intros [= <-]. right. eexists. split; reflexivity.
  - intros [= <-]. left. by eexists.
  - intros [= <-]. left. by eexists.
Qed.

(** X22.  The tool [finish_step] confirms well-formed parameters and
    nothing else.  Called with exactly the parameters [result] and
    [set_edge_status]: when [result] is a non-empty text and
    [set_edge_status] a non-empty dict whose statuses are all [enabled] or
    [disabled], it answers [Step completion confirmed ...] with the first
    100 characters of the result and the number of edges; in every other
    case it raises or answers with a text that begins with [Error:]. *)
Theorem finish_tool_validates (kwargs : list (string * json)) :
  (forall result_text items,
     map fst kwargs = ["result"; "set_edge_status"]
     \/ map fst kwargs = ["set_edge_status"; "result"] ->
     dict_get "result" kwargs = Some (JStr result_text) ->
     dict_get "set_edge_status" kwargs = Some (JObj items) ->
     well_formed_finish result_text items ->
     FinishStepTool_execute kwargs
     = Ok ("Step completion confirmed. Result: " +:+ take_str 100 result_text
           +:+ (if 100 <? String.length result_text then "..." else "")
           +:+ ". Edge updates: " +:+ pretty (length items) +:+ " edges."))
  /\ (forall text,
        FinishStepTool_execute kwargs = Ok text ->
        startswith text "Error:" = false ->
        exists result_text items,
          dict_get "result" kwargs = Some (JStr result_text)
          /\ dict_get "set_edge_status" kwargs = Some (JObj items)
          /\ well_formed_finish result_text items).
Proof.
  split.
  - intros result_text items Hkeys Hresult Hedges (Hfull & Hsome & Hvalid).
    unfold FinishStepTool_execute, dict_get_default, has_param.
    rewrite Hresult, Hedges.
    assert (forallb (fun k => name_in k ["result"; "set_edge_status"])
              (map fst kwargs) = true) as ->.
    { destruct Hkeys as [-> | ->]; reflexivity. }
    assert (name_in "result" (map fst kwargs) = true) as ->.
    { destruct Hkeys as [-> | ->]; reflexivity. }
    assert (name_in "set_edge_status" (map fst kwargs) = true) as ->.
    { destruct Hkeys as [-> | ->]; reflexivity. }
    destruct result_text as [|c r]; [done |].
    destruct items as [|item items]; [done |].
    cbn -[first_invalid_status String.length take_str Nat.ltb].
    by rewrite (proj2 (first_invalid_status_none _) Hvalid).
  - intros text. unfold FinishStepTool_execute, dict_get_default.
    destruct (_ && _); [| discriminate].
    destruct (dict_get "result" kwargs) as [[| | |[|c r]| |]|] eqn:Hresult;
      cbn -[first_invalid_status String.length take_str Nat.ltb];
      try (intros [= <-]; discriminate).
    destruct (dict_get "set_edge_status" kwargs) as [[| | | | |[|item items]]|]
      eqn:Hedges; cbn -[first_invalid_status String.length take_str Nat.ltb];
      try (intros [= <-]; discriminate).
    destruct (first_invalid_status (item :: items)) as [outcome|] eqn:Hcheck.
    + intros -> Hok.
      apply first_invalid_status_some in Hcheck
        as [(e & [=]) | (text' & [= <-] & Herror)].
      congruence.
    + intros _ _. exists (String c r), (item :: items).
      split; [done |]. split; [done |].
      split; [done |]. split; [done |].
      by apply first_invalid_status_none.
Qed.

(** ** A pass of the monitoring loop *)

Lemma update_edges_items_names all_edge_status items updated :
  update_edges_items all_edge_status items = Ok updated ->
  map e_edge updated = map e_edge all_edge_status.
Proof.
  revert all_edge_status.
  induction items as [|[edge_name new_status] rest IH]; intros all_edge_status; simpl.
  - by intros [= <-].
  - destruct (update_first_edge edge_name new_status all_edge_status)
      as [first|] eqn:Hfirst; [| discriminate].
    intros Hrest. apply IH in Hrest as ->.
    by apply update_first_edge_names in Hfirst.
Qed.

Section PassShape.
Context `{JsonCodec} `{Host}.

Lemma apply_result_names node_name node_status result_text set_edge_status
    all_node_status all_edge_status nodes' edges' :
  apply_result_to_nodes node_name node_status result_text set_edge_status
    all_node_status all_edge_status = Ok (nodes', edges') ->
  map n_node nodes' = map n_node all_node_status
  /\ map e_edge edges' = map e_edge all_edge_status.
Proof.
  revert all_edge_status nodes' edges'.
  induction all_node_status as [|node rest IH]; intros all_edge_status nodes' edges';
    simpl.
  - by intros [= <- <-].
  - unfold apply_result_to_node.
    assert (forall node1 edges1,
              (tail <- apply_result_to_nodes node_name node_status result_text
                         set_edge_status rest edges1 ;;
               let '(rest', edges'') := tail in Ok (node1 :: rest', edges''))
              = Ok (nodes', edges') ->
              n_node node1 = n_node node ->
              map e_edge edges1 = map e_edge all_edge_status ->
              map n_node nodes' = n_node node :: map n_node rest
              /\ map e_edge edges' = map e_edge all_edge_status) as Hrest.
    { intros node1 edges1 Hrun Hname Hedges.
      destruct (apply_result_to_nodes _ _ _ _ rest edges1)
        as [[rest' edges'']|e] eqn:Htail; simpl in Hrun; [| discriminate].
      injection Hrun as <- <-. apply IH in Htail as [Hnames Hrows].
      simpl. by rewrite Hnames, Hname, Hrows. }
    case_bool_decide as Hnode; simpl.
    + case_bool_decide as Hfinished; simpl.
      * destruct (_update_output_edges all_edge_status set_edge_status)
          as [updated|e] eqn:Hupdate; simpl; [| discriminate].
        intros Hrun. apply (Hrest _ _ Hrun); [done |].
        destruct set_edge_status; try discriminate.
        by apply update_edges_items_names in Hupdate.
      * intros Hrun. apply (Hrest _ _ Hrun); [done |].
        apply set_all_disabled_names.
    + intros Hrun. by apply (Hrest _ _ Hrun).
Qed.

Lemma process_executor_result_names executor_result all_node_status all_edge_status
    nodes' edges' :
  process_executor_result executor_result all_node_status all_edge_status
  = Ok (nodes', edges') ->
  map n_node nodes' = map n_node all_node_status
  /\ map e_edge edges' = map e_edge all_edge_status.
Proof.
  unfold process_executor_result.
  destruct (json_index _ "status") as [status|e]; simpl; [| discriminate].
  destruct (json_get _ "set_edge_status" _) as [set_edge_status|e]; simpl;
    [| discriminate].
  apply apply_result_names.
Qed.

Lemma reap_result_names executor_result executor_id all_node_status all_edge_status
    nodes' edges' :
  reap_result executor_result executor_id all_node_status all_edge_status
  = Ok (Some (nodes', edges')) ->
  map n_node nodes' = map n_node all_node_status
  /\ map e_edge edges' = map e_edge all_edge_status.
Proof.
  unfold reap_result.
  destruct executor_result as [v|table|table|r|df].
  - destruct v as [| |z|s|l|[|item items]];
      try (simpl; repeat case_match; discriminate).
    cbv zeta.
    destruct (json_index (JObj (item :: items)) "node_name") as [node_name|e];
      cbn [bind]; [| discriminate].
    destruct (json_index (JObj (item :: items)) "result") as [verdict|e];
      cbn [bind]; [| discriminate].
    destruct node_name as [| | |name| |];
      try (destruct (json_index verdict "status"); simpl; [| discriminate];
           destruct (json_get verdict "set_edge_status" _); simpl;
             [| discriminate];
           by intros [= <- <-]).
    destruct (process_executor_result _ _ _) as [[n e]|e] eqn:Hrun; simpl;
      [| discriminate].
    intros [= <- <-]. by apply process_executor_result_names in Hrun.
  - destruct table; discriminate.
  - destruct table; discriminate.
  - destruct (process_executor_result _ _ _) as [[n e]|e] eqn:Hrun; simpl;
      [| discriminate].
    intros [= <- <-]. by apply process_executor_result_names in Hrun.
  - discriminate.
Qed.

Lemma reap_executors_names watch mem running_nodes all_node_status all_edge_status
    nodes_to_pop nodes' edges' :
  reap_executors watch mem running_nodes all_node_status all_edge_status
  = Ok (nodes_to_pop, nodes', edges') ->
  map n_node nodes' = map n_node all_node_status
  /\ map e_edge edges' = map e_edge all_edge_status.
Proof.
  revert all_node_status all_edge_status nodes_to_pop nodes' edges'.
  induction running_nodes as [|entry rest IH];
    intros all_node_status all_edge_status nodes_to_pop nodes' edges'; simpl.
  - by intros [= _ <- <-].
  - unfold reap_executor.
    destruct (reap_result _ _ all_node_status all_edge_status)
      as [[[nodes1 edges1]|]|e] eqn:Hone; simpl; [| | discriminate].
    + apply reap_result_names in Hone as [Hnodes Hedges].
      destruct (reap_executors watch mem rest nodes1 edges1)
        as [[[pops nodes2] edges2]|e] eqn:Hrest; simpl; [| discriminate].
      intros [= _ <- <-]. apply IH in Hrest as [-> ->]. done.
    + destruct (reap_executors watch mem rest all_node_status all_edge_status)
        as [[[pops nodes2] edges2]|e] eqn:Hrest; simpl; [| discriminate].
      intros [= _ <- <-]. by apply IH in Hrest.
Qed.

Lemma sweep_node_names running cap node all_edge_status sw node' edges' sw' :
  sweep_node running cap node all_edge_status sw = Ok (node', edges', sw') ->
  n_node node' = n_node node /\ map e_edge edges' = map e_edge all_edge_status.
Proof.
  unfold sweep_node. destruct (negb _); simpl; [by intros [= <- <- <-] |].
  destruct (_should_trigger_node node all_edge_status)
    as [[is_triggering is_end_node]|e]; simpl; [| discriminate].
  destruct (is_triggering && _); [by intros [= <- <- <-] |].
  destruct (_are_all_input_edges_disabled node all_edge_status)
    as [all_disabled|e]; simpl; [| discriminate].
  destruct all_disabled; intros [= <- <- <-]; [| done].
  split; [done | apply set_all_disabled_names].
Qed.

Lemma sweep_marked_names running cap all_node_status all_edge_status sw rows edges'
    sw' :
  sweep_marked running cap all_node_status all_edge_status sw
  = Ok (rows, edges', sw') ->
  map (fun row => n_node row.1) rows = map n_node all_node_status
  /\ map e_edge edges' = map e_edge all_edge_status.
Proof.
  revert all_edge_status sw rows edges' sw'.
  induction all_node_status as [|node rest IH];
    intros all_edge_status sw rows edges' sw'; simpl.
  - by intros [= <- <- <-].
  - destruct (sweep_node _ _ node _ _) as [[[node1 edges1] sw1]|e] eqn:Hnode;
      simpl; [| discriminate].
    destruct (sweep_marked _ _ rest _ _) as [[[rest' edges2] sw2]|e] eqn:Hrest;
      simpl; [| discriminate].
    intros [= <- <- <-]. simpl.
    apply sweep_node_names in Hnode as [-> <-].
    apply IH in Hrest as [-> ->]. done.
Qed.

Lemma dispatch_nodes_names is_end_triggered rows mem :
  map n_node (dispatch_nodes is_end_triggered rows mem).1.1
  = map (fun row => n_node row.1) rows
  /\ data_collection (dispatch_nodes is_end_triggered rows mem).2
     = data_collection mem.
Proof.
  revert mem. induction rows as [|[node picked] rest IH]; intros mem; [done |].
  cbn [dispatch_nodes].
  destruct (picked && _).
  - destruct (IH (draw_uuid mem).2) as [Hnames Hdata].
    destruct (dispatch_nodes is_end_triggered rest (draw_uuid mem).2)
      as [[rest' started] mem'].
    simpl in *. by rewrite Hnames, Hdata.
  - destruct (IH mem) as [Hnames Hdata].
    destruct (dispatch_nodes is_end_triggered rest mem) as [[rest' started] mem'].
    simpl in *. by rewrite Hnames, Hdata.
Qed.

(** X23.  A pass keeps the shape of the tables and leaves the store in
    step with them.  Whenever a pass of the monitoring loop returns, the
    tables it leaves have the rows of the tables it read, by name and in
    the same order (it adds, drops and moves none), and the store then
    reads exactly these tables under [Node_Status] and [Edge_Status]. *)
Theorem monitoring_pass_tables (watch : string -> ProcessState)
    (max_executor_number : Z) (running_nodes : list RunningNode)
    (all_node_status : list Node) (all_edge_status : list Edge) (mem : Memory)
    (outcome : PassOutcome) :
  monitoring_pass watch max_executor_number running_nodes all_node_status
    all_edge_status mem = Ok outcome ->
  map n_node (po_nodes outcome) = map n_node all_node_status
  /\ map e_edge (po_edges outcome) = map e_edge all_edge_status
  /\ get_data_by_key (po_memory outcome) "Node_Status" = PNodes (po_nodes outcome)
  /\ get_data_by_key (po_memory outcome) "Edge_Status" = PEdges (po_edges outcome).
Proof.
  unfold monitoring_pass.
  destruct (reap_executors _ _ _ _ _) as [[[nodes_to_pop nodes1] edges1]|e]
    eqn:Hreap; simpl; [| discriminate].
  destruct (sweep_marked _ _ nodes1 edges1 _) as [[[rows edges2] sw]|e] eqn:Hsweep;
    simpl; [| discriminate].
  pose proof (dispatch_nodes_names (is_end_triggered sw) rows mem) as [Hnames _].
  destruct (dispatch_nodes (is_end_triggered sw) rows mem)
    as [[nodes2 started] mem1].
  intros [= <-]. simpl in *.
  apply reap_executors_names in Hreap as [Hnodes1 Hedges1].
  apply sweep_marked_names in Hsweep as [Hrows Hedges2].
  split; [congruence |]. split; [congruence |]. split.
  - rewrite get_after_update_other by done. by apply get_after_update.
  - by apply get_after_update.
Qed.

(** What the marks of the sweep tell. *)
Lemma sweep_marked_picks running cap all_node_status all_edge_status sw rows edges'
    sw' :
  sweep_marked running cap all_node_status all_edge_status sw
  = Ok (rows, edges', sw') ->
  is_end_triggered sw'
  = is_end_triggered sw
    || existsb (fun row => row.2 && is_end_name (n_node row.1)) rows
  /\ length (nodes_to_run sw')
     = length (nodes_to_run sw) + length (filter (fun row => row.2 = true) rows)
  /\ (is_end_triggered sw' = false ->
      length (filter (fun row : Node * bool => row.2 = true) rows) = 0
      \/ (Z.of_nat running + Z.of_nat (length (nodes_to_run sw')) <= cap)%Z).
Proof.
  revert all_edge_status sw rows edges' sw'.
  induction all_node_status as [|node rest IH];
    intros all_edge_status sw rows edges' sw'; simpl.
  - intros [= <- <- <-]. simpl. rewrite orb_false_r. split; [done |].
    split; [lia | auto].
  - destruct (sweep_node _ _ node _ _) as [[[node1 edges1] sw1]|e] eqn:Hnode;
      simpl; [| discriminate].
    destruct (sweep_marked _ _ rest _ _) as [[[rest' edges2] sw2]|e] eqn:Hrest;
      simpl; [| discriminate].
    intros [= <- <- <-].
    apply IH in Hrest as (Hend & Hlen & Hcap).
    apply sweep_node_pick in Hnode
      as [-> | (Hrun1 & -> & _ & Hpending & Hkind)].
    + rewrite bool_decide_eq_false_2 by lia. cbn [existsb].
      rewrite filter_cons. rewrite decide_False by done. done.
    + rewrite bool_decide_eq_true_2 by (rewrite Hrun1, length_app; simpl; lia).
      cbn [existsb]. rewrite filter_cons. rewrite decide_True by done.
      cbn [length fst snd andb].
      rewrite Hrun1, length_app in Hlen. simpl in Hlen.
      split; [| split; [lia |]].
      * rewrite Hend.
        destruct Hkind as [[-> ->] | (-> & -> & _)]; simpl.
        -- by rewrite orb_true_r.
        -- done.
      * intros Hno_end. right.
        pose proof Hno_end as Hno. rewrite Hend in Hno.
        apply orb_false_iff in Hno as [Hsw1 _].
        destruct Hkind as [[_ ?] | (_ & _ & Hfit)]; [congruence |].
        destruct (Hcap Hno_end) as [Hnone | ?]; [| done].
        rewrite Hlen, Hnone. rewrite Hrun1, length_app in Hfit. simpl in Hfit. lia.
Qed.

(** What the dispatch starts. *)
Lemma dispatch_nodes_started flag rows mem nodes' started mem' :
  dispatch_nodes flag rows mem = (nodes', started, mem') ->
  Forall (shown_running nodes') started
  /\ length started
     = length (filter (fun row => is_started flag row = true) rows)
  /\ (forall entry, entry ∈ started ->
        (exists row, row ∈ rows /\ is_started flag row = true
                     /\ n_node row.1 = rn_node_name entry)
        /\ exists k, uuid_draws mem <= k /\ rn_executor_id entry = uuid4 k)
  /\ (forall row, row ∈ rows -> is_started flag row = true ->
        exists entry, entry ∈ started /\ rn_node_name entry = n_node row.1).
Proof.
  revert mem nodes' started mem'.
  induction rows as [|[node picked] rest IH]; intros mem nodes' started mem'.
  - intros [= <- <- <-]. split; [constructor |]. split; [done |].
    split; [by intros ? ?%elem_of_nil | by intros ? ?%elem_of_nil].
  - cbn [dispatch_nodes]. rewrite filter_cons.
    change (picked && negb (flag && negb (is_end_name (n_node node))))
      with (is_started flag (node, picked)).
    destruct (is_started flag (node, picked)) eqn:Htest.
    + destruct (dispatch_nodes flag rest (draw_uuid mem).2)
        as [[rest' started'] mem1] eqn:Hrest.
      intros [= <- <- <-].
      apply IH in Hrest as (Hshown & Hlen & Hfrom & Hto).
      rewrite decide_True by done.
      split; [| split; [simpl; lia | split]].
      * constructor.
        -- exists (set_node_running node (draw_uuid mem).1).
           split; [apply list_elem_of_here | done].
        -- eapply Forall_impl; [exact Hshown |].
           intros entry (row & Hin & Hrow). exists row.
           split; [by apply list_elem_of_further | done].
      * intros entry [-> | Hin]%elem_of_cons.
        -- split.
           ++ exists (node, picked). split; [apply list_elem_of_here |].
              split; [exact Htest | done].
           ++ exists (uuid_draws mem). split; [lia | done].
        -- destruct (Hfrom entry Hin) as [(row & Hrow & Hok) (k & Hk & Hid)].
           split.
           ++ exists row. split; [by apply list_elem_of_further | done].
           ++ exists k. simpl in Hk. split; [lia | done].
      * intros row [-> | Hin]%elem_of_cons Hrow.
        -- eexists. split; [apply list_elem_of_here | done].
        -- destruct (Hto row Hin Hrow) as (entry & Hentry & Hname).
           exists entry. split; [by apply list_elem_of_further | done].
    + destruct (dispatch_nodes flag rest mem) as [[rest' started'] mem1] eqn:Hrest.
      intros [= <- <- <-].
      apply IH in Hrest as (Hshown & Hlen & Hfrom & Hto).
      rewrite decide_False by done.
      split; [| split; [done | split]].
      * eapply Forall_impl; [exact Hshown |].
        intros entry (row & Hin & Hrow). exists row.
        split; [by apply list_elem_of_further | done].
      * intros entry Hin.
        destruct (Hfrom entry Hin) as [(row & Hrow & Hok) Hdrawn].
        split; [| done].
        exists row. split; [by apply list_elem_of_further | done].
      * intros row [-> | Hin]%elem_of_cons Hrow.
        -- congruence.
        -- exact (Hto row Hin Hrow).
Qed.

(** The keys of [self.running_nodes] after an assignment. *)
Lemma track_executor_keys entry running_nodes executor_id :
  is_tracked executor_id (track_executor entry running_nodes)
  <-> executor_id = rn_executor_id entry \/ is_tracked executor_id running_nodes.
Proof.
  unfold is_tracked.
  induction running_nodes as [|tracked rest IH]; simpl.
  - rewrite elem_of_cons, elem_of_nil. tauto.
  - destruct (String.eqb_spec (rn_executor_id tracked) (rn_executor_id entry))
      as [Hsame | Hnew]; simpl.
    + rewrite !elem_of_cons, Hsame. tauto.
    + rewrite !elem_of_cons, IH. tauto.
Qed.

Lemma track_executor_length entry running_nodes :
  length (track_executor entry running_nodes) <= S (length running_nodes).
Proof.
  induction running_nodes as [|tracked rest IH]; simpl; [lia |].
  destruct (String.eqb _ _); simpl; lia.
Qed.

Lemma track_executors_keys started running_nodes executor_id :
  is_tracked executor_id (track_executors running_nodes started)
  <-> is_tracked executor_id running_nodes \/ is_tracked executor_id started.
Proof.
  unfold track_executors.
  revert running_nodes.
  induction started as [|entry rest IH]; intros running_nodes; simpl.
  - unfold is_tracked at 3. simpl. rewrite elem_of_nil. tauto.
  - rewrite IH, track_executor_keys.
    unfold is_tracked at 4. simpl. rewrite elem_of_cons.
    unfold is_tracked. tauto.
Qed.

Lemma track_executors_length started running_nodes :
  length (track_executors running_nodes started)
  <= length running_nodes + length started.
Proof.
  unfold track_executors.
  revert running_nodes.
  induction started as [|entry rest IH]; intros running_nodes; simpl; [lia |].
  pose proof (IH (track_executor entry running_nodes)).
  pose proof (track_executor_length entry running_nodes). lia.
Qed.

(** The parts of a pass. *)
Lemma monitoring_pass_parts watch max_executor_number running_nodes all_node_status
    all_edge_status mem outcome :
  monitoring_pass watch max_executor_number running_nodes all_node_status
    all_edge_status mem = Ok outcome ->
  exists nodes_to_pop reaped_nodes reaped_edges rows sw started mem1,
    reap_executors watch mem running_nodes all_node_status all_edge_status
    = Ok (nodes_to_pop, reaped_nodes, reaped_edges)
    /\ sweep_marked (length (pop_executors nodes_to_pop running_nodes))
         max_executor_number reaped_nodes reaped_edges
         {| nodes_to_run := []; is_end_triggered := false |}
       = Ok (rows, po_edges outcome, sw)
    /\ dispatch_nodes (is_end_triggered sw) rows mem
       = (po_nodes outcome, started, mem1)
    /\ po_running outcome
       = track_executors (pop_executors nodes_to_pop running_nodes) started.
Proof.
  unfold monitoring_pass.
  destruct (reap_executors _ _ _ _ _) as [[[nodes_to_pop nodes1] edges1]|e]
    eqn:Hreap; simpl; [| discriminate].
  destruct (sweep_marked _ _ _ _ _) as [[[rows edges2] sw]|e] eqn:Hsweep;
    simpl; [| discriminate].
  destruct (dispatch_nodes _ _ _) as [[nodes3 started] mem1] eqn:Hdispatch.
  intros [= <-]. simpl.
  by exists nodes_to_pop, nodes1, edges1, rows, sw, started, mem1.
Qed.

(** X24.  A pass of the monitoring loop tracks, besides the executors it
    keeps, the ones it starts: each of these is shown by the table the
    pass leaves, as a [running] row with the executor's identifier.  When
    the pass starts the end node it starts nothing else; when it starts
    other nodes, the executors tracked after the pass are at most
    [scheduler.max_executor_number]. *)
Theorem monitoring_pass_dispatch (watch : string -> ProcessState)
    (max_executor_number : Z) (running_nodes : list RunningNode)
    (all_node_status : list Node) (all_edge_status : list Edge) (mem : Memory)
    (outcome : PassOutcome) :
  monitoring_pass watch max_executor_number running_nodes all_node_status
    all_edge_status mem = Ok outcome ->
  exists nodes_to_pop started,
    po_running outcome
    = track_executors (pop_executors nodes_to_pop running_nodes) started
    /\ Forall (shown_running (po_nodes outcome)) started
    /\ (Exists (fun entry => is_end_name (rn_node_name entry) = true) started ->
        Forall (fun entry => is_end_name (rn_node_name entry) = true) started)
    /\ (Forall (fun entry => is_end_name (rn_node_name entry) = false) started ->
        started = []
        \/ (Z.of_nat (length (po_running outcome)) <= max_executor_number)%Z).
Proof.
  intros (nodes_to_pop & nodes1 & edges1 & rows & sw & started & mem1
          & _ & Hsweep & Hdispatch & Hrunning)%monitoring_pass_parts.
  exists nodes_to_pop, started.
  apply sweep_marked_picks in Hsweep as (Hend & Hlen & Hcap).
  apply dispatch_nodes_started in Hdispatch as (Hshown & Hcount & Hfrom & Hto).
  simpl in Hend, Hlen.
  split; [done |]. split; [done |].
  destruct (is_end_triggered sw) eqn:Hflag.
  - (* the end node was triggered *)
    assert (Forall (fun entry => is_end_name (rn_node_name entry) = true) started)
      as Hall.
    { apply Forall_forall. intros entry Hin.
      destruct (Hfrom entry Hin) as [(row & _ & Hrow & <-) _].
      unfold is_started in Hrow. simpl in Hrow.
      apply andb_true_iff in Hrow as [_ Hrow].
      by destruct (is_end_name (n_node row.1)). }
    split; [done |].
    intros Hnone. exfalso.
    symmetry in Hend. apply existsb_exists in Hend as (row & Hin & Hrow).
    apply andb_true_iff in Hrow as [Hpicked Hname].
    destruct (Hto row) as (entry & Hentry & Hsame).
    { by apply list_elem_of_In. }
    { unfold is_started. by rewrite Hpicked, Hname. }
    rewrite Forall_forall in Hnone. specialize (Hnone entry Hentry). congruence.
  - (* it was not *)
    split.
    + intros (entry & Hin & Hname)%Exists_exists. exfalso.
      destruct (Hfrom entry Hin) as [(row & Hrow & Hok & Hsame) _].
      unfold is_started in Hok. simpl in Hok. rewrite andb_true_r in Hok.
      assert (existsb (fun row : Node * bool => row.2 && is_end_name (n_node row.1))
                rows = true) as Hsome; [| congruence].
      apply existsb_exists. exists row.
      split; [by apply list_elem_of_In |]. by rewrite Hok, Hsame.
    + intros _.
      assert (filter (fun row => is_started false row = true) rows
              = filter (fun row : Node * bool => row.2 = true) rows) as Hsame.
      { apply list_filter_iff. intros row. unfold is_started. simpl.
        by rewrite andb_true_r. }
      rewrite Hsame in Hcount.
      destruct (Hcap eq_refl) as [Hnone | Hfit].
      * left. rewrite Hnone in Hcount. by destruct started.
      * right. rewrite Hrunning.
        pose proof (track_executors_length started
                      (pop_executors nodes_to_pop running_nodes)). lia.
Qed.

(** A worker that has left nothing under its key and is within its time
    is not marked for removal. *)
Lemma reap_executor_waits watch mem entry all_node_status all_edge_status :
  watch (rn_executor_id entry) <> TimedOut ->
  get_data_by_key mem (rn_executor_id entry +:+ "_step_result") = py_None ->
  reap_executor watch mem entry all_node_status all_edge_status
  = Ok (false, all_node_status, all_edge_status).
Proof.
  intros Hwatch Hnone. unfold reap_executor.
  destruct (watch (rn_executor_id entry)); [| | done]; by rewrite Hnone.
Qed.

(** A worker past its time, or one that has left its record, is. *)
Lemma reap_executor_pops watch mem entry all_node_status all_edge_status popped
    nodes' edges' :
  watch (rn_executor_id entry) = TimedOut
  \/ (exists r, get_data_by_key mem (rn_executor_id entry +:+ "_step_result")
                = PExecutorResult r) ->
  reap_executor watch mem entry all_node_status all_edge_status
  = Ok (popped, nodes', edges') ->
  popped = true.
Proof.
  intros Hreaped. unfold reap_executor.
  assert (exists r,
            match watch (rn_executor_id entry) with
            | TimedOut =>
                PExecutorResult
                  (timeout_result (rn_node_name entry) (rn_executor_id entry))
            | _ => get_data_by_key mem (rn_executor_id entry +:+ "_step_result")
            end = PExecutorResult r) as [r ->].
  { destruct Hreaped as [-> | [r Hr]]; [by eexists |].
    destruct (watch _); eauto. }
  simpl.
  destruct (process_executor_result _ _ _) as [[nodes1 edges1]|e]; simpl;
    [| discriminate].
  by intros [= <- _ _].
Qed.

Lemma reap_executors_waits watch mem running_nodes all_node_status
    all_edge_status nodes_to_pop nodes' edges' executor_id :
  reap_executors watch mem running_nodes all_node_status all_edge_status
  = Ok (nodes_to_pop, nodes', edges') ->
  watch executor_id <> TimedOut ->
  get_data_by_key mem (executor_id +:+ "_step_result") = py_None ->
  executor_id ∉ nodes_to_pop.
Proof.
  intros Hreap Hwatch Hnone.
  revert all_node_status all_edge_status nodes_to_pop nodes' edges' Hreap.
  induction running_nodes as [|entry rest IH];
    intros all_node_status all_edge_status nodes_to_pop nodes' edges'; simpl.
  - intros [= <- _ _]. apply not_elem_of_nil.
  - destruct (reap_executor _ _ entry _ _) as [[[popped nodes1] edges1]|e]
      eqn:Hhead; simpl; [| discriminate].
    destruct (reap_executors _ _ rest _ _) as [[[pops nodes2] edges2]|e]
      eqn:Hrest; simpl; [| discriminate].
    intros [= <- _ _]. apply IH in Hrest.
    destruct popped; [| done].
    intros [-> | Hin]%elem_of_cons; [| done].
    rewrite reap_executor_waits in Hhead by done. discriminate.
Qed.

Lemma reap_executors_pops watch mem running_nodes all_node_status
    all_edge_status nodes_to_pop nodes' edges' entry :
  reap_executors watch mem running_nodes all_node_status all_edge_status
  = Ok (nodes_to_pop, nodes', edges') ->
  entry ∈ running_nodes ->
  watch (rn_executor_id entry) = TimedOut
  \/ (exists r, get_data_by_key mem (rn_executor_id entry +:+ "_step_result")
                = PExecutorResult r) ->
  rn_executor_id entry ∈ nodes_to_pop.
Proof.
  intros Hreap Hin Hreaped.
  revert all_node_status all_edge_status nodes_to_pop nodes' edges' Hreap.
  induction running_nodes as [|head rest IH];
    intros all_node_status all_edge_status nodes_to_pop nodes' edges'; simpl.
  - by apply elem_of_nil in Hin.
  - destruct (reap_executor _ _ head _ _) as [[[popped nodes1] edges1]|e]
      eqn:Hhead; simpl; [| discriminate].
    destruct (reap_executors _ _ rest _ _) as [[[pops nodes2] edges2]|e]
      eqn:Hrest; simpl; [| discriminate].
    intros [= <- _ _].
    apply elem_of_cons in Hin as [<- | Hin].
    + apply reap_executor_pops in Hhead as ->; [| done].
      apply list_elem_of_here.
    + specialize (IH Hin _ _ _ _ _ Hrest).
      destruct popped; [by apply list_elem_of_further | done].
Qed.

(** The keys [pop_executors] leaves. *)
Lemma pop_executors_keys nodes_to_pop running_nodes executor_id :
  is_tracked executor_id (pop_executors nodes_to_pop running_nodes)
  <-> is_tracked executor_id running_nodes /\ executor_id ∉ nodes_to_pop.
Proof.
  unfold is_tracked, pop_executors.
  induction running_nodes as [|entry rest IH].
  - simpl. rewrite elem_of_nil. tauto.
  - rewrite filter_cons. case_decide as Hkept; simpl.
    + apply name_in_false in Hkept.
      rewrite !elem_of_cons, IH. split; [| tauto].
      intros [-> | ?]; tauto.
    + rewrite IH, elem_of_cons. split; [tauto |].
      intros [[-> | ?] Hout]; [| done].
      destruct (name_in (rn_executor_id entry) nodes_to_pop) eqn:Hpop;
        [| done].
      by apply name_in_true in Hpop.
Qed.

(** X25.  A pass of the monitoring loop goes on tracking an executor that
    is within its time and has left nothing under its key, whether its
    process is alive or has exited: a worker that ended without storing a
    result is not removed by the pass. *)
Theorem monitoring_pass_keeps_waiting (watch : string -> ProcessState)
    (max_executor_number : Z) (running_nodes : list RunningNode)
    (all_node_status : list Node) (all_edge_status : list Edge) (mem : Memory)
    (outcome : PassOutcome) (executor_id : string) :
  monitoring_pass watch max_executor_number running_nodes all_node_status
    all_edge_status mem = Ok outcome ->
  is_tracked executor_id running_nodes ->
  watch executor_id <> TimedOut ->
  get_data_by_key mem (executor_id +:+ "_step_result") = py_None ->
  is_tracked executor_id (po_running outcome).
Proof.
  intros (nodes_to_pop & nodes1 & edges1 & rows & sw & started & mem1
          & Hreap & _ & _ & ->)%monitoring_pass_parts Htracked Hwatch Hnone.
  apply track_executors_keys. left.
  apply pop_executors_keys. split; [done |].
  by eapply reap_executors_waits.
Qed.

(** X26.  A pass of the monitoring loop stops tracking an executor that is
    past its time or has left its record under its key, when the host
    does not draw the executor's identifier again. *)
Theorem monitoring_pass_drops_reaped (watch : string -> ProcessState)
    (max_executor_number : Z) (running_nodes : list RunningNode)
    (all_node_status : list Node) (all_edge_status : list Edge) (mem : Memory)
    (outcome : PassOutcome) (entry : RunningNode) :
  monitoring_pass watch max_executor_number running_nodes all_node_status
    all_edge_status mem = Ok outcome ->
  entry ∈ running_nodes ->
  watch (rn_executor_id entry) = TimedOut
  \/ (exists r, get_data_by_key mem (rn_executor_id entry +:+ "_step_result")
                = PExecutorResult r) ->
  (forall k, uuid_draws mem <= k -> uuid4 k <> rn_executor_id entry) ->
  ~ is_tracked (rn_executor_id entry) (po_running outcome).
Proof.
  intros (nodes_to_pop & nodes1 & edges1 & rows & sw & started & mem1
          & Hreap & _ & Hdispatch & ->)%monitoring_pass_parts Hin Hreaped Hfresh.
  intros [Hkept | Hnew]%track_executors_keys.
  - apply pop_executors_keys in Hkept as [_ Hout]. apply Hout.
    by eapply reap_executors_pops.
  - apply dispatch_nodes_started in Hdispatch as (_ & _ & Hfrom & _).
    unfold is_tracked in Hnew.
    apply list_elem_of_In, in_map_iff in Hnew as (other & Hid & Hother).
    apply list_elem_of_In in Hother.
    destruct (Hfrom other Hother) as [_ (k & Hk & Hdrawn)].
    apply (Hfresh k Hk). congruence.
Qed.
Lemma monitoring_pass_complete watch max_executor_number running_nodes
    all_node_status all_edge_status mem outcome :
  monitoring_pass watch max_executor_number running_nodes all_node_status
    all_edge_status mem = Ok outcome ->
  po_complete outcome
  = _is_execution_complete (po_nodes outcome) (po_edges outcome).
Proof.
  unfold monitoring_pass.
  destruct (reap_executors _ _ _ _ _) as [[[nodes_to_pop nodes1] edges1]|e];
    simpl; [| discriminate].
  destruct (sweep_marked _ _ _ _ _) as [[[rows edges2] sw]|e]; simpl;
    [| discriminate].
  destruct (dispatch_nodes _ _ _) as [[nodes3 started] mem1].
  by intros [= <-].
Qed.

Lemma nothing_left (all_node_status : list Node) (all_edge_status : list Edge) :
  negb (existsb (fun edge => json_is_str (e_status edge) "pending")
          all_edge_status)
  && negb (existsb (fun node => name_in (n_status node) ["pending"; "running"])
             all_node_status) = true ->
  Forall (fun edge => e_status edge <> JStr "pending") all_edge_status
  /\ Forall (fun node => n_status node <> "pending"
                         /\ n_status node <> "running") all_node_status.
Proof.
  intros [Hedges Hnodes]%andb_true_iff.
  apply negb_true_iff in Hedges, Hnodes.
  split; apply Forall_forall.
  - intros edge Hin Hpending.
    assert (existsb (fun edge => json_is_str (e_status edge) "pending")
              all_edge_status = true) as Hsome; [| congruence].
    apply existsb_exists. exists edge.
    split; [by apply list_elem_of_In | by apply json_is_str_true].
  - intros node Hin.
    assert (name_in (n_status node) ["pending"; "running"] = false) as Hout.
    { destruct (name_in (n_status node) ["pending"; "running"]) eqn:Hname;
        [| done].
      assert (existsb (fun node => name_in (n_status node) ["pending"; "running"])
                all_node_status = true) as Hsome; [| congruence].
      apply existsb_exists. exists node.
      split; [by apply list_elem_of_In | done]. }
    apply name_in_false in Hout.
    rewrite !not_elem_of_cons in Hout. tauto.
Qed.

(** X27.  When a pass of the monitoring loop ends the loop, the end node
    is finished (the first row with that name is), or nothing is left to
    do: no edge is [pending], no node is [pending] or [running], and the
    pass has started no executor. *)
Theorem monitoring_pass_completion (watch : string -> ProcessState)
    (max_executor_number : Z) (running_nodes : list RunningNode)
    (all_node_status : list Node) (all_edge_status : list Edge) (mem : Memory)
    (outcome : PassOutcome) :
  monitoring_pass watch max_executor_number running_nodes all_node_status
    all_edge_status mem = Ok outcome ->
  po_complete outcome = true ->
  (exists end_row,
     find (fun node => is_end_name (n_node node)) (po_nodes outcome)
     = Some end_row
     /\ n_status end_row = "finished")
  \/ (Forall (fun edge => e_status edge <> JStr "pending") (po_edges outcome)
      /\ Forall (fun node => n_status node <> "pending"
                             /\ n_status node <> "running") (po_nodes outcome)
      /\ exists nodes_to_pop,
           po_running outcome = pop_executors nodes_to_pop running_nodes).
Proof.
  intros Hpass Hcomplete.
  rewrite (monitoring_pass_complete _ _ _ _ _ _ _ Hpass) in Hcomplete.
  apply monitoring_pass_parts in Hpass
    as (nodes_to_pop & nodes1 & edges1 & rows & sw & started & mem1
        & _ & _ & Hdispatch & Hrunning).
  apply dispatch_nodes_started in Hdispatch as (Hshown & _).
  assert (Forall (fun edge => e_status edge <> JStr "pending") (po_edges outcome)
          /\ Forall (fun node => n_status node <> "pending"
                                 /\ n_status node <> "running")
                    (po_nodes outcome) ->
          exists nodes_to_pop,
            po_running outcome = pop_executors nodes_to_pop running_nodes)
    as Hidle.
  { intros [_ Hnodes]. exists nodes_to_pop. rewrite Hrunning.
    destruct started as [|entry rest]; [done |]. exfalso.
    apply Forall_cons in Hshown as [(row & Hin & _ & Hstatus & _) _].
    rewrite Forall_forall in Hnodes. by destruct (Hnodes row Hin). }
  unfold _is_execution_complete in Hcomplete.
  destruct (find _ (po_nodes outcome)) as [end_row|] eqn:Hend.
  - case_bool_decide as Hfinished; [left; by exists end_row |].
    right. apply nothing_left in Hcomplete. split; [tauto |]. split; [tauto |].
    by apply Hidle.
  - right. apply nothing_left in Hcomplete. split; [tauto |]. split; [tauto |].
    by apply Hidle.
Qed.
End PassShape.

(** * The further properties on examples *)

Lemma llm_calls_bounded_witness :
  exists verdict ex',
    @execute_step phrase_book counting_host (scripted ["think"; "think"; "think"])
      "system" "context" 3 3 (worker "A" registry)
    = Ok (verdict, ex')
    /\ llm_calls_count (worker "A" registry) <= llm_calls_count ex'
       <= llm_calls_count (worker "A" registry)
          + Z.to_nat (3 - 1) * Z.to_nat 3.
Proof.
  eexists _, _. split; [vm_compute; reflexivity |].
  apply (@llm_calls_bounded phrase_book counting_host
           (scripted ["think"; "think"; "think"]) "system" "context" 3%Z 3%Z
           (worker "A" registry) _ (no_finish_verdict "A")).
  vm_compute. reflexivity.
Defined.

Lemma conversation_is_logged_witness :
  exists verdict ex',
    @execute_step phrase_book counting_host (scripted ["think"; "think"; "think"])
      "system" "context" 3 3 (worker "A" registry)
    = Ok (verdict, ex')
    /\ audit_log ex' = audit_log (worker "A" registry) ++ conversation_history ex'
    /\ take 2 (conversation_history ex')
       = conversation_history (start_step (worker "A" registry) "system" "context").
Proof.
  eexists _, _. split; [vm_compute; reflexivity |].
  apply (@conversation_is_logged phrase_book counting_host
           (scripted ["think"; "think"; "think"]) "system" "context" 3%Z 3%Z
           (worker "A" registry) _ (no_finish_verdict "A")).
  vm_compute. reflexivity.
Defined.
Lemma sweep_respects_cap_witness :
  exists nodes' edges' sw',
    sweep_nodes 0 3 (chain_nodes "pending" "pending") chain_table no_sweep
    = Ok (nodes', edges', sw')
    /\ exists picked,
         nodes_to_run sw' = nodes_to_run no_sweep ++ picked
         /\ Forall (fun node => node ∈ chain_nodes "pending" "pending"
                                /\ node ∈ nodes'
                                /\ n_status node = "pending") picked
         /\ (is_end_triggered sw' = true <->
             is_end_triggered no_sweep = true
             \/ Exists (fun node => is_end_name (n_node node) = true) picked)
         /\ (is_end_triggered sw' = false ->
             picked = []
             \/ (Z.of_nat 0 + Z.of_nat (length (nodes_to_run sw')) <= 3)%Z).
Proof.
  eexists _, _, _. split; [vm_compute; reflexivity |].
  eapply (sweep_respects_cap 0 3%Z (chain_nodes "pending" "pending") _
           chain_table _ no_sweep _).
  vm_compute. reflexivity.
Defined.

Lemma sweep_disables_only_skipped_witness :
  exists nodes' edges' sw',
    sweep_nodes 0 3 (chain_nodes "pending" "pending") cut_chain_table no_sweep
    = Ok (nodes', edges', sw')
    /\ Forall2 (disabled_by nodes') cut_chain_table edges'.
Proof.
  eexists _, _, _. split; [vm_compute; reflexivity |].
  eapply (sweep_disables_only_skipped 0 3%Z (chain_nodes "pending" "pending") _
           cut_chain_table _ no_sweep _).
  vm_compute. reflexivity.
Defined.

Lemma completed_verdict_processing_witness :
  @process_executor_result silent_codec completed_verdict_of_A
    (chain_nodes "running" "pending") chain_table
  = Ok (map (finished_row "A"
               (@json_dumps silent_codec (er_result completed_verdict_of_A)))
            (chain_nodes "running" "pending"),
        if name_in "A" (map n_node (chain_nodes "running" "pending"))
        then map (updated_row [("eA_B", JStr "enabled")]) chain_table
        else chain_table).
Proof.
  apply (proj1 (@completed_verdict_processing silent_codec completed_verdict_of_A
                  [("result", JStr "queried");
                   ("status", JStr "completed");
                   ("set_edge_status", JObj [("eA_B", JStr "enabled")])]
                  [("eA_B", JStr "enabled")]
                  (chain_nodes "running" "pending") chain_table
                  eq_refl eq_refl eq_refl
                  ltac:(apply (bool_decide_unpack _); vm_compute; exact I)
                  ltac:(apply (bool_decide_unpack _); vm_compute; exact I))).
  apply (bool_decide_unpack _). vm_compute. exact I.
Defined.

Lemma load_plandag_node_rows_witness :
  exists before after,
    chain_plan = before ++ plan_node "start" [] ["eS_A"] :: after
    /\ Forall (fun node => is_start node = false) before
    /\ @get_data_by_key counting_host
         (@_load_plandag counting_host "chain_plan_dag.json" chain_plan
            empty_memory).2 "Node_Status"
       = PNodes (map node_row before
                 ++ set_node_status (node_row (plan_node "start" [] ["eS_A"]))
                      "finished"
                    :: map node_row after).
Proof.
  apply (@load_plandag_node_rows counting_host "chain_plan_dag.json" chain_plan
           empty_memory (plan_node "start" [] ["eS_A"])); reflexivity.
Defined.
Lemma fenced_answer_is_parsed_witness :
  @next_action phrase_book (scripted ["```jsonthink```"]) 3 worker_A
  = Ok (thinking, "think", count_llm_call worker_A).
Proof.
  apply (@fenced_answer_is_parsed phrase_book (scripted ["```jsonthink```"]) 3%Z
           worker_A "think" thinking).
  - by vm_compute.
  - lia.
  - reflexivity.
  - reflexivity.
Defined.

Lemma plugin_query_is_run_witness :
  let query := "SELECT service_version FROM api_gateway_logs" in
  let snippet_id := "00000000-0000-4000-8000-000000000000" in
  let stored :=
    (@store_code_snippet padded_host query (Some "plugin_1")
       (Some "Distributed_System_Low_Availability") full_window
       (Some ("Query/code generated from TSG "
              +:+ "Distributed_System_Low_Availability"))
       (memory worker_A)).2 in
  let answer :=
    @run_sql_query (scripted ["query"]) query JNull
      (JStr ("Result of " +:+ "A" +:+ " step execution")) stored in
  let recorded :=
    [{| role := "assistant"; content := "query" |};
     {| role := "user";
        content := "Observation: " +:+ stored_id_prefix +:+ snippet_id |};
     {| role := "assistant";
        content := @json_dumps phrase_book (sql_follow_up "A" snippet_id) |};
     {| role := "user"; content := "Observation: " +:+ answer.1 |}] in
  @_execute_action padded_host (scripted ["query"]) (tools worker_A)
    "plugin_1_tool" (JObj full_window) (memory worker_A)
  = (stored_id_prefix +:+ snippet_id, stored)
  /\ get_code_snippet stored snippet_id = Some query
  /\ @_execute_action padded_host (scripted ["query"]) (tools worker_A)
       "sql_query_tool" (sql_parameters "A" snippet_id) stored
     = (answer.1, answer.2)
  /\ exists final,
       @react_iteration phrase_book padded_host (scripted ["query"]) 3 1 worker_A
       = Ok (final, None)
       /\ conversation_history final = conversation_history worker_A ++ recorded
       /\ memory final = answer.2.
Proof.
  apply (@plugin_query_is_run phrase_book padded_host (scripted ["query"])
           3%Z 1%Z worker_A (with_llm_calls (enter_iteration worker_A 1) 1)
           [("thought", JStr "run the query");
            ("action", JStr "plugin_1_tool");
            ("parameters", JObj full_window)]
           full_window "query" "plugin_1_tool"
           "SELECT service_version FROM api_gateway_logs" plugin_1);
    try reflexivity.
  split; reflexivity.
Defined.

Lemma plugin_fills_template_witness :
  plugin_execute plugin_1 full_window
  = template_format plugin_1
      (dict_set "end_time" (JStr (sql_timestamp "2024-01-01" "01:00:00"))
         (dict_set "start_time" (JStr (sql_timestamp "2024-01-01" "00:00:00"))
            full_window)).
Proof.
  apply (plugin_fills_template plugin_1 full_window
           "2024-01-01" "00:00:00" "2024-01-01" "01:00:00").
  - apply (bool_decide_unpack _). vm_compute. exact I.
  - reflexivity.
  - reflexivity.
  - split; reflexivity.
  - split; reflexivity.
  - split; reflexivity.
  - split; reflexivity.
Defined.

Lemma finish_step_verdict_witness :
  exists final,
    @execute_step finish_book counting_host (scripted ["finish"])
      "system" "context" 3 5 (worker "A" registry)
    = Ok (finish_verdict "A" finish_parameters, final)
    /\ conversation_history final
       = conversation_history worker_A
         ++ [{| role := "assistant"; content := "finish" |}]
    /\ memory final = memory worker_A
    /\ llm_calls_count final
       = llm_calls_count (with_llm_calls (enter_iteration worker_A 1) 1).
Proof.
  apply (@finish_step_verdict finish_book counting_host (scripted ["finish"])
           "system" "context" 3%Z 5%Z (worker "A" registry) 0 worker_A
           (with_llm_calls (enter_iteration worker_A 1) 1)
           [("thought", JStr "all done");
            ("action", JStr "finish_step");
            ("parameters", JObj finish_parameters)]
           finish_parameters "finish").
  - lia.
  - reflexivity.
  - reflexivity.
  - reflexivity.
  - reflexivity.
  - reflexivity.
Defined.
Lemma add_data_then_get_data_witness :
  let stored :=
    @add_data counting_host (PJson (JStr "gateway")) "note" None None None
      loaded_memory in
  @get_data counting_host stored.2 stored.1 = PJson (JStr "gateway")
  /\ forall other, other <> stored.1 ->
       @get_data counting_host stored.2 other
       = @get_data counting_host loaded_memory other.
Proof.
  apply (@add_data_then_get_data counting_host (PJson (JStr "gateway")) "note"
           None None None loaded_memory); reflexivity.
Defined.

Lemma store_code_snippet_then_get_witness :
  let stored :=
    @store_code_snippet counting_host "SELECT 1" (Some "plugin_1") None []
      None loaded_memory in
  get_code_snippet stored.2 stored.1 = Some "SELECT 1"
  /\ (forall other, other <> stored.1 ->
        get_code_snippet stored.2 other = get_code_snippet loaded_memory other)
  /\ data_collection stored.2 = data_collection loaded_memory
  /\ dataframes_collection stored.2 = dataframes_collection loaded_memory.
Proof.
  apply (@store_code_snippet_then_get counting_host "SELECT 1" (Some "plugin_1")
           None [] None loaded_memory); reflexivity.
Defined.

Lemma add_data_keeps_keys_witness :
  @get_data_by_key counting_host
    (@add_data counting_host (PJson (JStr "gateway")) "note" None
       (Some [("key", JStr "Edge_Status")]) None loaded_memory).2
    "Edge_Status"
  = match find (has_key "Edge_Status") (data_collection loaded_memory) with
    | Some _ => @get_data_by_key counting_host loaded_memory "Edge_Status"
    | None =>
        match dict_get "key" [("key", JStr "Edge_Status")] with
        | Some (JStr key') =>
            if bool_decide (key' = "Edge_Status")
            then PJson (JStr "gateway") else py_None
        | _ => py_None
        end
    end.
Proof.
  apply (@add_data_keeps_keys counting_host (PJson (JStr "gateway")) "note" None
           [("key", JStr "Edge_Status")] None loaded_memory "Edge_Status").
  reflexivity.
Defined.

Lemma update_by_key_keeps_other_keys_witness :
  @get_data_by_key counting_host
    (@update_data_by_key counting_host "Node_Status"
       (PNodes (chain_nodes "running" "pending")) None None loaded_memory).2
    "Edge_Status"
  = @get_data_by_key counting_host loaded_memory "Edge_Status".
Proof.
  apply (@update_by_key_keeps_other_keys counting_host "Node_Status" "Edge_Status"
           (PNodes (chain_nodes "running" "pending")) None None loaded_memory).
  - reflexivity.
  - discriminate.
Defined.

Lemma config_section_then_key_witness :
  json_get (get_section example_config "executor") "max_iterations" (JNum 5)
  = Ok (ConfigLoader_get example_config ("executor" +:+ "." +:+ "max_iterations")
          (JNum 5)).
Proof.
  apply (config_section_then_key example_config "executor" "max_iterations"
           (JNum 5) [("max_iterations", JNum 10)]); reflexivity.
Defined.

Lemma base_tsg_name_of_references_witness :
  _get_base_tsg_name ("Low_Availability" +:+ "_WITH_REFERENCES" +:+ "." +:+ "md")
  = "Low_Availability"
  /\ _get_base_tsg_name
       ("Low_Availability" +:+ "_WITH_PLUGIN_REFERENCES" +:+ "." +:+ "md")
     = "Low_Availability"
  /\ (endswith "Low_Availability" "_WITH_REFERENCES" = false ->
      endswith "Low_Availability" "_WITH_PLUGIN_REFERENCES" = false ->
      _get_base_tsg_name ("Low_Availability" +:+ "." +:+ "md")
      = "Low_Availability").
Proof.
  apply (base_tsg_name_of_references "Low_Availability" "md"). reflexivity.
Defined.

Lemma conversation_message_round_trip_witness :
  let message := {| role := "user"; content := "context" |} in
  (forall agent, find_agent registered_agents "executor-1" = Some agent ->
     exists agents' old,
       register_conversation_message "20240101_000000" "executor-1" message
         registered_agents
       = Ok agents'
       /\ get_agent_context registered_agents "executor-1" None true
          = Ok (Messages old)
       /\ get_agent_context agents' "executor-1" None true
          = Ok (Messages (old ++ [message_json message]))
       /\ forall other limit message_only, other <> "executor-1" ->
            get_agent_context agents' other limit message_only
            = get_agent_context registered_agents other limit message_only)
  /\ (find_agent registered_agents "executor-1" = None ->
      register_conversation_message "20240101_000000" "executor-1" message
        registered_agents
      = Raise (ValueError ("Agent ID " +:+ "executor-1" +:+ " not registered"))).
Proof.
  apply (conversation_message_round_trip "20240101_000000" "executor-1"
           {| role := "user"; content := "context" |} registered_agents).
  discriminate.
Defined.

Lemma register_agent_then_context_witness :
  (forall limit,
     get_agent_context registered_agents "executor-1" limit true
     = Ok (Messages [])
     /\ get_agent_context registered_agents "executor-1" limit false
        = Ok (Entries []))
  /\ (forall other limit message_only, other <> "executor-1" ->
        get_agent_context registered_agents other limit message_only
        = get_agent_context [] other limit message_only)
  /\ (forall other_name further,
        @register_agent counting_host other_name (Some "executor-1") further
          registered_agents
        = Raise (ExternalError "DuplicateKeyError"))
  /\ (forall timestamp message, "executor-1" <> "" ->
        exists agents'',
          register_conversation_message timestamp "executor-1" message
            registered_agents
          = Ok agents''
          /\ get_agent_context agents'' "executor-1" None true
             = Ok (Messages [message_json message])).
Proof.
  apply (@register_agent_then_context counting_host "executor_A"
           (Some "executor-1") 0 [] "executor-1" 0 registered_agents).
  reflexivity.
Defined.
Lemma get_data_section_text_witness :
  let total_lines := Z.of_nat (length (lines_of three_lines)) in
  let header (last : Z) :=
    "Lines " +:+ pretty (0 + 1)%Z +:+ "-" +:+ pretty last
    +:+ " of " +:+ pretty total_lines +:+ " from data " +:+ "uuid-0" +:+ ":"
    +:+ newline +:+ newline in
  ((0 <= 0 < total_lines)%Z -> (0 <= 5)%Z ->
   @get_data_section counting_host plain_pandas text_memory "uuid-0" 0 5
   = header (Z.min (0 + 5) total_lines)
     +:+ join newline
           (take (Z.to_nat 5) (drop (Z.to_nat 0) (lines_of three_lines))))
  /\ (0%Z = 0%Z -> (total_lines <= 5)%Z ->
      @get_data_section counting_host plain_pandas text_memory "uuid-0" 0 5
      = header total_lines +:+ three_lines)
  /\ ((total_lines <= 0)%Z ->
      @get_data_section counting_host plain_pandas text_memory "uuid-0" 0 5
      = "Error: Start line " +:+ pretty 0%Z +:+ " exceeds total lines "
        +:+ pretty total_lines).
Proof.
  apply (@get_data_section_text counting_host plain_pandas text_memory "uuid-0"
           three_lines 0%Z 5%Z).
  eexists. split; [reflexivity |]. split; reflexivity.
Defined.

Lemma search_data_text_witness :
  let found :=
    filter (fun line => contains_str "beta" line = true) (lines_of three_lines) in
  (contains_str "beta" three_lines = false ->
   @search_data counting_host plain_pandas text_memory "uuid-0" "beta"
   = "No matches found for '" +:+ "beta" +:+ "' in data " +:+ "uuid-0")
  /\ (contains_str "beta" three_lines = true ->
      0 < length found
      /\ exists listing,
           @search_data counting_host plain_pandas text_memory "uuid-0" "beta"
           = "Found " +:+ pretty (length found) +:+ " matches for '"
             +:+ "beta" +:+ "' in data " +:+ "uuid-0" +:+ ":"
             +:+ newline +:+ newline +:+ listing).
Proof.
  apply (@search_data_text counting_host plain_pandas text_memory "uuid-0"
           three_lines "beta").
  - eexists. split; [reflexivity |]. split; reflexivity.
  - reflexivity.
Defined.
Lemma monitoring_pass_tables_witness :
  exists outcome,
    @monitoring_pass silent_codec counting_host (fun _ => Alive) 3
      [worker_of_A] (chain_nodes "running" "pending") chain_table
      reported_memory
    = Ok outcome
    /\ map n_node (po_nodes outcome) = map n_node (chain_nodes "running" "pending")
    /\ map e_edge (po_edges outcome) = map e_edge chain_table
    /\ @get_data_by_key counting_host (po_memory outcome) "Node_Status"
       = PNodes (po_nodes outcome)
    /\ @get_data_by_key counting_host (po_memory outcome) "Edge_Status"
       = PEdges (po_edges outcome).
Proof.
  eexists. split; [vm_compute; reflexivity |].
  eapply (@monitoring_pass_tables silent_codec counting_host (fun _ => Alive) 3%Z
            [worker_of_A] (chain_nodes "running" "pending") chain_table
            reported_memory).
  vm_compute. reflexivity.
Defined.

Lemma monitoring_pass_dispatch_witness :
  exists outcome,
    @monitoring_pass silent_codec counting_host (fun _ => Alive) 3
      [worker_of_A] (chain_nodes "running" "pending") chain_table
      reported_memory
    = Ok outcome
    /\ exists nodes_to_pop started,
         po_running outcome
         = track_executors (pop_executors nodes_to_pop [worker_of_A]) started
         /\ Forall (shown_running (po_nodes outcome)) started
         /\ (Exists (fun entry => is_end_name (rn_node_name entry) = true) started ->
             Forall (fun entry => is_end_name (rn_node_name entry) = true) started)
         /\ (Forall (fun entry => is_end_name (rn_node_name entry) = false) started ->
             started = []
             \/ (Z.of_nat (length (po_running outcome)) <= 3)%Z).
Proof.
  eexists. split; [vm_compute; reflexivity |].
  eapply (@monitoring_pass_dispatch silent_codec counting_host (fun _ => Alive) 3%Z
            [worker_of_A] (chain_nodes "running" "pending") chain_table
            reported_memory).
  vm_compute. reflexivity.
Defined.

Lemma monitoring_pass_keeps_waiting_witness :
  exists outcome,
    @monitoring_pass silent_codec counting_host (fun _ => Exited) 3
      [worker_of_A] (chain_nodes "running" "pending") chain_table loaded_memory
    = Ok outcome
    /\ is_tracked "executor-1" (po_running outcome).
Proof.
  eexists. split; [vm_compute; reflexivity |].
  eapply (@monitoring_pass_keeps_waiting silent_codec counting_host
            (fun _ => Exited) 3%Z [worker_of_A]
            (chain_nodes "running" "pending") chain_table loaded_memory).
  - vm_compute. reflexivity.
  - apply list_elem_of_here.
  - discriminate.
  - reflexivity.
Defined.

Lemma monitoring_pass_drops_reaped_witness :
  exists outcome,
    @monitoring_pass silent_codec counting_host (fun _ => TimedOut) 3
      [worker_of_A] (chain_nodes "running" "pending") chain_table loaded_memory
    = Ok outcome
    /\ ~ is_tracked (rn_executor_id worker_of_A) (po_running outcome).
Proof.
  eexists. split; [vm_compute; reflexivity |].
  eapply (@monitoring_pass_drops_reaped silent_codec counting_host
            (fun _ => TimedOut) 3%Z [worker_of_A]
            (chain_nodes "running" "pending") chain_table loaded_memory).
  - vm_compute. reflexivity.
  - apply list_elem_of_here.
  - by left.
  - intros k _ Hsame.
    change (@uuid4 counting_host k) with (String "u" ("uid-" +:+ pretty k))
      in Hsame.
    discriminate.
Defined.
Lemma monitoring_pass_completion_witness :
  exists outcome,
    @monitoring_pass silent_codec counting_host (fun _ => TimedOut) 3
      [worker_of_A] (chain_nodes "running" "pending") chain_table loaded_memory
    = Ok outcome
    /\ ((exists end_row,
           find (fun node => is_end_name (n_node node)) (po_nodes outcome)
           = Some end_row
           /\ n_status end_row = "finished")
        \/ (Forall (fun edge => e_status edge <> JStr "pending")
                   (po_edges outcome)
            /\ Forall (fun node => n_status node <> "pending"
                                   /\ n_status node <> "running")
                      (po_nodes outcome)
            /\ exists nodes_to_pop,
                 po_running outcome = pop_executors nodes_to_pop [worker_of_A])).
Proof.
  eexists. split; [vm_compute; reflexivity |].
  eapply (@monitoring_pass_completion silent_codec counting_host
            (fun _ => TimedOut) 3%Z [worker_of_A]
            (chain_nodes "running" "pending") chain_table loaded_memory).
  - vm_compute. reflexivity.
  - reflexivity.
Defined.
